(** * PC-ALE PAL: radio CAT codecs and the polyphase resampler

    A shallow embedding of the hardware-facing core of the platform
    abstraction layer:

    - [src/include/pal/radio.h]      : [RadioMode], [Channel], the [IRadio] interface;
    - [src/src/radios/kenwood.cpp]   : module [Kenwood];
    - [src/src/radios/elecraft.cpp]  : module [Elecraft];
    - [src/src/radios/icom_civ.cpp]  : module [IcomCiv];
    - [src/src/radios/yaesu_cat.cpp] : module [YaesuCat];
    - [src/src/common/resampler.cpp] : module [Resampler].

    Conventions.  A [uint8_t]/[uint32_t]/[size_t] value is a [Z] with the
    wrap-around written out ([u8], [u32], [size_t_of]).  A [std::string] is a
    [list ascii]; a byte buffer is a [list Z].  The codecs are stateful and
    talk to the outside through two [std::function] callbacks and a serial
    collaborator: every method is a computation in the monad [M], which
    threads the object state and logs each call that leaves the object as an
    [Event].  A [float] is an IEEE-754 binary32 value and a [double] a
    binary64 value ([spec_float] with the operations at precision 24 and
    53); [std::sin] and [std::cos] are parameters.  Undefined behaviour of
    the resampler (an index outside a vector, a remainder by zero) is
    [None]. *)

From Stdlib Require Import ZArith Bool Ascii String List Lia.
From Stdlib Require Import Floats.SpecFloat.
From coqutil Require Import Z.PushPullMod.
Import ListNotations.

Local Open Scope Z_scope.

(** ** Machine integers *)

Definition u8 (z : Z) : Z := z mod 2 ^ 8.
Definition u32 (z : Z) : Z := z mod 2 ^ 32.
(** Conversion of an [int] or of an unsigned sum to [size_t] (64 bits). *)
Definition size_t_of (z : Z) : Z := z mod 2 ^ 64.
Definition INT_MAX : Z := 2 ^ 31 - 1.

(** ** Characters and strings *)

Definition str (s : string) : list ascii := list_ascii_of_string s.

(** [static_cast<char>(b)] for a byte [b], and the byte behind a [char]
    (the [reinterpret_cast<const uint8_t*>] of [send_command]). *)
Definition char_of_byte (b : Z) : ascii := ascii_of_N (Z.to_N (u8 b)).
Definition byte_of_char (c : ascii) : Z := Z.of_N (N_of_ascii c).
Definition bytes_of (s : list ascii) : list Z := map byte_of_char s.

(** *** The [snprintf] conversions the codecs use *)

Definition digit_char (d : Z) : ascii := ascii_of_N (Z.to_N (48 + d)).

(** Decimal digits of a non-negative number, most significant first.
    [fuel] bounds the number of digits; a 32-bit argument has at most 10. *)
Fixpoint dec_digits (fuel : nat) (n : Z) : list ascii :=
  match fuel with
  | O => []
  | S k =>
      if n <? 10 then [digit_char n]
      else dec_digits k (n / 10) ++ [digit_char (n mod 10)]
  end.

Definition zero_pad (width : nat) (ds : list ascii) : list ascii :=
  repeat "0"%char (width - length ds) ++ ds.

(** ["%0<width>u"] on a [uint32_t]. *)
Definition fmt_u (width : nat) (n : Z) : list ascii :=
  zero_pad width (dec_digits 10 n).

(** ["%0<width>d"] on an [int]; [width = 0] is the plain ["%d"].  The sign
    comes first and counts in the width. *)
Definition fmt_d (width : nat) (z : Z) : list ascii :=
  if z <? 0 then "-"%char :: zero_pad (width - 1) (dec_digits 10 (- z))
  else zero_pad width (dec_digits 10 z).

(** [snprintf(buf, size, ...)] keeps at most [size - 1] characters. *)
Definition snprintf (size : nat) (s : list ascii) : list ascii :=
  firstn (size - 1) s.

(** [std::string(buf)] on a character buffer: the characters before the
    first NUL.  [snprintf] ends what it writes with a NUL, and a ["%c"] can
    put one in the middle. *)
Fixpoint string_of_buf (buf : list ascii) : list ascii :=
  match buf with
  | [] => []
  | c :: rest =>
      if Ascii.eqb c "000" then [] else c :: string_of_buf rest
  end.

(** Reading a run of ASCII digits as a decimal number. *)
Definition digit_value (c : ascii) : Z := byte_of_char c - 48.
Definition decimal_value (ds : list ascii) : Z :=
  fold_left (fun acc c => 10 * acc + digit_value c) ds 0.

(** ** radio.h: modes and channels *)

Inductive RadioMode : Set :=
  | LSB | USB | CW | FM | FMW | AM | FSK | RTTY | CW_R | TUNE | FSK_R
  | DIG | DATA_LSB | DATA_USB | UNKNOWN.

Definition RadioMode_eqb (a b : RadioMode) : bool :=
  match a, b with
  | LSB, LSB | USB, USB | CW, CW | FM, FM | FMW, FMW | AM, AM | FSK, FSK
  | RTTY, RTTY | CW_R, CW_R | TUNE, TUNE | FSK_R, FSK_R | DIG, DIG
  | DATA_LSB, DATA_LSB | DATA_USB, DATA_USB | UNKNOWN, UNKNOWN => true
  | _, _ => false
  end.

Record Channel : Set := mkChannel {
  id : Z;
  tx_frequency : Z;
  rx_frequency : Z;
  tx_mode : RadioMode;
  rx_mode : RadioMode;
  antenna : Z;
  power : Z;
  attenuation : Z;
  in_use : bool
}.

(** The default member initialisers of [struct Channel]. *)
Definition Channel_default : Channel :=
  {| id := 0; tx_frequency := 0; rx_frequency := 0;
     tx_mode := USB; rx_mode := USB;
     antenna := 1; power := 100; attenuation := 0; in_use := false |}.

(** ** Collaborators and effects *)

(** A non-null [ISerial*] is a handle; [None] is [nullptr]. *)
Definition ISerial : Set := nat.
(** [!p] on a pointer. *)
Definition is_null {A} (p : option A) : bool :=
  match p with Some _ => false | None => true end.
(** A non-empty [std::function] is a handle; [None] is the empty function. *)
Definition SendCommandCallback : Set := option nat.
Definition AckCallback : Set := option nat.

(** Everything a codec does to the outside world. *)
Inductive Event : Set :=
  | CallbackSend (cb : nat) (data : list Z)      (* send_callback_(data, n) *)
  | SerialWrite (port : ISerial) (data : list Z) (* serial_->write(data, n) *)
  | AckInvoked (cb : nat).                       (* ack_callback_()         *)

Definition is_ack (e : Event) : bool :=
  match e with AckInvoked _ => true | _ => false end.
Definition count_acks (es : list Event) : nat := length (filter is_ack es).

(** Bytes that left the codec, in order, whichever way they went. *)
Definition emitted (es : list Event) : list (list Z) :=
  flat_map (fun e => match e with
                     | CallbackSend _ d | SerialWrite _ d => [d]
                     | AckInvoked _ => []
                     end) es.

(** *** The state-and-log monad *)

Definition M (S A : Type) : Type := S -> A * S * list Event.

Definition ret {S A} (a : A) : M S A := fun s => (a, s, []).
Definition bind {S A B} (m : M S A) (k : A -> M S B) : M S B :=
  fun s => let '(a, s1, e1) := m s in
           let '(b, s2, e2) := k a s1 in (b, s2, e1 ++ e2).
Definition gets {S A} (f : S -> A) : M S A := fun s => (f s, s, []).
Definition modify {S} (f : S -> S) : M S unit := fun s => (tt, f s, []).
Definition emit {S} (e : Event) : M S unit := fun s => (tt, s, [e]).
Definition when {S} (b : bool) (m : M S unit) : M S unit :=
  if b then m else ret tt.

Declare Scope monad_scope.
Delimit Scope monad_scope with monad.
Notation "x <- m ;; k" := (bind m (fun x => k))
  (at level 61, m at next level, right associativity) : monad_scope.
Notation "m ;;; k" := (bind m (fun _ => k))
  (at level 61, right associativity) : monad_scope.

(** [for (i = 0; i < length; i++) body(data[i])]. *)
Fixpoint for_each {S A} (body : A -> M S unit) (data : list A) : M S unit :=
  match data with
  | [] => ret tt
  | x :: rest => bind (body x) (fun _ => for_each body rest)
  end.

Definition result {S A} (r : A * S * list Event) : A := fst (fst r).
Definition state_of {S A} (r : A * S * list Event) : S := snd (fst r).
Definition events {S A} (r : A * S * list Event) : list Event := snd r.

(** ** The [IRadio] interface *)

Record IRadio (S : Type) : Type := mkIRadio {
  initialize : M S bool;
  shutdown : M S unit;
  start : M S bool;
  stop : M S unit;
  set_channel : Channel -> M S bool;
  get_channel : S -> Channel;
  set_ptt : bool -> M S unit;
  is_transmitting : S -> bool;
  is_ready : S -> bool;
  get_port_config : S -> list ascii;
  register_send_callback : SendCommandCallback -> M S unit;
  register_ack_callback : AckCallback -> M S unit;
  process_response : list Z -> M S unit
}.

Arguments initialize {S}.
Arguments shutdown {S}.
Arguments start {S}.
Arguments stop {S}.
Arguments set_channel {S}.
Arguments get_channel {S}.
Arguments set_ptt {S}.
Arguments is_transmitting {S}.
Arguments is_ready {S}.
Arguments get_port_config {S}.
Arguments register_send_callback {S}.
Arguments register_ack_callback {S}.
Arguments process_response {S}.

(** A call through the interface, and what it hands back. *)
Inductive Call : Set :=
  | CInitialize | CShutdown | CStart | CStop
  | CSetChannel (c : Channel) | CGetChannel
  | CSetPtt (transmit : bool) | CIsTransmitting | CIsReady | CGetPortConfig
  | CRegisterSend (cb : SendCommandCallback)
  | CRegisterAck (cb : AckCallback)
  | CProcessResponse (data : list Z).

Inductive Ret : Set :=
  | RVoid | RBool (b : bool) | RChannel (c : Channel) | RString (s : list ascii).

Definition lift {S A} (f : A -> Ret) (m : M S A) : M S Ret :=
  bind m (fun a => ret (f a)).

(** Virtual dispatch of one call on an object of dynamic type [v]. *)
Definition dispatch {S} (v : IRadio S) (c : Call) : M S Ret :=
  match c with
  | CInitialize => lift RBool (initialize v)
  | CShutdown => lift (fun _ => RVoid) (shutdown v)
  | CStart => lift RBool (start v)
  | CStop => lift (fun _ => RVoid) (stop v)
  | CSetChannel ch => lift RBool (set_channel v ch)
  | CGetChannel => gets (fun s => RChannel (get_channel v s))
  | CSetPtt t => lift (fun _ => RVoid) (set_ptt v t)
  | CIsTransmitting => gets (fun s => RBool (is_transmitting v s))
  | CIsReady => gets (fun s => RBool (is_ready v s))
  | CGetPortConfig => gets (fun s => RString (get_port_config v s))
  | CRegisterSend cb => lift (fun _ => RVoid) (register_send_callback v cb)
  | CRegisterAck cb => lift (fun _ => RVoid) (register_ack_callback v cb)
  | CProcessResponse d => lift (fun _ => RVoid) (process_response v d)
  end.

(** ** kenwood.h / kenwood.cpp *)

Module KenwoodMode.
Definition LSB : Z := 1.
Definition USB : Z := 2.
Definition CW : Z := 3.
Definition FM : Z := 4.
Definition AM : Z := 5.
Definition FSK : Z := 6.
Definition CW_R : Z := 7.
Definition FSK_R : Z := 9.
End KenwoodMode.

Module Kenwood.

Record t : Set := mk {
  serial_ : option ISerial;
  current_channel_ : Channel;
  transmitting_ : bool;
  ready_ : bool;
  send_callback_ : SendCommandCallback;
  ack_callback_ : AckCallback;
  rx_buffer_ : list ascii
}.

Definition with_channel (c : Channel) (s : t) : t :=
  mk (serial_ s) c (transmitting_ s) (ready_ s)
     (send_callback_ s) (ack_callback_ s) (rx_buffer_ s).
Definition with_transmitting (b : bool) (s : t) : t :=
  mk (serial_ s) (current_channel_ s) b (ready_ s)
     (send_callback_ s) (ack_callback_ s) (rx_buffer_ s).
Definition with_ready (b : bool) (s : t) : t :=
  mk (serial_ s) (current_channel_ s) (transmitting_ s) b
     (send_callback_ s) (ack_callback_ s) (rx_buffer_ s).
Definition with_send_callback (cb : SendCommandCallback) (s : t) : t :=
  mk (serial_ s) (current_channel_ s) (transmitting_ s) (ready_ s)
     cb (ack_callback_ s) (rx_buffer_ s).
Definition with_ack_callback (cb : AckCallback) (s : t) : t :=
  mk (serial_ s) (current_channel_ s) (transmitting_ s) (ready_ s)
     (send_callback_ s) cb (rx_buffer_ s).
Definition with_rx_buffer (b : list ascii) (s : t) : t :=
  mk (serial_ s) (current_channel_ s) (transmitting_ s) (ready_ s)
     (send_callback_ s) (ack_callback_ s) b.

(** [Kenwood::Kenwood(ISerial* serial)] with the in-class initialisers. *)
Definition new (serial : option ISerial) : t :=
  mk serial Channel_default false false None None [].

Local Open Scope monad_scope.

Definition initialize : M t bool :=
  modify (with_rx_buffer []) ;;;
  modify (with_ready true) ;;;
  ret true.

Definition shutdown : M t unit := modify (with_ready false).

Definition start : M t bool := gets ready_.

Definition stop : M t unit := ret tt.

Definition send_command (cmd : list ascii) : M t unit :=
  cb <- gets send_callback_ ;;
  match cb with
  | Some f => emit (CallbackSend f (bytes_of cmd))
  | None =>
      ser <- gets serial_ ;;
      match ser with
      | Some p => emit (SerialWrite p (bytes_of cmd))
      | None => ret tt
      end
  end.

(** [buf] receives ["F%c%011u;"]; the returned [std::string(buf)] ends at
    the first NUL, which is the character [vfo] when [vfo] is NUL. *)
Definition build_freq_command (vfo : ascii) (freq_hz : Z) : list ascii :=
  string_of_buf
    (snprintf 16 (str "F" ++ [vfo] ++ fmt_u 11 freq_hz ++ str ";")).

Definition radio_mode_to_kenwood (mode : RadioMode) : Z :=
  match mode with
  | LSB => KenwoodMode.LSB
  | USB => KenwoodMode.USB
  | CW => KenwoodMode.CW
  | FM => KenwoodMode.FM
  | AM => KenwoodMode.AM
  | FSK => KenwoodMode.FSK
  | RTTY => KenwoodMode.FSK
  | CW_R => KenwoodMode.CW_R
  | FSK_R => KenwoodMode.FSK_R
  | DATA_USB => KenwoodMode.USB
  | DATA_LSB => KenwoodMode.LSB
  | _ => KenwoodMode.USB
  end.

Definition kenwood_to_radio_mode (mode : Z) : RadioMode :=
  if mode =? KenwoodMode.LSB then LSB
  else if mode =? KenwoodMode.USB then USB
  else if mode =? KenwoodMode.CW then CW
  else if mode =? KenwoodMode.FM then FM
  else if mode =? KenwoodMode.AM then AM
  else if mode =? KenwoodMode.FSK then FSK
  else if mode =? KenwoodMode.CW_R then CW_R
  else if mode =? KenwoodMode.FSK_R then FSK_R
  else USB.

Definition build_mode_command (mode : RadioMode) : list ascii :=
  string_of_buf
    (snprintf 8 (str "MD" ++ fmt_d 0 (radio_mode_to_kenwood mode) ++ str ";")).

Definition set_channel (channel : Channel) : M t bool :=
  ready <- gets ready_ ;;
  ser <- gets serial_ ;;
  if negb ready || is_null ser then ret false
  else
    send_command (build_freq_command "A" (rx_frequency channel)) ;;;
    send_command (build_mode_command (rx_mode channel)) ;;;
    modify (with_channel channel) ;;;
    ret true.

Definition get_channel (s : t) : Channel := current_channel_ s.

Definition set_ptt (transmit : bool) : M t unit :=
  ready <- gets ready_ ;;
  ser <- gets serial_ ;;
  if negb ready || is_null ser then ret tt
  else
    send_command (if transmit then str "TX;" else str "RX;") ;;;
    modify (with_transmitting transmit).

Definition is_transmitting (s : t) : bool := transmitting_ s.
Definition is_ready (s : t) : bool := ready_ s.

Definition get_port_config (_ : t) : list ascii := str "9600,n,8,1".

Definition register_send_callback (callback : SendCommandCallback) : M t unit :=
  modify (with_send_callback callback).
Definition register_ack_callback (callback : AckCallback) : M t unit :=
  modify (with_ack_callback callback).

(** One turn of the loop of [process_response]. *)
Definition process_byte (b : Z) : M t unit :=
  let c := char_of_byte b in
  modify (fun s => with_rx_buffer (rx_buffer_ s ++ [c]) s) ;;;
  when (Ascii.eqb c ";")
    (ack <- gets ack_callback_ ;;
     match ack with Some f => emit (AckInvoked f) | None => ret tt end ;;;
     modify (with_rx_buffer [])) ;;;
  size <- gets (fun s => Z.of_nat (length (rx_buffer_ s))) ;;
  when (256 <? size) (modify (with_rx_buffer [])).

Definition process_response (data : list Z) : M t unit :=
  for_each process_byte data.

(** The virtual table of a [Kenwood] object. *)
Definition vtable : IRadio t :=
  mkIRadio t initialize shutdown start stop set_channel get_channel
    set_ptt is_transmitting is_ready get_port_config
    register_send_callback register_ack_callback process_response.

End Kenwood.

(** ** elecraft.h / elecraft.cpp *)

Module Elecraft.

(** [class Elecraft : public Kenwood] adds no data member, and its
    constructor only runs the base constructor.  The inherited methods are
    Kenwood's own code: none of them calls a virtual method, and
    [send_command] is not virtual (the private [send_command] that
    elecraft.h declares is never defined; [set_power] and [set_antenna]
    name [Kenwood::send_command]). *)
Definition t : Set := Kenwood.t.
Definition new (serial : option ISerial) : t := Kenwood.new serial.

Definition get_port_config (_ : t) : list ascii := str "38400,n,8,1".

Definition set_power (watts : Z) : M t unit :=
  Kenwood.send_command
    (string_of_buf (snprintf 8 (str "PC" ++ fmt_d 3 watts ++ str ";"))).

Definition set_antenna (ant : Z) : M t unit :=
  Kenwood.send_command
    (string_of_buf (snprintf 8 (str "AN" ++ fmt_d 0 ant ++ str ";"))).

(** The virtual table of an [Elecraft] object: the slots of [Kenwood],
    with the one override of the class. *)
Definition vtable : IRadio t :=
  mkIRadio t Kenwood.initialize Kenwood.shutdown Kenwood.start Kenwood.stop
    Kenwood.set_channel Kenwood.get_channel Kenwood.set_ptt
    Kenwood.is_transmitting Kenwood.is_ready get_port_config
    Kenwood.register_send_callback Kenwood.register_ack_callback
    Kenwood.process_response.

End Elecraft.

(** ** icom_civ.h / icom_civ.cpp *)

Definition CIV_PREAMBLE : Z := 0xFE.
Definition CIV_EOM : Z := 0xFD.
Definition CIV_CONTROLLER : Z := 0xE0.
Definition CIV_ACK : Z := 0xFB.
Definition CIV_NAK : Z := 0xFA.

Module CivCommand.
Definition SET_FREQ : Z := 0x05.
Definition SET_MODE : Z := 0x06.
Definition PTT : Z := 0x1C.
End CivCommand.

Module CivMode.
Definition LSB : Z := 0x00.
Definition USB : Z := 0x01.
Definition AM : Z := 0x02.
Definition CW : Z := 0x03.
Definition RTTY : Z := 0x04.
Definition FM : Z := 0x05.
Definition CW_R : Z := 0x07.
Definition RTTY_R : Z := 0x08.
Definition DV : Z := 0x17.
End CivMode.

Module IcomRadioAddress.
Definition IC_7300 : Z := 0x94.
End IcomRadioAddress.

Module IcomCiv.

Record t : Set := mk {
  serial_ : option ISerial;
  radio_addr_ : Z;
  controller_addr_ : Z;
  current_channel_ : Channel;
  transmitting_ : bool;
  ready_ : bool;
  send_callback_ : SendCommandCallback;
  ack_callback_ : AckCallback;
  rx_buffer_ : list Z
}.

Definition with_channel (c : Channel) (s : t) : t :=
  mk (serial_ s) (radio_addr_ s) (controller_addr_ s) c (transmitting_ s)
     (ready_ s) (send_callback_ s) (ack_callback_ s) (rx_buffer_ s).
Definition with_transmitting (b : bool) (s : t) : t :=
  mk (serial_ s) (radio_addr_ s) (controller_addr_ s) (current_channel_ s) b
     (ready_ s) (send_callback_ s) (ack_callback_ s) (rx_buffer_ s).
Definition with_ready (b : bool) (s : t) : t :=
  mk (serial_ s) (radio_addr_ s) (controller_addr_ s) (current_channel_ s)
     (transmitting_ s) b (send_callback_ s) (ack_callback_ s) (rx_buffer_ s).
Definition with_send_callback (cb : SendCommandCallback) (s : t) : t :=
  mk (serial_ s) (radio_addr_ s) (controller_addr_ s) (current_channel_ s)
     (transmitting_ s) (ready_ s) cb (ack_callback_ s) (rx_buffer_ s).
Definition with_ack_callback (cb : AckCallback) (s : t) : t :=
  mk (serial_ s) (radio_addr_ s) (controller_addr_ s) (current_channel_ s)
     (transmitting_ s) (ready_ s) (send_callback_ s) cb (rx_buffer_ s).
Definition with_rx_buffer (b : list Z) (s : t) : t :=
  mk (serial_ s) (radio_addr_ s) (controller_addr_ s) (current_channel_ s)
     (transmitting_ s) (ready_ s) (send_callback_ s) (ack_callback_ s) b.

(** [IcomCiv::IcomCiv(ISerial* serial, uint8_t radio_addr)]. *)
Definition new (serial : option ISerial) (radio_addr : Z) : t :=
  mk serial (u8 radio_addr) CIV_CONTROLLER Channel_default false false
     None None [].

Local Open Scope monad_scope.

Definition initialize : M t bool :=
  modify (with_rx_buffer []) ;;;
  modify (with_ready true) ;;;
  ret true.

Definition shutdown : M t unit := modify (with_ready false).
Definition start : M t bool := gets ready_.
Definition stop : M t unit := ret tt.

(** [build_frame(cmd, data, len)]: [data] is the [len] bytes behind the
    pointer; a null pointer and [len = 0] both insert nothing. *)
Definition build_frame (s : t) (cmd : Z) (data : list Z) : list Z :=
  [CIV_PREAMBLE; CIV_PREAMBLE; radio_addr_ s; controller_addr_ s; cmd]
    ++ data ++ [CIV_EOM].

Definition build_frame_sub (s : t) (cmd subcmd : Z) (data : list Z) : list Z :=
  [CIV_PREAMBLE; CIV_PREAMBLE; radio_addr_ s; controller_addr_ s; cmd; subcmd]
    ++ data ++ [CIV_EOM].

Definition send_frame (frame : list Z) : M t unit :=
  cb <- gets send_callback_ ;;
  match cb with
  | Some f => emit (CallbackSend f frame)
  | None =>
      ser <- gets serial_ ;;
      match ser with
      | Some p => emit (SerialWrite p frame)
      | None => ret tt
      end
  end.

(** The loop of [freq_to_bcd]: [len] bytes, least significant pair first. *)
Fixpoint freq_to_bcd (freq_hz : Z) (len : nat) : list Z :=
  match len with
  | O => []
  | S k =>
      let lo := u8 (freq_hz mod 10) in
      let freq_hz := freq_hz / 10 in
      let hi := u8 (freq_hz mod 10) in
      let freq_hz := freq_hz / 10 in
      u8 (Z.lor (Z.shiftl hi 4) lo) :: freq_to_bcd freq_hz k
  end.

(** The loop of [bcd_to_freq], on [uint32_t] accumulators. *)
Fixpoint bcd_to_freq_loop (bcd : list Z) (len : nat) (freq mult : Z) : Z :=
  match len, bcd with
  | S k, b :: rest =>
      let lo := Z.land b 0x0F in
      let hi := Z.land (Z.shiftr b 4) 0x0F in
      let freq := u32 (freq + u32 (lo * mult)) in
      let mult := u32 (mult * 10) in
      let freq := u32 (freq + u32 (hi * mult)) in
      let mult := u32 (mult * 10) in
      bcd_to_freq_loop rest k freq mult
  | _, _ => freq
  end.

Definition bcd_to_freq (bcd : list Z) (len : nat) : Z :=
  bcd_to_freq_loop bcd len 0 1.

Definition radio_mode_to_civ (mode : RadioMode) : Z :=
  match mode with
  | LSB => CivMode.LSB
  | USB => CivMode.USB
  | AM => CivMode.AM
  | CW => CivMode.CW
  | RTTY => CivMode.RTTY
  | FM => CivMode.FM
  | CW_R => CivMode.CW_R
  | FSK => CivMode.RTTY
  | FSK_R => CivMode.RTTY_R
  | DATA_LSB => CivMode.LSB
  | DATA_USB => CivMode.USB
  | _ => CivMode.USB
  end.

Definition civ_to_radio_mode (mode : Z) : RadioMode :=
  if mode =? CivMode.LSB then LSB
  else if mode =? CivMode.USB then USB
  else if mode =? CivMode.AM then AM
  else if mode =? CivMode.CW then CW
  else if mode =? CivMode.RTTY then RTTY
  else if mode =? CivMode.FM then FM
  else if mode =? CivMode.CW_R then CW_R
  else if mode =? CivMode.RTTY_R then FSK_R
  else USB.

Definition set_channel (channel : Channel) : M t bool :=
  ready <- gets ready_ ;;
  ser <- gets serial_ ;;
  if negb ready || is_null ser then ret false
  else
    let freq_bcd := freq_to_bcd (rx_frequency channel) 5 in
    frame <- gets (fun s => build_frame s CivCommand.SET_FREQ freq_bcd) ;;
    send_frame frame ;;;
    let mode_data := [u8 (radio_mode_to_civ (rx_mode channel))] in
    frame <- gets (fun s => build_frame s CivCommand.SET_MODE mode_data) ;;
    send_frame frame ;;;
    modify (with_channel channel) ;;;
    ret true.

Definition get_channel (s : t) : Channel := current_channel_ s.

Definition set_ptt (transmit : bool) : M t unit :=
  ready <- gets ready_ ;;
  ser <- gets serial_ ;;
  if negb ready || is_null ser then ret tt
  else
    let ptt_data := [if transmit then 0x01 else 0x00] in
    frame <- gets (fun s => build_frame_sub s CivCommand.PTT 0x00 ptt_data) ;;
    send_frame frame ;;;
    modify (with_transmitting transmit).

Definition is_transmitting (s : t) : bool := transmitting_ s.
Definition is_ready (s : t) : bool := ready_ s.
Definition get_port_config (_ : t) : list ascii := str "9600,n,8,1".

Definition register_send_callback (callback : SendCommandCallback) : M t unit :=
  modify (with_send_callback callback).
Definition register_ack_callback (callback : AckCallback) : M t unit :=
  modify (with_ack_callback callback).

(** The two inline accessors of icom_civ.h; the argument is a [uint8_t]. *)
Definition with_radio_addr (a : Z) (s : t) : t :=
  mk (serial_ s) a (controller_addr_ s) (current_channel_ s)
     (transmitting_ s) (ready_ s) (send_callback_ s) (ack_callback_ s)
     (rx_buffer_ s).
Definition set_radio_address (addr : Z) : M t unit :=
  modify (with_radio_addr (u8 addr)).
Definition get_radio_address (s : t) : Z := radio_addr_ s.

(** [rx_buffer_[k]]; every use below is guarded by [size() >= 6]. *)
Definition at_ (buf : list Z) (k : nat) : Z := nth k buf 0.

(** One turn of the loop of [process_response]. *)
Definition process_byte (b : Z) : M t unit :=
  modify (fun s => with_rx_buffer (rx_buffer_ s ++ [b]) s) ;;;
  when (b =? CIV_EOM)
    (buf <- gets rx_buffer_ ;;
     when ((6 <=? Z.of_nat (length buf))
           && (at_ buf 0 =? CIV_PREAMBLE) && (at_ buf 1 =? CIV_PREAMBLE))
       (when (6 <=? Z.of_nat (length buf))
          (let cmd := at_ buf 4 in
           when (cmd =? CIV_ACK)
             (ack <- gets ack_callback_ ;;
              match ack with
              | Some f => emit (AckInvoked f)
              | None => ret tt
              end))) ;;;
     modify (with_rx_buffer [])) ;;;
  size <- gets (fun s => Z.of_nat (length (rx_buffer_ s))) ;;
  when (256 <? size) (modify (with_rx_buffer [])).

Definition process_response (data : list Z) : M t unit :=
  for_each process_byte data.

Definition vtable : IRadio t :=
  mkIRadio t initialize shutdown start stop set_channel get_channel
    set_ptt is_transmitting is_ready get_port_config
    register_send_callback register_ack_callback process_response.

End IcomCiv.

(** ** yaesu_cat.h / yaesu_cat.cpp *)

Module YaesuCommand.
Definition SET_FREQ : Z := 0x01.
Definition SET_MODE : Z := 0x07.
Definition PTT_ON : Z := 0x08.
Definition PTT_OFF : Z := 0x88.
End YaesuCommand.

(** The enumerators [DIG], [DIG_USB] and [DIG_LSB] share one value. *)
Module YaesuMode.
Definition LSB : Z := 0x00.
Definition USB : Z := 0x01.
Definition CW : Z := 0x02.
Definition CW_R : Z := 0x03.
Definition AM : Z := 0x04.
Definition FM : Z := 0x08.
Definition DIG : Z := 0x0A.
Definition PKT : Z := 0x0C.
Definition FM_N : Z := 0x88.
Definition DIG_USB : Z := 0x0A.
Definition DIG_LSB : Z := 0x0A.
End YaesuMode.

Module YaesuCat.

Record t : Set := mk {
  serial_ : option ISerial;
  current_channel_ : Channel;
  transmitting_ : bool;
  ready_ : bool;
  send_callback_ : SendCommandCallback;
  ack_callback_ : AckCallback
}.

Definition with_channel (c : Channel) (s : t) : t :=
  mk (serial_ s) c (transmitting_ s) (ready_ s)
     (send_callback_ s) (ack_callback_ s).
Definition with_transmitting (b : bool) (s : t) : t :=
  mk (serial_ s) (current_channel_ s) b (ready_ s)
     (send_callback_ s) (ack_callback_ s).
Definition with_ready (b : bool) (s : t) : t :=
  mk (serial_ s) (current_channel_ s) (transmitting_ s) b
     (send_callback_ s) (ack_callback_ s).
Definition with_send_callback (cb : SendCommandCallback) (s : t) : t :=
  mk (serial_ s) (current_channel_ s) (transmitting_ s) (ready_ s)
     cb (ack_callback_ s).
Definition with_ack_callback (cb : AckCallback) (s : t) : t :=
  mk (serial_ s) (current_channel_ s) (transmitting_ s) (ready_ s)
     (send_callback_ s) cb.

Definition new (serial : option ISerial) : t :=
  mk serial Channel_default false false None None.

Local Open Scope monad_scope.

Definition initialize : M t bool := modify (with_ready true) ;;; ret true.
Definition shutdown : M t unit := modify (with_ready false).
Definition start : M t bool := gets ready_.
Definition stop : M t unit := ret tt.

Definition build_command (cmd p1 p2 p3 p4 : Z) : list Z :=
  [p1; p2; p3; p4; cmd].

Definition send_command (cmd : list Z) : M t unit :=
  cb <- gets send_callback_ ;;
  match cb with
  | Some f => emit (CallbackSend f cmd)
  | None =>
      ser <- gets serial_ ;;
      match ser with
      | Some p => emit (SerialWrite p cmd)
      | None => ret tt
      end
  end.

(** One packed byte: [(hi % 10) << 4 | (lo % 10)], stored in a [uint8_t]. *)
Definition pack (hi lo : Z) : Z :=
  u8 (Z.lor (Z.shiftl (hi mod 10) 4) (lo mod 10)).

Definition freq_to_packed_bcd (freq_hz : Z) : list Z :=
  let freq_10hz := freq_hz / 10 in
  [ pack (freq_10hz / 10000000) (freq_10hz / 1000000);
    pack (freq_10hz / 100000) (freq_10hz / 10000);
    pack (freq_10hz / 1000) (freq_10hz / 100);
    pack (freq_10hz / 10) freq_10hz ].

Definition hi_nibble (b : Z) : Z := Z.land (Z.shiftr b 4) 0x0F.
Definition lo_nibble (b : Z) : Z := Z.land b 0x0F.

Definition packed_bcd_to_freq (bcd : list Z) : Z :=
  let b k := nth k bcd 0 in
  let freq := 0 in
  let freq := u32 (freq + hi_nibble (b 0%nat) * 10000000) in
  let freq := u32 (freq + lo_nibble (b 0%nat) * 1000000) in
  let freq := u32 (freq + hi_nibble (b 1%nat) * 100000) in
  let freq := u32 (freq + lo_nibble (b 1%nat) * 10000) in
  let freq := u32 (freq + hi_nibble (b 2%nat) * 1000) in
  let freq := u32 (freq + lo_nibble (b 2%nat) * 100) in
  let freq := u32 (freq + hi_nibble (b 3%nat) * 10) in
  let freq := u32 (freq + lo_nibble (b 3%nat)) in
  u32 (freq * 10).

Definition radio_mode_to_yaesu (mode : RadioMode) : Z :=
  match mode with
  | LSB => YaesuMode.LSB
  | USB => YaesuMode.USB
  | CW => YaesuMode.CW
  | CW_R => YaesuMode.CW_R
  | AM => YaesuMode.AM
  | FM => YaesuMode.FM
  | DIG => YaesuMode.DIG
  | FSK => YaesuMode.DIG
  | DATA_USB => YaesuMode.DIG_USB
  | DATA_LSB => YaesuMode.DIG_LSB
  | _ => YaesuMode.USB
  end.

Definition yaesu_to_radio_mode (mode : Z) : RadioMode :=
  if mode =? YaesuMode.LSB then LSB
  else if mode =? YaesuMode.USB then USB
  else if mode =? YaesuMode.CW then CW
  else if mode =? YaesuMode.CW_R then CW_R
  else if mode =? YaesuMode.AM then AM
  else if mode =? YaesuMode.FM then FM
  else if mode =? YaesuMode.DIG then DIG
  else if mode =? YaesuMode.PKT then FSK
  else USB.

Definition set_channel (channel : Channel) : M t bool :=
  ready <- gets ready_ ;;
  ser <- gets serial_ ;;
  if negb ready || is_null ser then ret false
  else
    let freq_bcd := freq_to_packed_bcd (rx_frequency channel) in
    let cmd := build_command YaesuCommand.SET_FREQ
                 (nth 0 freq_bcd 0) (nth 1 freq_bcd 0)
                 (nth 2 freq_bcd 0) (nth 3 freq_bcd 0) in
    send_command cmd ;;;
    let cmd := build_command YaesuCommand.SET_MODE
                 (u8 (radio_mode_to_yaesu (rx_mode channel))) 0 0 0 in
    send_command cmd ;;;
    modify (with_channel channel) ;;;
    ret true.

Definition get_channel (s : t) : Channel := current_channel_ s.

Definition set_ptt (transmit : bool) : M t unit :=
  ready <- gets ready_ ;;
  ser <- gets serial_ ;;
  if negb ready || is_null ser then ret tt
  else
    let cmd := build_command
                 (if transmit then YaesuCommand.PTT_ON else YaesuCommand.PTT_OFF)
                 0 0 0 0 in
    send_command cmd ;;;
    modify (with_transmitting transmit).

Definition is_transmitting (s : t) : bool := transmitting_ s.
Definition is_ready (s : t) : bool := ready_ s.
Definition get_port_config (_ : t) : list ascii := str "9600,n,8,2".

Definition register_send_callback (callback : SendCommandCallback) : M t unit :=
  modify (with_send_callback callback).
Definition register_ack_callback (callback : AckCallback) : M t unit :=
  modify (with_ack_callback callback).

Definition process_response (data : list Z) : M t unit :=
  when (0 <? Z.of_nat (length data))
    (ack <- gets ack_callback_ ;;
     match ack with
     | Some f => emit (AckInvoked f)
     | None => ret tt
     end).

Definition vtable : IRadio t :=
  mkIRadio t initialize shutdown start stop set_channel get_channel
    set_ptt is_transmitting is_ready get_port_config
    register_send_callback register_ack_callback process_response.

End YaesuCat.

(** ** resampler.h / resampler.cpp *)

(** Undefined behaviour (an access outside a vector, a remainder by zero, an
    [int] product out of range) and a throwing constructor are [None]. *)
Definition ub_bind {A B} (m : option A) (k : A -> option B) : option B :=
  match m with Some a => k a | None => None end.

Declare Scope ub_scope.
Delimit Scope ub_scope with ub.
Notation "x <- m ;; k" := (ub_bind m (fun x => k))
  (at level 61, m at next level, right associativity) : ub_scope.
Notation "' pat <- m ;; k" := (ub_bind m (fun x => match x with pat => k end))
  (at level 61, pat pattern, m at next level, right associativity) : ub_scope.

(** [v[i] = x] on a [std::vector]. *)
Fixpoint vec_store {A} (v : list A) (i : nat) (x : A) : option (list A) :=
  match v, i with
  | [], _ => None
  | _ :: rest, O => Some (x :: rest)
  | y :: rest, S j => option_map (cons y) (vec_store rest j x)
  end.

(** [a % b] on [size_t]. *)
Definition size_t_rem (a b : Z) : option Z :=
  if b =? 0 then None else Some (a mod b).

Module Resampler.

(** [float] is IEEE-754 binary32 and [double] binary64, both rounding to
    nearest even.  A value of either type is a [spec_float]; the precision
    lies in the operations. *)
Definition float : Set := spec_float.
Definition double : Set := spec_float.

Definition fzero : float := S754_zero false.
Definition fadd : float -> float -> float := SFadd 24 128.
Definition fsub : float -> float -> float := SFsub 24 128.
Definition fmul : float -> float -> float := SFmul 24 128.
Definition fdiv : float -> float -> float := SFdiv 24 128.
Definition dsub : double -> double -> double := SFsub 53 1024.
Definition dmul : double -> double -> double := SFmul 53 1024.
Definition ddiv : double -> double -> double := SFdiv 53 1024.

(** The conversions [int -> float] and [int -> double]. *)
Definition float_of_int (z : Z) : float := binary_normalize 24 128 z 0 false.
Definition double_of_int (z : Z) : double := binary_normalize 53 1024 z 0 false.

(** [float -> double] is exact, [double -> float] rounds. *)
Definition double_of_float (x : float) : double :=
  match x with
  | S754_finite s m e => binary_round 53 1024 s m e
  | _ => x
  end.
Definition float_of_double (x : double) : float :=
  match x with
  | S754_finite s m e => binary_round 24 128 s m e
  | _ => x
  end.

(** The literals of [design_filter], and [M_PI]. *)
Definition f_0_45 : float := S754_finite false 15099494 (-25).
Definition f_2_0 : float := S754_finite false 8388608 (-22).
Definition f_1e_6 : float := S754_finite false 8796093 (-43).
Definition f_0_54 : float := S754_finite false 9059697 (-24).
Definition f_0_46 : float := S754_finite false 15435039 (-25).
Definition M_PI : double := S754_finite false 7074237752028440 (-51).

Definition is_zero (x : float) : bool :=
  match x with S754_zero _ => true | _ => false end.
(** Neither an infinity nor a NaN. *)
Definition is_finite (x : float) : bool :=
  match x with S754_zero _ | S754_finite _ _ _ => true | _ => false end.

Record t : Set := mk {
  ratio_ : Z;
  taps_per_phase_ : Z;
  total_taps_ : Z;
  coeffs_ : list float;
  history_ : list float;
  history_pos_ : Z
}.

Definition with_history (h : list float) (pos : Z) (r : t) : t :=
  mk (ratio_ r) (taps_per_phase_ r) (total_taps_ r) (coeffs_ r) h pos.

Local Open Scope ub_scope.

Fixpoint apply_filter_loop (r : t) (n : nat) (i : Z) (sum : float)
  : option float :=
  match n with
  | O => Some sum
  | S k =>
      idx <- size_t_rem (size_t_of (history_pos_ r + size_t_of i))
                        (size_t_of (total_taps_ r)) ;;
      h <- nth_error (history_ r) (Z.to_nat idx) ;;
      c <- nth_error (coeffs_ r) (Z.to_nat i) ;;
      apply_filter_loop r k (i + 1) (fadd sum (fmul h c))
  end.

(** [for (int i = 0; i < total_taps_; i++)] runs [max 0 total_taps_] times. *)
Definition apply_filter (r : t) : option float :=
  apply_filter_loop r (Z.to_nat (total_taps_ r)) 0 fzero.

(** [history_[history_pos_] = sample; history_pos_ = (history_pos_ + 1) % total_taps_]. *)
Definition push (sample : float) (r : t) : option t :=
  h <- vec_store (history_ r) (Z.to_nat (history_pos_ r)) sample ;;
  pos <- size_t_rem (size_t_of (history_pos_ r + 1))
                    (size_t_of (total_taps_ r)) ;;
  Some (with_history h pos r).

(** The loop of [decimate] from index [i] on; [output] holds the
    [output_count] samples written so far. *)
Fixpoint decimate_loop (input : list float) (i : Z) (r : t)
         (output : list float) : option (t * list float) :=
  match input with
  | [] => Some (r, output)
  | x :: rest =>
      r1 <- push x r ;;
      phase <- size_t_rem (size_t_of (i + 1)) (size_t_of (ratio_ r1)) ;;
      if phase =? 0 then
        y <- apply_filter r1 ;;
        decimate_loop rest (i + 1) r1 (output ++ [y])
      else decimate_loop rest (i + 1) r1 output
  end.

(** [decimate(input, input_count, output)]: the new state and the samples
    written to [output]; the returned [output_count] is their number. *)
Definition decimate (input : list float) (r : t) : option (t * list float) :=
  decimate_loop input 0 r [].

Definition output_count (res : t * list float) : Z :=
  Z.of_nat (length (snd res)).

(** [for (int phase = 0; phase < ratio_; phase++)] with [n] turns left. *)
Fixpoint interpolate_phases (x : float) (n : nat) (phase : Z) (r : t)
         (output : list float) : option (t * list float) :=
  match n with
  | O => Some (r, output)
  | S k =>
      let sample :=
        if phase =? 0 then fmul x (float_of_int (ratio_ r)) else fzero in
      r1 <- push sample r ;;
      y <- apply_filter r1 ;;
      interpolate_phases x k (phase + 1) r1 (output ++ [y])
  end.

Fixpoint interpolate_loop (input : list float) (r : t)
         (output : list float) : option (t * list float) :=
  match input with
  | [] => Some (r, output)
  | x :: rest =>
      '(r1, out1) <- interpolate_phases x (Z.to_nat (ratio_ r)) 0 r output ;;
      interpolate_loop rest r1 out1
  end.

Definition interpolate (input : list float) (r : t) : option (t * list float) :=
  interpolate_loop input r [].

(** [std::fill(history_.begin(), history_.end(), 0.0f); history_pos_ = 0]. *)
Definition reset (r : t) : t :=
  with_history (map (fun _ => fzero) (history_ r)) 0 r.

(** [int get_ratio() const { return ratio_; }] of resampler.h. *)
Definition get_ratio (r : t) : Z := ratio_ r.

Section Libm.

(** [std::sin] and [std::cos] on [double], as the C library has them. *)
Variable sin cos : double -> double.

(** One turn of the first loop of [design_filter]: the value stored in
    [coeffs_[i]]. *)
Definition tap (fc : float) (M i : Z) : float :=
  let n := fsub (float_of_int i) (fdiv (float_of_int M) f_2_0) in
  let sinc :=
    if SFltb (SFabs n) f_1e_6 then fmul f_2_0 fc
    else
      float_of_double
        (ddiv (sin (dmul (dmul (dmul (double_of_float f_2_0) M_PI)
                               (double_of_float fc))
                         (double_of_float n)))
              (dmul M_PI (double_of_float n))) in
  let window :=
    float_of_double
      (dsub (double_of_float f_0_54)
            (dmul (double_of_float f_0_46)
                  (cos (ddiv (dmul (dmul (double_of_float f_2_0) M_PI)
                                   (double_of_int i))
                             (double_of_int M))))) in
  fmul sinc window.

(** [for (int i = 0; i < total_taps_; i++)] with [steps] turns left. *)
Fixpoint design_loop (fc : float) (M : Z) (steps : nat) (i : Z)
         (coeffs : list float) (sum : float) : option (list float * float) :=
  match steps with
  | O => Some (coeffs, sum)
  | S k =>
      let c := tap fc M i in
      coeffs1 <- vec_store coeffs (Z.to_nat i) c ;;
      design_loop fc M k (i + 1) coeffs1 (fadd sum c)
  end.

(** [design_filter()] on the coefficient vector the constructor made. *)
Definition design_filter (ratio total_taps : Z) (coeffs : list float)
  : option (list float) :=
  let fc := fdiv f_0_45 (float_of_int ratio) in
  let M := total_taps - 1 in
  '(coeffs1, sum) <- design_loop fc M (Z.to_nat total_taps) 0 coeffs fzero ;;
  Some (map (fun c => fdiv c sum) coeffs1).

(** [Resampler::Resampler(int ratio, int taps_per_phase)].  The product
    is an [int]; a negative size makes the vector constructor throw. *)
Definition new (ratio taps_per_phase : Z) : option t :=
  let total_taps := ratio * taps_per_phase in
  if (total_taps <? - INT_MAX - 1) || (INT_MAX <? total_taps) then None
  else if total_taps <? 0 then None
  else
    coeffs <- design_filter ratio total_taps
                (repeat fzero (Z.to_nat total_taps)) ;;
    Some (mk ratio taps_per_phase total_taps coeffs
             (repeat fzero (Z.to_nat total_taps)) 0).

End Libm.

(** The states an object goes through after its construction;
    [input_count] is a [size_t]. *)
Inductive reachable (r0 : t) : t -> Prop :=
| reach_new : reachable r0 r0
| reach_decimate r input r' out :
    reachable r0 r -> Z.of_nat (length input) < 2 ^ 64 ->
    decimate input r = Some (r', out) -> reachable r0 r'
| reach_interpolate r input r' out :
    reachable r0 r ->
    interpolate input r = Some (r', out) -> reachable r0 r'
| reach_reset r : reachable r0 r -> reachable r0 (reset r).

(** What the methods rely on: the three vectors have [total_taps_]
    entries, and the position is inside them. *)
Record wf (r : t) : Prop := mk_wf {
  wf_ratio : 1 <= ratio_ r <= INT_MAX;
  wf_total : 1 <= total_taps_ r <= INT_MAX;
  wf_coeffs : length (coeffs_ r) = Z.to_nat (total_taps_ r);
  wf_history : length (history_ r) = Z.to_nat (total_taps_ r);
  wf_pos : 0 <= history_pos_ r < total_taps_ r
}.

End Resampler.

(** ** Vocabulary of the statements *)

(** Where [send_command] and [send_frame] put [data] on an object whose
    serial pointer is [port]: the callback when one is registered, the
    serial port otherwise. *)
Definition route (cb : SendCommandCallback) (port : ISerial) (data : list Z)
  : Event :=
  match cb with
  | Some f => CallbackSend f data
  | None => SerialWrite port data
  end.

(** The channel a caller knows to be accepted after one more call. *)
Definition accepted (c : Call) (r : Ret) (last : Channel) : Channel :=
  match c, r with
  | CSetChannel ch, RBool true => ch
  | _, _ => last
  end.

(** A session: the calls are made in order on one object; next to the
    object state runs the last channel a [set_channel] call accepted. *)
Fixpoint run {S} (v : IRadio S) (calls : list Call) (s : S) (last : Channel)
  : S * Channel :=
  match calls with
  | [] => (s, last)
  | c :: rest =>
      let '(r, s', _) := dispatch v c s in
      run v rest s' (accepted c r last)
  end.

(** [get_channel] answers with the last accepted channel: right after a
    [set_channel], and at the end of every session on a fresh object. *)
Definition tracks_last_accepted {S} (v : IRadio S) (fresh : S) : Prop :=
  get_channel v fresh = Channel_default
  /\ (forall c s, result (set_channel v c s) = true ->
                  get_channel v (state_of (set_channel v c s)) = c)
  /\ (forall c s, result (set_channel v c s) = false ->
                  get_channel v (state_of (set_channel v c s))
                  = get_channel v s)
  /\ (forall calls,
        get_channel v (fst (run v calls fresh Channel_default))
        = snd (run v calls fresh Channel_default)).

(** What a method keeps of the object: everything but the history. *)
Definition same_filter (r r' : Resampler.t) : Prop :=
  Resampler.ratio_ r' = Resampler.ratio_ r
  /\ Resampler.taps_per_phase_ r' = Resampler.taps_per_phase_ r
  /\ Resampler.total_taps_ r' = Resampler.total_taps_ r
  /\ Resampler.coeffs_ r' = Resampler.coeffs_ r.

(** A shift record of the rounding functions whose mantissa is not
    negative and has at most [D] bits. *)
Definition small_record (D : Z) (r : shr_record) : Prop :=
  0 <= shr_m r /\ Zdigits2 (shr_m r) <= D.

(** A stand-in for [std::sin] and [std::cos] where a statement is run on
    an example: the identity, which like them sends a NaN to a NaN. *)
Definition libm_id (x : Resampler.double) : Resampler.double := x.

(** The object [Resampler(ratio, taps)] with that stand-in. *)
Definition example_resampler (ratio taps : Z) : Resampler.t :=
  match Resampler.new libm_id libm_id ratio taps with
  | Some r => r
  | None => Resampler.mk 0 0 0 [] [] 0
  end.

(** A resampler of ratio 2 with one tap per phase, and five samples. *)
Definition small_resampler : Resampler.t := example_resampler 2 1.
Definition five_samples : list Resampler.float :=
  repeat (Resampler.float_of_int 1) 5.

(** The same resampler once it has decimated the five samples, and what
    it wrote. *)
Definition used_resampler : Resampler.t :=
  match Resampler.decimate five_samples small_resampler with
  | Some (r, _) => r
  | None => small_resampler
  end.
Definition used_output : list Resampler.float :=
  match Resampler.decimate five_samples small_resampler with
  | Some (_, out) => out
  | None => []
  end.

(** The one-tap resampler [Resampler(1, 1)]. *)
Definition one_tap_resampler : Resampler.t := example_resampler 1 1.

(** The resampler in the words of its description: [decimate] pushes every
    input sample; [interpolate] pushes, for each input sample, that sample
    times the ratio and then [ratio - 1] zeros, and filters after each
    push. *)
Fixpoint push_all (samples : list Resampler.float) (r : Resampler.t)
  : option Resampler.t :=
  match samples with
  | [] => Some r
  | x :: rest => ub_bind (Resampler.push x r) (push_all rest)
  end.

Definition zero_stuffed (ratio : Z) (x : Resampler.float)
  : list Resampler.float :=
  Resampler.fmul x (Resampler.float_of_int ratio)
  :: repeat Resampler.fzero (Z.to_nat ratio - 1).

Fixpoint push_and_filter (samples : list Resampler.float) (r : Resampler.t)
         (out : list Resampler.float)
  : option (Resampler.t * list Resampler.float) :=
  match samples with
  | [] => Some (r, out)
  | x :: rest =>
      ub_bind (Resampler.push x r) (fun r1 =>
      ub_bind (Resampler.apply_filter r1) (fun y =>
      push_and_filter rest r1 (out ++ [y])))
  end.

(** Every sample of the history is a zero. *)
Definition silent (r : Resampler.t) : Prop :=
  Forall (fun x => Resampler.is_zero x = true) (Resampler.history_ r).

(** No coefficient is an infinity or a NaN. *)
Definition finite_coeffs (r : Resampler.t) : Prop :=
  Forall (fun c => Resampler.is_finite c = true) (Resampler.coeffs_ r).

(** A number below 1000 written with exactly three digits. *)
Definition three_digits (w : Z) : list ascii :=
  [digit_char (w / 100); digit_char ((w / 10) mod 10); digit_char (w mod 10)].

(** The channel of the end-to-end scenario: 14.250 MHz, upper side band. *)
Definition channel_14250000_usb : Channel :=
  {| id := 0; tx_frequency := 0; rx_frequency := 14250000;
     tx_mode := USB; rx_mode := USB;
     antenna := 1; power := 100; attenuation := 0; in_use := false |}.

(** The state of an object after the calls of a session. *)
Definition after {S} (v : IRadio S) (calls : list Call) (fresh : S) : S :=
  fst (run v calls fresh Channel_default).

(** A negative acknowledgement from an IC-7300. *)
Definition civ_nak_frame : list Z :=
  [CIV_PREAMBLE; CIV_PREAMBLE; CIV_CONTROLLER; IcomRadioAddress.IC_7300;
   CIV_NAK; CIV_EOM].

(** The digits between the two-letter prefix and the semicolon of a
    Kenwood frequency command. *)
Definition kenwood_freq_field (cmd : list ascii) : list ascii :=
  firstn 11 (skipn 2 cmd).

(** Mode tables, there and back. *)
Definition kenwood_roundtrip (m : RadioMode) : RadioMode :=
  Kenwood.kenwood_to_radio_mode (Kenwood.radio_mode_to_kenwood m).
Definition civ_roundtrip (m : RadioMode) : RadioMode :=
  IcomCiv.civ_to_radio_mode (IcomCiv.radio_mode_to_civ m).
Definition yaesu_roundtrip (m : RadioMode) : RadioMode :=
  YaesuCat.yaesu_to_radio_mode (YaesuCat.radio_mode_to_yaesu m).

(** The lossy collapses of each table, as pairs (mode, mode read back). *)
Definition kenwood_collapses : list (RadioMode * RadioMode) :=
  [ (RTTY, FSK); (DATA_USB, USB); (DATA_LSB, LSB);
    (FMW, USB); (TUNE, USB); (DIG, USB); (UNKNOWN, USB) ].
Definition civ_collapses : list (RadioMode * RadioMode) :=
  [ (FSK, RTTY); (DATA_LSB, LSB); (DATA_USB, USB);
    (FMW, USB); (TUNE, USB); (DIG, USB); (UNKNOWN, USB) ].
Definition yaesu_collapses : list (RadioMode * RadioMode) :=
  [ (FSK, DIG); (DATA_USB, DIG); (DATA_LSB, DIG);
    (RTTY, USB); (FMW, USB); (TUNE, USB); (FSK_R, USB); (UNKNOWN, USB) ].

Definition collapse_in (m m' : RadioMode) (tbl : list (RadioMode * RadioMode))
  : bool :=
  existsb (fun p => RadioMode_eqb (fst p) m && RadioMode_eqb (snd p) m') tbl.

Definition all_modes : list RadioMode :=
  [ LSB; USB; CW; FM; FMW; AM; FSK; RTTY; CW_R; TUNE; FSK_R;
    DIG; DATA_LSB; DATA_USB; UNKNOWN ].

(** What invoking the acknowledge callback, if any, logs. *)
Definition ack_events (ack : AckCallback) : list Event :=
  match ack with Some f => [AckInvoked f] | None => [] end.

(** The Kenwood parse buffer after one more character. *)
Definition kenwood_buffer_after (c : ascii) (buf : list ascii) : list ascii :=
  if Ascii.eqb c ";" then []
  else if 256 <? Z.of_nat (length (buf ++ [c])) then [] else buf ++ [c].

(** The CI-V parse buffer after one more byte. *)
Definition civ_buffer_after (b : Z) (buf : list Z) : list Z :=
  if b =? CIV_EOM then []
  else if 256 <? Z.of_nat (length (buf ++ [b])) then [] else buf ++ [b].

(** The test [process_response] makes on a buffer that ends in the end
    marker before it calls the acknowledge callback. *)
Definition civ_is_ack_frame (frame : list Z) : bool :=
  (6 <=? Z.of_nat (length frame))
  && (IcomCiv.at_ frame 0 =? CIV_PREAMBLE)
  && (IcomCiv.at_ frame 1 =? CIV_PREAMBLE)
  && (IcomCiv.at_ frame 4 =? CIV_ACK).

(** The parsers as functions of the bytes fed: the buffer left behind and
    the acknowledgements raised on the way. *)
Definition kenwood_feed (data : list Z) (buf : list ascii) : list ascii :=
  fold_left (fun buf b => kenwood_buffer_after (char_of_byte b) buf) data buf.

Definition kenwood_acks (ack : AckCallback) (data : list Z) : list Event :=
  flat_map (fun b => if Ascii.eqb (char_of_byte b) ";"
                     then ack_events ack else []) data.

Definition civ_feed (data : list Z) (buf : list Z) : list Z :=
  fold_left (fun buf b => civ_buffer_after b buf) data buf.

Fixpoint civ_acks (ack : AckCallback) (data : list Z) (buf : list Z)
  : list Event :=
  match data with
  | [] => []
  | b :: rest =>
      (if (b =? CIV_EOM) && civ_is_ack_frame (buf ++ [b])
       then ack_events ack else [])
      ++ civ_acks ack rest (civ_buffer_after b buf)
  end.

(** No byte of [data] is the Kenwood terminator, resp. the CI-V end marker. *)
Definition no_semicolon (data : list Z) : Prop :=
  Forall (fun b => Ascii.eqb (char_of_byte b) ";" = false) data.
Definition no_eom (data : list Z) : Prop :=
  Forall (fun b => (b =? CIV_EOM) = false) data.

Ltac run_monad :=
  cbv [bind ret gets modify emit when lift dispatch result state_of events].

(** Reads of the fields of a known object. *)
Ltac read_fields :=
  cbn [Kenwood.serial_ Kenwood.current_channel_ Kenwood.transmitting_
       Kenwood.ready_ Kenwood.send_callback_ Kenwood.ack_callback_
       Kenwood.rx_buffer_
       IcomCiv.serial_ IcomCiv.radio_addr_ IcomCiv.controller_addr_
       IcomCiv.current_channel_ IcomCiv.transmitting_ IcomCiv.ready_
       IcomCiv.send_callback_ IcomCiv.ack_callback_ IcomCiv.rx_buffer_
       YaesuCat.serial_ YaesuCat.current_channel_ YaesuCat.transmitting_
       YaesuCat.ready_ YaesuCat.send_callback_ YaesuCat.ack_callback_
       fst snd app andb] in *.

(** The integers [0 .. n-1], for checks by enumeration. *)
Definition zrange (n : nat) : list Z := map Z.of_nat (seq 0 n).

(** ** Vocabulary of the further properties *)

(** Everything a session logs, call after call. *)
Fixpoint session_events {S} (v : IRadio S) (calls : list Call) (s : S)
  : list Event :=
  match calls with
  | [] => []
  | c :: rest =>
      events (dispatch v c s)
      ++ session_events v rest (state_of (dispatch v c s))
  end.

(** The test [ready_ && serial_] that opens [set_channel] and [set_ptt]. *)
Definition gate_open {A} (ready : bool) (serial : option A) : bool :=
  ready && negb (is_null serial).

(** The PTT commands as they go on the wire. *)
Definition kenwood_ptt (transmit : bool) : list Z :=
  bytes_of (if transmit then str "TX;" else str "RX;").
Definition civ_ptt (radio_addr controller_addr : Z) (transmit : bool)
  : list Z :=
  [0xFE; 0xFE; radio_addr; controller_addr; 0x1C; 0x00;
   if transmit then 0x01 else 0x00; 0xFD].
Definition yaesu_ptt (transmit : bool) : list Z :=
  [0; 0; 0; 0; if transmit then 0x08 else 0x88].

Definition bytes_eqb (a b : list Z) : bool :=
  if list_eq_dec Z.eq_dec a b then true else false.

(** What a listener on the wire knows of the PTT: it starts from [k] and
    follows the last PTT command among the byte strings sent. *)
Definition keyed (on off : list Z) (es : list Event) (k : bool) : bool :=
  fold_left (fun k d => if bytes_eqb d on then true
                        else if bytes_eqb d off then false else k)
            (emitted es) k.

(** Whether the last of the [initialize] and [shutdown] calls of a session
    is an [initialize]. *)
Definition lifecycle_step (b : bool) (c : Call) : bool :=
  match c with
  | CInitialize => true
  | CShutdown => false
  | _ => b
  end.
Definition last_lifecycle (calls : list Call) : bool :=
  fold_left lifecycle_step calls false.

(** A codec is ready exactly between an [initialize] and the next
    [shutdown]: at the end of every session on the fresh object, [is_ready]
    and [start] answer with [last_lifecycle], [set_channel] is accepted
    when moreover the object is [wired] (built on a serial collaborator),
    and no call sends anything while the object is not ready. *)
Definition follows_lifecycle {S} (v : IRadio S) (fresh : S) (wired : bool)
  : Prop :=
  forall calls,
    let s := after v calls fresh in
    is_ready v s = last_lifecycle calls
    /\ result (start v s) = last_lifecycle calls
    /\ state_of (start v s) = s
    /\ (forall ch,
          result (set_channel v ch s) = last_lifecycle calls && wired)
    /\ (last_lifecycle calls = false ->
        forall call, emitted (events (dispatch v call s)) = []).

(** A channel that differs from [channel_14250000_usb] in every field
    but the receive frequency and the receive mode. *)
Definition channel_14250000_split : Channel :=
  {| id := 7; tx_frequency := 7100000; rx_frequency := 14250000;
     tx_mode := LSB; rx_mode := USB;
     antenna := 2; power := 5; attenuation := 20; in_use := true |}.

(** The number of semicolons among the bytes of [data]. *)
Definition semicolons (data : list Z) : nat :=
  length (filter (fun b => u8 b =? 59) data).

(** A stream of bytes handed to [process_response] in pieces, one call
    per piece. *)
Fixpoint feed_chunks {S} (v : IRadio S) (chunks : list (list Z)) (s : S)
  : S * list Event :=
  match chunks with
  | [] => (s, [])
  | d :: rest =>
      let r := process_response v d s in
      let '(s', es) := feed_chunks v rest (state_of r) in
      (s', events r ++ es)
  end.

(** The pieces that hold at least one byte. *)
Definition nonempty_chunks (chunks : list (list Z)) : nat :=
  length (filter (fun d => negb (Nat.eqb (length d) 0)) chunks).

(** A byte whose two nibbles are decimal digits. *)
Definition is_bcd (b : Z) : Prop :=
  0 <= b / 16 <= 9 /\ 0 <= b mod 16 <= 9.

(** The acknowledgement frame of a radio at address [radio] to the
    controller [controller], with whatever [payload] after the ACK code. *)
Definition civ_ack_frame (controller radio : Z) (payload : list Z) : list Z :=
  [CIV_PREAMBLE; CIV_PREAMBLE; controller; radio; CIV_ACK]
    ++ payload ++ [CIV_EOM].

(** The number a run of BCD bytes stands for, least significant byte
    first, each byte read as the code reads it: low nibble, then high
    nibble times ten. *)
Fixpoint bcd_value (bcd : list Z) : Z :=
  match bcd with
  | [] => 0
  | b :: rest =>
      Z.land b 0x0F + 10 * Z.land (Z.shiftr b 4) 0x0F + 100 * bcd_value rest
  end.

(** The enumerators of the three native mode types. *)
Definition kenwood_codes : list Z :=
  [ KenwoodMode.LSB; KenwoodMode.USB; KenwoodMode.CW; KenwoodMode.FM;
    KenwoodMode.AM; KenwoodMode.FSK; KenwoodMode.CW_R; KenwoodMode.FSK_R ].
Definition civ_codes : list Z :=
  [ CivMode.LSB; CivMode.USB; CivMode.AM; CivMode.CW; CivMode.RTTY;
    CivMode.FM; CivMode.CW_R; CivMode.RTTY_R; CivMode.DV ].
Definition yaesu_codes : list Z :=
  [ YaesuMode.LSB; YaesuMode.USB; YaesuMode.CW; YaesuMode.CW_R;
    YaesuMode.AM; YaesuMode.FM; YaesuMode.DIG; YaesuMode.PKT;
    YaesuMode.FM_N; YaesuMode.DIG_USB; YaesuMode.DIG_LSB ].

(** Native code to [RadioMode] and back. *)
Definition kenwood_back (k : Z) : Z :=
  Kenwood.radio_mode_to_kenwood (Kenwood.kenwood_to_radio_mode k).
Definition civ_back (k : Z) : Z :=
  IcomCiv.radio_mode_to_civ (IcomCiv.civ_to_radio_mode k).
Definition yaesu_back (k : Z) : Z :=
  YaesuCat.radio_mode_to_yaesu (YaesuCat.yaesu_to_radio_mode k).

Definition code_in (k : Z) (codes : list Z) : bool := existsb (Z.eqb k) codes.

(** The strings [set_power] and [set_antenna] hand to [send_command]. *)
Definition power_command (watts : Z) : list ascii :=
  string_of_buf (snprintf 8 (str "PC" ++ fmt_d 3 watts ++ str ";")).
Definition antenna_command (ant : Z) : list ascii :=
  string_of_buf (snprintf 8 (str "AN" ++ fmt_d 0 ant ++ str ";")).

(** Where [send_command] puts a string, whatever the state of the codec. *)
Definition sent (s : Kenwood.t) (cmd : list ascii) : list Event :=
  match Kenwood.send_callback_ s, Kenwood.serial_ s with
  | Some f, _ => [CallbackSend f (bytes_of cmd)]
  | None, Some p => [SerialWrite p (bytes_of cmd)]
  | None, None => []
  end.

(** A session whose channels carry a 32-bit receive frequency. *)
Definition call_in_range (c : Call) : Prop :=
  match c with
  | CSetChannel ch => 0 <= rx_frequency ch < 2 ^ 32
  | _ => True
  end.

(** What the radio's parser needs of a Kenwood command: one semicolon,
    at the end, no NUL, and no more than 14 bytes. *)
Definition kenwood_command_ok (d : list Z) : Prop :=
  semicolons d = 1%nat /\ last d 0 = 59 /\ ~ In 0 d
  /\ (length d <= 14)%nat.

(** A CI-V frame from the controller to the radio at [radio_addr]. *)
Definition civ_frame_ok (radio_addr : Z) (d : list Z) : Prop :=
  firstn 4 d = [CIV_PREAMBLE; CIV_PREAMBLE; radio_addr; CIV_CONTROLLER]
  /\ last d 0 = CIV_EOM
  /\ In (length d) [7%nat; 8%nat; 11%nat].

(** A Yaesu command: five bytes, the opcode last. *)
Definition yaesu_command_ok (d : list Z) : Prop :=
  length d = 5%nat
  /\ In (nth 4 d 0)
       [YaesuCommand.SET_FREQ; YaesuCommand.SET_MODE;
        YaesuCommand.PTT_ON; YaesuCommand.PTT_OFF].

(** Closes [kenwood_command_ok] on a command that is known. *)
Ltac closed_command_ok :=
  unfold kenwood_command_ok; repeat split;
  [ cbn; intros H; repeat (destruct H as [H | H]; [ discriminate H | ]);
    exact H
  | cbn; lia ].

(** The history as a window on the samples pushed, oldest first: the
    circular buffer read from [history_pos_] on. *)
Definition window (r : Resampler.t) : list Resampler.float :=
  skipn (Z.to_nat (Resampler.history_pos_ r)) (Resampler.history_ r)
  ++ firstn (Z.to_nat (Resampler.history_pos_ r)) (Resampler.history_ r).

(** The window one sample later. *)
Definition slide (w : list Resampler.float) (x : Resampler.float)
  : list Resampler.float :=
  tl w ++ [x].

(** The sum [((0 + w0 * c0) + w1 * c1) + ...] over a window. *)
Definition fir (coeffs w : list Resampler.float) : Resampler.float :=
  fold_left (fun acc hc => Resampler.fadd acc (Resampler.fmul (fst hc) (snd hc)))
            (combine w coeffs) Resampler.fzero.

(** A FIR filter run over a stream: one output after each sample. *)
Fixpoint filtered (coeffs w samples : list Resampler.float)
  : list Resampler.float :=
  match samples with
  | [] => []
  | x :: rest => fir coeffs (slide w x) :: filtered coeffs (slide w x) rest
  end.

(** Of a stream whose first element has index [i + 1], the elements whose
    index is a multiple of [ratio]. *)
Fixpoint keep_every (ratio i : Z) (l : list Resampler.float)
  : list Resampler.float :=
  match l with
  | [] => []
  | y :: rest =>
      if (i + 1) mod ratio =? 0 then y :: keep_every ratio (i + 1) rest
      else keep_every ratio (i + 1) rest
  end.

(** ** Worked values *)

Example kenwood_freq_14250000 :
  Kenwood.build_freq_command "A" 14250000 = str "FA00014250000;".
Proof. reflexivity. Qed.

Example kenwood_mode_usb : Kenwood.build_mode_command USB = str "MD2;".
Proof. reflexivity. Qed.

Example icom_bcd_14250000 :
  IcomCiv.freq_to_bcd 14250000 5 = [0x00; 0x00; 0x25; 0x14; 0x00].
Proof. reflexivity. Qed.

Example yaesu_bcd_14250000 :
  YaesuCat.freq_to_packed_bcd 14250000 = [0x01; 0x42; 0x50; 0x00].
Proof. reflexivity. Qed.

(** Past the eight digits of the packed format the leading digit is lost. *)
Example yaesu_wraps_at_1e9 :
  YaesuCat.packed_bcd_to_freq (YaesuCat.freq_to_packed_bcd 1000000000) = 0.
Proof. reflexivity. Qed.

Example float_of_int_6 :
  Resampler.float_of_int 6 = S754_finite false 12582912 (-21).
Proof. reflexivity. Qed.

(** ** Arithmetic of the encodings *)

Lemma zrange_In (z : Z) (n : nat) : 0 <= z < Z.of_nat n -> In z (zrange n).
Proof.
  intros Hz. unfold zrange. apply in_map_iff.
  exists (Z.to_nat z). split; [lia | apply in_seq; lia].
Qed.

(** A check that passes on [0 .. n-1] holds on that whole range. *)
Lemma by_enumeration (n : nat) (check : Z -> bool) :
  forallb check (zrange n) = true ->
  forall z, 0 <= z < Z.of_nat n -> check z = true.
Proof.
  intros Hall z Hz. rewrite forallb_forall in Hall.
  apply Hall, zrange_In, Hz.
Qed.

Lemma u8_small z : 0 <= z < 256 -> u8 z = z.
Proof. intros. unfold u8. apply Z.mod_small. lia. Qed.

Lemma u32_small z : 0 <= z < 2 ^ 32 -> u32 z = z.
Proof. intros. unfold u32. apply Z.mod_small. lia. Qed.

Lemma u32_idem z : u32 (u32 z) = u32 z.
Proof. unfold u32. apply Z.mod_mod. lia. Qed.

(** Two nibbles packed into a byte come apart again. *)
Lemma nibbles_unpack hi lo :
  0 <= hi < 16 -> 0 <= lo < 16 ->
  let b := u8 (Z.lor (Z.shiftl hi 4) lo) in
  Z.land b 0x0F = lo /\ Z.land (Z.shiftr b 4) 0x0F = hi.
Proof.
  intros Hhi Hlo.
  pose (check := fun h => forallb (fun l =>
     let b := u8 (Z.lor (Z.shiftl h 4) l) in
     (Z.land b 0x0F =? l) && (Z.land (Z.shiftr b 4) 0x0F =? h)) (zrange 16)).
  assert (Hall : forallb check (zrange 16) = true) by (vm_compute; reflexivity).
  pose proof (by_enumeration 16 check Hall hi Hhi) as Hh.
  unfold check in Hh.
  pose proof (by_enumeration 16 _ Hh lo Hlo) as Hl.
  cbv zeta in Hl. apply andb_true_iff in Hl. destruct Hl as [H1 H2].
  apply Z.eqb_eq in H1, H2. cbv zeta. split; assumption.
Qed.

Lemma digit_range z : 0 <= z mod 10 < 16.
Proof. pose proof (Z.mod_pos_bound z 10). lia. Qed.

(** *** Icom: five BCD bytes, least significant pair first *)

Lemma two_digits f : 0 <= f -> f mod 100 = f mod 10 + 10 * ((f / 10) mod 10).
Proof.
  intros. change 100 with (10 * 10). rewrite Z.rem_mul_r by lia. reflexivity.
Qed.

Lemma bcd_loop_spec (len : nat) :
  forall f freq mult,
    0 <= f -> u32 freq = freq ->
    IcomCiv.bcd_to_freq_loop (IcomCiv.freq_to_bcd f len) len freq mult
    = u32 (freq + mult * (f mod 100 ^ Z.of_nat len)).
Proof.
  induction len as [|k IH]; intros f freq mult Hf Hfreq.
  - simpl. rewrite Z.mod_1_r, Z.mul_0_r, Z.add_0_r. symmetry. exact Hfreq.
  - cbn [IcomCiv.freq_to_bcd IcomCiv.bcd_to_freq_loop].
    rewrite !(u8_small (_ mod 10)) by (pose proof (Z.mod_pos_bound f 10);
      pose proof (Z.mod_pos_bound (f / 10) 10); lia).
    destruct (nibbles_unpack ((f / 10) mod 10) (f mod 10)
                (digit_range _) (digit_range _)) as [Hlo Hhi].
    cbv zeta in Hlo, Hhi. rewrite Hlo, Hhi.
    rewrite IH; [ | apply Z.div_pos; [apply Z.div_pos |]; lia | apply u32_idem ].
    rewrite Nat2Z.inj_succ, Z.pow_succ_r by lia.
    rewrite (Z.rem_mul_r f 100) by lia.
    rewrite two_digits by exact Hf.
    rewrite Z.div_div by lia. change (10 * 10) with 100.
    generalize ((f / 100) mod 100 ^ Z.of_nat k) as rest.
    generalize (f mod 10) as d0. generalize ((f / 10) mod 10) as d1.
    intros d1 d0 rest. unfold u32.
    Z.mod_equality.
Qed.

Lemma icom_freq_roundtrip f :
  0 <= f < 2 ^ 32 ->
  IcomCiv.bcd_to_freq (IcomCiv.freq_to_bcd f 5) 5 = f.
Proof.
  intros Hf. unfold IcomCiv.bcd_to_freq.
  rewrite bcd_loop_spec by (try reflexivity; lia).
  rewrite Z.add_0_l, Z.mul_1_l.
  rewrite (Z.mod_small f) by (simpl; lia).
  apply u32_small, Hf.
Qed.

(** *** Yaesu: four packed bytes, most significant pair first, 10 Hz steps *)

Lemma pack_nibbles hi lo :
  YaesuCat.hi_nibble (YaesuCat.pack hi lo) = hi mod 10 /\
  YaesuCat.lo_nibble (YaesuCat.pack hi lo) = lo mod 10.
Proof.
  unfold YaesuCat.hi_nibble, YaesuCat.lo_nibble, YaesuCat.pack.
  destruct (nibbles_unpack (hi mod 10) (lo mod 10)
              (digit_range _) (digit_range _)) as [Hlo Hhi].
  split; assumption.
Qed.

Lemma eight_digits g :
  0 <= g < 10 ^ 8 ->
  (g / 10000000) mod 10 * 10000000 + (g / 1000000) mod 10 * 1000000
  + (g / 100000) mod 10 * 100000 + (g / 10000) mod 10 * 10000
  + (g / 1000) mod 10 * 1000 + (g / 100) mod 10 * 100
  + (g / 10) mod 10 * 10 + g mod 10 = g.
Proof.
  intros Hg.
  Z.div_mod_to_equations. lia.
Qed.

Lemma yaesu_freq_roundtrip f :
  0 <= f < 10 ^ 9 ->
  YaesuCat.packed_bcd_to_freq (YaesuCat.freq_to_packed_bcd f) = 10 * (f / 10).
Proof.
  intros Hf.
  assert (Hg : 0 <= f / 10 < 10 ^ 8) by (Z.div_mod_to_equations; lia).
  unfold YaesuCat.packed_bcd_to_freq, YaesuCat.freq_to_packed_bcd.
  cbn [nth].
  repeat match goal with
  | |- context [YaesuCat.hi_nibble (YaesuCat.pack ?h ?l)] =>
      rewrite (proj1 (pack_nibbles h l))
  | |- context [YaesuCat.lo_nibble (YaesuCat.pack ?h ?l)] =>
      rewrite (proj2 (pack_nibbles h l))
  end.
  generalize dependent (f / 10). intros g Hg.
  pose proof (eight_digits g Hg) as Hsum.
  transitivity (u32 (10 * g)); [ | apply u32_small; lia ].
  rewrite <- Hsum at 9. clear Hsum.
  generalize ((g / 10000000) mod 10), ((g / 1000000) mod 10),
    ((g / 100000) mod 10), ((g / 10000) mod 10), ((g / 1000) mod 10),
    ((g / 100) mod 10), ((g / 10) mod 10), (g mod 10).
  intros d7 d6 d5 d4 d3 d2 d1 d0. unfold u32.
  Z.mod_equality.
Qed.

(** *** Kenwood: eleven ASCII digits *)

Lemma digit_value_char d : 0 <= d < 10 -> digit_value (digit_char d) = d.
Proof.
  intros Hd.
  pose proof (by_enumeration 10 (fun d => digit_value (digit_char d) =? d)
                eq_refl d Hd) as H.
  apply Z.eqb_eq in H. exact H.
Qed.

Lemma dec_digits_length fuel n : (length (dec_digits fuel n) <= fuel)%nat.
Proof.
  revert n. induction fuel as [|k IH]; intros n; simpl; [lia|].
  destruct (n <? 10); simpl; [lia|].
  rewrite length_app. simpl. specialize (IH (n / 10)). lia.
Qed.

Lemma decimal_value_app ds c :
  decimal_value (ds ++ [c]) = 10 * decimal_value ds + digit_value c.
Proof. unfold decimal_value. rewrite fold_left_app. reflexivity. Qed.

Lemma decimal_value_dec_digits fuel :
  forall n, 0 <= n < 10 ^ Z.of_nat fuel ->
            decimal_value (dec_digits fuel n) = n.
Proof.
  induction fuel as [|k IH]; intros n Hn.
  - simpl in *. unfold decimal_value. simpl. lia.
  - cbn [dec_digits]. destruct (Z.ltb_spec n 10) as [Hlt|Hge].
    + unfold decimal_value. simpl. rewrite digit_value_char; lia.
    + rewrite decimal_value_app.
      rewrite Nat2Z.inj_succ, Z.pow_succ_r in Hn by lia.
      rewrite IH by (Z.div_mod_to_equations; nia).
      rewrite digit_value_char by (apply Z.mod_pos_bound; lia).
      Z.div_mod_to_equations; lia.
Qed.

Lemma decimal_value_zeros k ds :
  decimal_value (repeat "0"%char k ++ ds) = decimal_value ds.
Proof.
  unfold decimal_value. rewrite fold_left_app. f_equal.
  induction k as [|k IH]; [reflexivity|].
  change (repeat "0"%char (S k)) with ("0"%char :: repeat "0"%char k).
  cbn [fold_left]. exact IH.
Qed.

Lemma zero_pad_length w ds :
  (length ds <= w)%nat -> length (zero_pad w ds) = w.
Proof.
  intros. unfold zero_pad. rewrite length_app, repeat_length. lia.
Qed.

Lemma fmt_u_11_length n : length (fmt_u 11 n) = 11%nat.
Proof.
  unfold fmt_u. apply zero_pad_length.
  pose proof (dec_digits_length 10 n). lia.
Qed.

Lemma dec_digits_are_digits fuel :
  forall n, 0 <= n ->
            Forall (fun c => 0 <= digit_value c <= 9) (dec_digits fuel n).
Proof.
  induction fuel as [|k IH]; intros n Hn; cbn [dec_digits]; [constructor|].
  destruct (Z.ltb_spec n 10).
  - constructor; [ rewrite digit_value_char; lia | constructor ].
  - apply Forall_app. split.
    + apply IH. apply Z.div_pos; lia.
    + constructor; [ | constructor ].
      pose proof (Z.mod_pos_bound n 10). rewrite digit_value_char; lia.
Qed.

Lemma fmt_u_are_digits w n :
  0 <= n -> Forall (fun c => 0 <= digit_value c <= 9) (fmt_u w n).
Proof.
  intros Hn. unfold fmt_u, zero_pad. apply Forall_app. split.
  - apply Forall_forall. intros c Hc. apply repeat_spec in Hc. subst c.
    vm_compute. split; discriminate.
  - apply dec_digits_are_digits, Hn.
Qed.

(** A buffer without NUL is the string it holds. *)
Lemma string_of_buf_id buf :
  Forall (fun c => Ascii.eqb c "000" = false) buf -> string_of_buf buf = buf.
Proof.
  induction 1 as [|c rest Hc Hrest IH]; [ reflexivity | ].
  cbn [string_of_buf]. rewrite Hc, IH. reflexivity.
Qed.

Lemma digit_not_nul c : 0 <= digit_value c <= 9 -> Ascii.eqb c "000" = false.
Proof.
  intros Hc. apply Ascii.eqb_neq. intros ->. vm_compute in Hc.
  destruct Hc as [Hc _]. apply Hc. reflexivity.
Qed.

Lemma digit_char_not_nul d :
  0 <= d <= 9 -> Ascii.eqb (digit_char d) "000" = false.
Proof.
  intros Hd. apply digit_not_nul. rewrite digit_value_char; lia.
Qed.

(** The buffer of 16 characters is never too small for the command, and
    when [vfo] is not NUL the command is all of it. *)
Lemma build_freq_command_shape vfo f :
  vfo <> "000"%char -> 0 <= f ->
  Kenwood.build_freq_command vfo f
  = str "F" ++ [vfo] ++ fmt_u 11 f ++ str ";".
Proof.
  intros Hvfo Hf. unfold Kenwood.build_freq_command, snprintf.
  rewrite firstn_all2
    by (cbn [str list_ascii_of_string app length];
        rewrite length_app, fmt_u_11_length; simpl; lia).
  apply string_of_buf_id.
  cbn [str list_ascii_of_string app].
  constructor; [ reflexivity | ].
  constructor; [ apply Ascii.eqb_neq, Hvfo | ].
  apply Forall_app. split.
  - eapply Forall_impl; [ | apply fmt_u_are_digits, Hf ].
    intros c Hc. apply digit_not_nul, Hc.
  - constructor; [ reflexivity | constructor ].
Qed.

(** A NUL for [vfo] cuts the command after its first character. *)
Lemma build_freq_command_nul f : Kenwood.build_freq_command "000" f = str "F".
Proof. reflexivity. Qed.

Lemma kenwood_freq_field_fmt vfo f :
  vfo <> "000"%char -> 0 <= f ->
  kenwood_freq_field (Kenwood.build_freq_command vfo f) = fmt_u 11 f.
Proof.
  intros Hvfo Hf.
  rewrite build_freq_command_shape by assumption. unfold kenwood_freq_field.
  cbn [str list_ascii_of_string app skipn].
  rewrite <- (fmt_u_11_length f) at 1.
  rewrite firstn_app, firstn_all, Nat.sub_diag. simpl. apply app_nil_r.
Qed.

Lemma kenwood_freq_roundtrip vfo f :
  vfo <> "000"%char -> 0 <= f < 2 ^ 32 ->
  decimal_value (kenwood_freq_field (Kenwood.build_freq_command vfo f)) = f.
Proof.
  intros Hvfo Hf. rewrite kenwood_freq_field_fmt by (try assumption; lia).
  unfold fmt_u, zero_pad.
  rewrite decimal_value_zeros. apply decimal_value_dec_digits. simpl. lia.
Qed.

(** ** What [set_channel] does *)

Lemma kenwood_set_channel_ok c s p :
  Kenwood.ready_ s = true -> Kenwood.serial_ s = Some p ->
  Kenwood.set_channel c s
  = (true, Kenwood.with_channel c s,
     [ route (Kenwood.send_callback_ s) p
         (bytes_of (Kenwood.build_freq_command "A" (rx_frequency c)));
       route (Kenwood.send_callback_ s) p
         (bytes_of (Kenwood.build_mode_command (rx_mode c))) ]).
Proof.
  destruct s as [ser ch tx rdy scb acb buf]. cbn [Kenwood.ready_ Kenwood.serial_].
  intros -> ->. unfold Kenwood.set_channel, Kenwood.send_command. run_monad.
  destruct scb; reflexivity.
Qed.

Lemma kenwood_set_channel_fail c s :
  Kenwood.ready_ s = false \/ Kenwood.serial_ s = None ->
  Kenwood.set_channel c s = (false, s, []).
Proof.
  destruct s as [ser ch tx rdy scb acb buf]. cbn [Kenwood.ready_ Kenwood.serial_].
  unfold Kenwood.set_channel. run_monad.
  intros [-> | ->]; [ reflexivity | destruct rdy; reflexivity ].
Qed.

Lemma icom_set_channel_ok c s p :
  IcomCiv.ready_ s = true -> IcomCiv.serial_ s = Some p ->
  IcomCiv.set_channel c s
  = (true, IcomCiv.with_channel c s,
     [ route (IcomCiv.send_callback_ s) p
         (IcomCiv.build_frame s CivCommand.SET_FREQ
            (IcomCiv.freq_to_bcd (rx_frequency c) 5));
       route (IcomCiv.send_callback_ s) p
         (IcomCiv.build_frame s CivCommand.SET_MODE
            [u8 (IcomCiv.radio_mode_to_civ (rx_mode c))]) ]).
Proof.
  destruct s as [ser ra ca ch tx rdy scb acb buf].
  cbn [IcomCiv.ready_ IcomCiv.serial_].
  intros -> ->. unfold IcomCiv.set_channel, IcomCiv.send_frame. run_monad.
  destruct scb; reflexivity.
Qed.

Lemma icom_set_channel_fail c s :
  IcomCiv.ready_ s = false \/ IcomCiv.serial_ s = None ->
  IcomCiv.set_channel c s = (false, s, []).
Proof.
  destruct s as [ser ra ca ch tx rdy scb acb buf].
  cbn [IcomCiv.ready_ IcomCiv.serial_].
  unfold IcomCiv.set_channel. run_monad.
  intros [-> | ->]; [ reflexivity | destruct rdy; reflexivity ].
Qed.

Lemma yaesu_set_channel_ok c s p :
  YaesuCat.ready_ s = true -> YaesuCat.serial_ s = Some p ->
  YaesuCat.set_channel c s
  = (true, YaesuCat.with_channel c s,
     [ route (YaesuCat.send_callback_ s) p
         (YaesuCat.freq_to_packed_bcd (rx_frequency c)
            ++ [YaesuCommand.SET_FREQ]);
       route (YaesuCat.send_callback_ s) p
         [ u8 (YaesuCat.radio_mode_to_yaesu (rx_mode c)); 0; 0; 0;
           YaesuCommand.SET_MODE ] ]).
Proof.
  destruct s as [ser ch tx rdy scb acb].
  cbn [YaesuCat.ready_ YaesuCat.serial_].
  intros -> ->. unfold YaesuCat.set_channel, YaesuCat.send_command. run_monad.
  destruct scb; reflexivity.
Qed.

Lemma yaesu_set_channel_fail c s :
  YaesuCat.ready_ s = false \/ YaesuCat.serial_ s = None ->
  YaesuCat.set_channel c s = (false, s, []).
Proof.
  destruct s as [ser ch tx rdy scb acb].
  cbn [YaesuCat.ready_ YaesuCat.serial_].
  unfold YaesuCat.set_channel. run_monad.
  intros [-> | ->]; [ reflexivity | destruct rdy; reflexivity ].
Qed.

Lemma emitted_route cb p d1 d2 :
  emitted [route cb p d1; route cb p d2] = [d1; d2].
Proof. destruct cb; reflexivity. Qed.

(** ** The response parsers *)

Lemma for_each_app {S A} (body : A -> M S unit) (l1 l2 : list A) (s : S) :
  for_each body (l1 ++ l2) s
  = (tt, state_of (for_each body l2 (state_of (for_each body l1 s))),
     events (for_each body l1 s)
     ++ events (for_each body l2 (state_of (for_each body l1 s)))).
Proof.
  revert s. induction l1 as [|x l1 IH]; intros s.
  - cbn [app for_each]. run_monad. cbn [fst snd app].
    destruct (for_each body l2 s) as [[[] s2] e2]. reflexivity.
  - cbn [app for_each]. unfold bind.
    destruct (body x s) as [[[] s1] e1]. rewrite IH.
    unfold state_of, events. cbn [fst snd].
    destruct (for_each body l1 s1) as [[[] s2] e2]. cbn [fst snd].
    rewrite app_assoc. reflexivity.
Qed.

Lemma kenwood_process_byte_eq b s :
  Kenwood.process_byte b s
  = (tt,
     Kenwood.with_rx_buffer
       (kenwood_buffer_after (char_of_byte b) (Kenwood.rx_buffer_ s)) s,
     if Ascii.eqb (char_of_byte b) ";"
     then ack_events (Kenwood.ack_callback_ s) else []).
Proof.
  destruct s as [ser ch tx rdy scb acb buf].
  unfold Kenwood.process_byte, kenwood_buffer_after, Kenwood.with_rx_buffer.
  generalize (char_of_byte b) as c. intros c. run_monad.
  destruct (Ascii.eqb c ";"); read_fields.
  - destruct acb; reflexivity.
  - destruct (256 <? Z.of_nat (length (buf ++ [c]))); reflexivity.
Qed.

Lemma civ_process_byte_eq b s :
  IcomCiv.process_byte b s
  = (tt,
     IcomCiv.with_rx_buffer (civ_buffer_after b (IcomCiv.rx_buffer_ s)) s,
     if (b =? CIV_EOM) && civ_is_ack_frame (IcomCiv.rx_buffer_ s ++ [b])
     then ack_events (IcomCiv.ack_callback_ s) else []).
Proof.
  destruct s as [ser ra ca ch tx rdy scb acb buf].
  unfold IcomCiv.process_byte, civ_buffer_after, civ_is_ack_frame,
    IcomCiv.with_rx_buffer.
  run_monad.
  destruct (b =? CIV_EOM); read_fields.
  - destruct (6 <=? Z.of_nat (length (buf ++ [b]))); read_fields;
      [ | reflexivity ].
    destruct (IcomCiv.at_ (buf ++ [b]) 0 =? CIV_PREAMBLE); read_fields;
      [ | reflexivity ].
    destruct (IcomCiv.at_ (buf ++ [b]) 1 =? CIV_PREAMBLE); read_fields;
      [ | reflexivity ].
    destruct (IcomCiv.at_ (buf ++ [b]) 4 =? CIV_ACK); [ | reflexivity ].
    destruct acb; reflexivity.
  - destruct (256 <? Z.of_nat (length (buf ++ [b]))); reflexivity.
Qed.

Lemma kenwood_process_response_eq data :
  forall s,
    Kenwood.process_response data s
    = (tt,
       Kenwood.with_rx_buffer (kenwood_feed data (Kenwood.rx_buffer_ s)) s,
       kenwood_acks (Kenwood.ack_callback_ s) data).
Proof.
  unfold Kenwood.process_response.
  induction data as [|b rest IH]; intros s.
  - destruct s; reflexivity.
  - cbn [for_each]. unfold bind. rewrite kenwood_process_byte_eq, IH.
    destruct s; reflexivity.
Qed.

Lemma civ_process_response_eq data :
  forall s,
    IcomCiv.process_response data s
    = (tt,
       IcomCiv.with_rx_buffer (civ_feed data (IcomCiv.rx_buffer_ s)) s,
       civ_acks (IcomCiv.ack_callback_ s) data (IcomCiv.rx_buffer_ s)).
Proof.
  unfold IcomCiv.process_response.
  induction data as [|b rest IH]; intros s.
  - destruct s; reflexivity.
  - cbn [for_each]. unfold bind. rewrite civ_process_byte_eq, IH.
    destruct s; reflexivity.
Qed.

(** Bytes without a terminator pile up until the buffer would pass 256. *)
Lemma kenwood_feed_accumulates data :
  forall buf,
    no_semicolon data ->
    (length buf + length data <= 256)%nat ->
    kenwood_feed data buf = buf ++ map char_of_byte data.
Proof.
  induction data as [|b rest IH]; intros buf Hno Hlen.
  - simpl. symmetry. apply app_nil_r.
  - inversion Hno as [|? ? Hb Hrest]; subst. simpl in Hlen.
    unfold kenwood_feed in *. cbn [fold_left map].
    unfold kenwood_buffer_after at 2. rewrite Hb.
    destruct (Z.ltb_spec 256 (Z.of_nat (length (buf ++ [char_of_byte b]))))
      as [Hover|_].
    + rewrite length_app in Hover. simpl in Hover. lia.
    + rewrite IH; [ | assumption | rewrite length_app; simpl; lia ].
      rewrite <- app_assoc. reflexivity.
Qed.

Lemma civ_feed_accumulates data :
  forall buf,
    no_eom data ->
    (length buf + length data <= 256)%nat ->
    civ_feed data buf = buf ++ data.
Proof.
  induction data as [|b rest IH]; intros buf Hno Hlen.
  - simpl. symmetry. apply app_nil_r.
  - inversion Hno as [|? ? Hb Hrest]; subst. simpl in Hlen.
    unfold civ_feed in *. cbn [fold_left].
    unfold civ_buffer_after at 2. rewrite Hb.
    destruct (Z.ltb_spec 256 (Z.of_nat (length (buf ++ [b])))) as [Hover|_].
    + rewrite length_app in Hover. simpl in Hover. lia.
    + rewrite IH; [ | assumption | rewrite length_app; simpl; lia ].
      rewrite <- app_assoc. reflexivity.
Qed.

Lemma kenwood_feed_app d1 d2 buf :
  kenwood_feed (d1 ++ d2) buf = kenwood_feed d2 (kenwood_feed d1 buf).
Proof. apply fold_left_app. Qed.

Lemma civ_feed_app d1 d2 buf :
  civ_feed (d1 ++ d2) buf = civ_feed d2 (civ_feed d1 buf).
Proof. apply fold_left_app. Qed.

(** The byte that would make the buffer 257 long empties it. *)
Lemma kenwood_feed_overflow data buf :
  no_semicolon data ->
  (length buf <= 256)%nat ->
  (length buf + length data = 257)%nat ->
  kenwood_feed data buf = [].
Proof.
  intros Hno Hbuf Hlen.
  destruct (exists_last (l := data)) as [front [b ->]].
  { intros ->. simpl in Hlen. lia. }
  rewrite length_app in Hlen. simpl in Hlen.
  apply Forall_app in Hno. destruct Hno as [Hfront Hb].
  inversion Hb as [|? ? Hb' _]; subst.
  rewrite kenwood_feed_app, (kenwood_feed_accumulates front buf)
    by (assumption || lia).
  unfold kenwood_feed. cbn [fold_left]. unfold kenwood_buffer_after.
  rewrite Hb'.
  destruct (Z.ltb_spec 256 (Z.of_nat (length
             ((buf ++ map char_of_byte front) ++ [char_of_byte b]))))
    as [_|Hle]; [reflexivity|].
  rewrite !length_app, length_map in Hle. simpl in Hle. lia.
Qed.

Lemma civ_feed_overflow data buf :
  no_eom data ->
  (length buf <= 256)%nat ->
  (length buf + length data = 257)%nat ->
  civ_feed data buf = [].
Proof.
  intros Hno Hbuf Hlen.
  destruct (exists_last (l := data)) as [front [b ->]].
  { intros ->. simpl in Hlen. lia. }
  rewrite length_app in Hlen. simpl in Hlen.
  apply Forall_app in Hno. destruct Hno as [Hfront Hb].
  inversion Hb as [|? ? Hb' _]; subst.
  rewrite civ_feed_app, (civ_feed_accumulates front buf)
    by (assumption || lia).
  unfold civ_feed. cbn [fold_left]. unfold civ_buffer_after.
  rewrite Hb'.
  destruct (Z.ltb_spec 256 (Z.of_nat (length ((buf ++ front) ++ [b]))))
    as [_|Hle]; [reflexivity|].
  rewrite !length_app in Hle. simpl in Hle. lia.
Qed.

Lemma kenwood_acks_none ack data :
  no_semicolon data -> kenwood_acks ack data = [].
Proof.
  induction 1 as [|b rest Hb _ IH]; [reflexivity|].
  unfold kenwood_acks in *. cbn [flat_map]. rewrite Hb, IH. reflexivity.
Qed.

Lemma civ_acks_none ack data :
  forall buf, no_eom data -> civ_acks ack data buf = [].
Proof.
  induction data as [|b rest IH]; intros buf Hno; [reflexivity|].
  inversion Hno as [|? ? Hb Hrest]; subst.
  cbn [civ_acks]. rewrite Hb. cbn [andb]. rewrite IH by assumption.
  reflexivity.
Qed.

Lemma civ_acks_app ack d1 d2 buf :
  civ_acks ack (d1 ++ d2) buf
  = civ_acks ack d1 buf ++ civ_acks ack d2 (civ_feed d1 buf).
Proof.
  revert buf. induction d1 as [|b rest IH]; intros buf; [reflexivity|].
  cbn [app civ_acks]. rewrite IH, <- app_assoc. reflexivity.
Qed.

(** The buffers never hold more than 256 bytes between two calls. *)
Lemma kenwood_buffer_after_bound c buf :
  (length (kenwood_buffer_after c buf) <= 256)%nat.
Proof.
  unfold kenwood_buffer_after. destruct (Ascii.eqb c ";"); [simpl; lia|].
  destruct (Z.ltb_spec 256 (Z.of_nat (length (buf ++ [c])))); simpl; lia.
Qed.

Lemma civ_buffer_after_bound b buf :
  (length (civ_buffer_after b buf) <= 256)%nat.
Proof.
  unfold civ_buffer_after. destruct (b =? CIV_EOM); [simpl; lia|].
  destruct (Z.ltb_spec 256 (Z.of_nat (length (buf ++ [b])))); simpl; lia.
Qed.

Lemma kenwood_feed_bound data :
  forall buf, (length buf <= 256)%nat ->
              (length (kenwood_feed data buf) <= 256)%nat.
Proof.
  induction data as [|b rest IH]; intros buf Hbuf; [exact Hbuf|].
  apply IH, kenwood_buffer_after_bound.
Qed.

Lemma civ_feed_bound data :
  forall buf, (length buf <= 256)%nat ->
              (length (civ_feed data buf) <= 256)%nat.
Proof.
  induction data as [|b rest IH]; intros buf Hbuf; [exact Hbuf|].
  apply IH, civ_buffer_after_bound.
Qed.

(** However long the run of bytes without a terminator, the buffer holds
    the bytes fed since it was last emptied. *)
Lemma kenwood_feed_length data :
  forall buf,
    no_semicolon data -> (length buf <= 256)%nat ->
    Z.of_nat (length (kenwood_feed data buf))
    = (Z.of_nat (length buf) + Z.of_nat (length data)) mod 257.
Proof.
  induction data as [|b rest IH]; intros buf Hno Hbuf.
  - cbn [kenwood_feed fold_left length]. rewrite Z.add_0_r, Z.mod_small; lia.
  - inversion Hno as [|? ? Hb Hrest]; subst.
    change (kenwood_feed (b :: rest) buf)
      with (kenwood_feed rest (kenwood_buffer_after (char_of_byte b) buf)).
    rewrite IH by (assumption || apply kenwood_buffer_after_bound).
    unfold kenwood_buffer_after. rewrite Hb.
    cbn [length]. rewrite Nat2Z.inj_succ.
    destruct (Z.ltb_spec 256 (Z.of_nat (length (buf ++ [char_of_byte b]))))
      as [Hover|Hfit]; rewrite length_app in *; cbn [length] in *.
    + replace (Z.of_nat (length buf)) with 256 by lia.
      Z.div_mod_to_equations; lia.
    + f_equal. lia.
Qed.

Lemma civ_feed_length data :
  forall buf,
    no_eom data -> (length buf <= 256)%nat ->
    Z.of_nat (length (civ_feed data buf))
    = (Z.of_nat (length buf) + Z.of_nat (length data)) mod 257.
Proof.
  induction data as [|b rest IH]; intros buf Hno Hbuf.
  - cbn [civ_feed fold_left length]. rewrite Z.add_0_r, Z.mod_small; lia.
  - inversion Hno as [|? ? Hb Hrest]; subst.
    change (civ_feed (b :: rest) buf)
      with (civ_feed rest (civ_buffer_after b buf)).
    rewrite IH by (assumption || apply civ_buffer_after_bound).
    unfold civ_buffer_after. rewrite Hb.
    cbn [length]. rewrite Nat2Z.inj_succ.
    destruct (Z.ltb_spec 256 (Z.of_nat (length (buf ++ [b]))))
      as [Hover|Hfit]; rewrite length_app in *; cbn [length] in *.
    + replace (Z.of_nat (length buf)) with 256 by lia.
      Z.div_mod_to_equations; lia.
    + f_equal. lia.
Qed.

(** ** Sessions *)

Lemma run_invariant {S} (v : IRadio S) (P : S -> Prop) :
  (forall c s, P s -> P (state_of (dispatch v c s))) ->
  forall calls s last, P s -> P (fst (run v calls s last)).
Proof.
  intros Hstep. induction calls as [|c rest IH]; intros s last Hs.
  - exact Hs.
  - cbn [run]. specialize (Hstep c s Hs). unfold state_of in Hstep.
    destruct (dispatch v c s) as [[r s'] ev]. apply IH, Hstep.
Qed.

Lemma run_tracks {S} (v : IRadio S) :
  (forall c s, get_channel v (state_of (dispatch v c s))
               = accepted c (result (dispatch v c s)) (get_channel v s)) ->
  forall calls s last,
    get_channel v s = last ->
    get_channel v (fst (run v calls s last)) = snd (run v calls s last).
Proof.
  intros Hstep. induction calls as [|c rest IH]; intros s last Hs.
  - exact Hs.
  - cbn [run]. specialize (Hstep c s). unfold state_of, result in Hstep.
    destruct (dispatch v c s) as [[r s'] ev]. cbn [fst snd] in Hstep.
    apply IH. rewrite Hstep, Hs. reflexivity.
Qed.

Lemma kenwood_dispatch_frame c s :
  Kenwood.serial_ (state_of (dispatch Kenwood.vtable c s)) = Kenwood.serial_ s
  /\ Kenwood.current_channel_ (state_of (dispatch Kenwood.vtable c s))
     = accepted c (result (dispatch Kenwood.vtable c s))
         (Kenwood.current_channel_ s).
Proof.
  destruct c;
    cbn [dispatch Kenwood.vtable initialize shutdown start stop set_channel
         get_channel set_ptt is_transmitting is_ready get_port_config
         register_send_callback register_ack_callback process_response];
    unfold lift, bind;
    try rewrite kenwood_process_response_eq;
    try (destruct s as [ser ch tx rdy scb acb buf];
         unfold Kenwood.initialize, Kenwood.shutdown, Kenwood.start,
           Kenwood.stop, Kenwood.set_channel, Kenwood.set_ptt,
           Kenwood.send_command, Kenwood.register_send_callback,
           Kenwood.register_ack_callback;
         run_monad; read_fields;
         try (destruct rdy, ser, scb); split; reflexivity).
Qed.

Lemma icom_dispatch_frame c s :
  IcomCiv.serial_ (state_of (dispatch IcomCiv.vtable c s)) = IcomCiv.serial_ s
  /\ IcomCiv.radio_addr_ (state_of (dispatch IcomCiv.vtable c s))
     = IcomCiv.radio_addr_ s
  /\ IcomCiv.controller_addr_ (state_of (dispatch IcomCiv.vtable c s))
     = IcomCiv.controller_addr_ s
  /\ IcomCiv.current_channel_ (state_of (dispatch IcomCiv.vtable c s))
     = accepted c (result (dispatch IcomCiv.vtable c s))
         (IcomCiv.current_channel_ s).
Proof.
  destruct c;
    cbn [dispatch IcomCiv.vtable initialize shutdown start stop set_channel
         get_channel set_ptt is_transmitting is_ready get_port_config
         register_send_callback register_ack_callback process_response];
    unfold lift, bind;
    try rewrite civ_process_response_eq;
    try (destruct s as [ser ra ca ch tx rdy scb acb buf];
         unfold IcomCiv.initialize, IcomCiv.shutdown, IcomCiv.start,
           IcomCiv.stop, IcomCiv.set_channel, IcomCiv.set_ptt,
           IcomCiv.send_frame, IcomCiv.register_send_callback,
           IcomCiv.register_ack_callback;
         run_monad; read_fields;
         try (destruct rdy, ser, scb); repeat split; reflexivity).
Qed.

Lemma yaesu_dispatch_frame c s :
  YaesuCat.serial_ (state_of (dispatch YaesuCat.vtable c s)) = YaesuCat.serial_ s
  /\ YaesuCat.current_channel_ (state_of (dispatch YaesuCat.vtable c s))
     = accepted c (result (dispatch YaesuCat.vtable c s))
         (YaesuCat.current_channel_ s).
Proof.
  destruct c;
    cbn [dispatch YaesuCat.vtable initialize shutdown start stop set_channel
         get_channel set_ptt is_transmitting is_ready get_port_config
         register_send_callback register_ack_callback process_response];
    unfold lift, bind;
    destruct s as [ser ch tx rdy scb acb];
    unfold YaesuCat.initialize, YaesuCat.shutdown, YaesuCat.start,
      YaesuCat.stop, YaesuCat.set_channel, YaesuCat.set_ptt,
      YaesuCat.send_command, YaesuCat.register_send_callback,
      YaesuCat.register_ack_callback, YaesuCat.process_response;
    run_monad; read_fields;
    try (destruct rdy, ser, scb);
    try (destruct (0 <? Z.of_nat (length data)), acb);
    split; reflexivity.
Qed.

Lemma kenwood_session_serial calls serial :
  Kenwood.serial_ (after Kenwood.vtable calls (Kenwood.new serial)) = serial.
Proof.
  unfold after.
  apply (run_invariant Kenwood.vtable (fun s => Kenwood.serial_ s = serial));
    [ | reflexivity ].
  intros c s Hs. rewrite (proj1 (kenwood_dispatch_frame c s)). exact Hs.
Qed.

Lemma icom_session_wiring calls serial addr :
  let s := after IcomCiv.vtable calls (IcomCiv.new serial addr) in
  IcomCiv.serial_ s = serial /\ IcomCiv.radio_addr_ s = u8 addr
  /\ IcomCiv.controller_addr_ s = CIV_CONTROLLER.
Proof.
  unfold after.
  apply (run_invariant IcomCiv.vtable
           (fun s => IcomCiv.serial_ s = serial
                     /\ IcomCiv.radio_addr_ s = u8 addr
                     /\ IcomCiv.controller_addr_ s = CIV_CONTROLLER));
    [ | repeat split ].
  intros c s Hs. destruct (icom_dispatch_frame c s) as (-> & -> & -> & _).
  exact Hs.
Qed.

Lemma yaesu_session_serial calls serial :
  YaesuCat.serial_ (after YaesuCat.vtable calls (YaesuCat.new serial)) = serial.
Proof.
  unfold after.
  apply (run_invariant YaesuCat.vtable (fun s => YaesuCat.serial_ s = serial));
    [ | reflexivity ].
  intros c s Hs. rewrite (proj1 (yaesu_dispatch_frame c s)). exact Hs.
Qed.

(** ** The claims on the codecs *)

(** C1, as the code has it.  End-to-end scenario.  Take a codec that is
    ready after any session of interface calls, and a channel with
    [rx_frequency = 14250000] and [rx_mode = USB].  When the codec was built
    on a serial collaborator, [set_channel] succeeds and puts out exactly
    two byte strings, in this order, each through the send callback when
    one is registered and through the serial collaborator otherwise:
    Kenwood ["FA00014250000;"] then ["MD2;"]; Icom at address [0x94] the
    frames [FE FE 94 E0 05 00 00 25 14 00 FD] then [FE FE 94 E0 06 01 FD];
    Yaesu [01 42 50 00 01] then [01 00 00 00 07].  When it was built on a
    null serial pointer, [set_channel] fails and puts out nothing, whether
    or not a send callback is registered. *)
Theorem C1_set_channel_bytes
  (c : Channel) (serial : option ISerial) (calls : list Call) :
  rx_frequency c = 14250000 -> rx_mode c = USB ->
  (let s := after Kenwood.vtable calls (Kenwood.new serial) in
   Kenwood.ready_ s = true ->
   (forall p, serial = Some p ->
      result (Kenwood.set_channel c s) = true
      /\ events (Kenwood.set_channel c s)
         = [ route (Kenwood.send_callback_ s) p
               (bytes_of (str "FA00014250000;"));
             route (Kenwood.send_callback_ s) p (bytes_of (str "MD2;")) ]
      /\ emitted (events (Kenwood.set_channel c s))
         = [bytes_of (str "FA00014250000;"); bytes_of (str "MD2;")])
   /\ (serial = None ->
       result (Kenwood.set_channel c s) = false
       /\ events (Kenwood.set_channel c s) = []))
  /\ (let s := after IcomCiv.vtable calls (IcomCiv.new serial 0x94) in
      IcomCiv.ready_ s = true ->
      (forall p, serial = Some p ->
         result (IcomCiv.set_channel c s) = true
         /\ events (IcomCiv.set_channel c s)
            = [ route (IcomCiv.send_callback_ s) p
                  [0xFE; 0xFE; 0x94; 0xE0; 0x05;
                   0x00; 0x00; 0x25; 0x14; 0x00; 0xFD];
                route (IcomCiv.send_callback_ s) p
                  [0xFE; 0xFE; 0x94; 0xE0; 0x06; 0x01; 0xFD] ]
         /\ emitted (events (IcomCiv.set_channel c s))
            = [ [0xFE; 0xFE; 0x94; 0xE0; 0x05;
                 0x00; 0x00; 0x25; 0x14; 0x00; 0xFD];
                [0xFE; 0xFE; 0x94; 0xE0; 0x06; 0x01; 0xFD] ])
      /\ (serial = None ->
          result (IcomCiv.set_channel c s) = false
          /\ events (IcomCiv.set_channel c s) = []))
  /\ (let s := after YaesuCat.vtable calls (YaesuCat.new serial) in
      YaesuCat.ready_ s = true ->
      (forall p, serial = Some p ->
         result (YaesuCat.set_channel c s) = true
         /\ events (YaesuCat.set_channel c s)
            = [ route (YaesuCat.send_callback_ s) p
                  [0x01; 0x42; 0x50; 0x00; 0x01];
                route (YaesuCat.send_callback_ s) p
                  [0x01; 0x00; 0x00; 0x00; 0x07] ]
         /\ emitted (events (YaesuCat.set_channel c s))
            = [ [0x01; 0x42; 0x50; 0x00; 0x01];
                [0x01; 0x00; 0x00; 0x00; 0x07] ])
      /\ (serial = None ->
          result (YaesuCat.set_channel c s) = false
          /\ events (YaesuCat.set_channel c s) = [])).
Proof.
  intros Hf Hm. split; [ | split ]; intros s Hready; subst s; split.
  - intros p ->.
    rewrite (kenwood_set_channel_ok _ _ p Hready (kenwood_session_serial _ _)).
    unfold result, events. cbn [fst snd]. rewrite emitted_route, Hf, Hm.
    repeat split.
  - intros ->.
    rewrite kenwood_set_channel_fail
      by (right; apply kenwood_session_serial).
    split; reflexivity.
  - intros p ->.
    destruct (icom_session_wiring calls (Some p) 0x94) as (Hser & Hra & Hca).
    rewrite (icom_set_channel_ok _ _ p Hready Hser).
    unfold result, events. cbn [fst snd]. rewrite emitted_route.
    unfold IcomCiv.build_frame. rewrite Hra, Hca, Hf, Hm. repeat split.
  - intros ->.
    destruct (icom_session_wiring calls None 0x94) as (Hser & _).
    rewrite icom_set_channel_fail by (right; exact Hser).
    split; reflexivity.
  - intros p ->.
    rewrite (yaesu_set_channel_ok _ _ p Hready (yaesu_session_serial _ _)).
    unfold result, events. cbn [fst snd]. rewrite emitted_route, Hf, Hm.
    repeat split.
  - intros ->.
    rewrite yaesu_set_channel_fail by (right; apply yaesu_session_serial).
    split; reflexivity.
Qed.

Lemma C1_set_channel_bytes_witness :
  emitted (events (Kenwood.set_channel channel_14250000_usb
                     (after Kenwood.vtable [CInitialize]
                        (Kenwood.new (Some 0%nat)))))
  = [bytes_of (str "FA00014250000;"); bytes_of (str "MD2;")]
  /\ emitted (events (IcomCiv.set_channel channel_14250000_usb
                        (after IcomCiv.vtable [CInitialize]
                           (IcomCiv.new (Some 0%nat) 0x94))))
     = [ [0xFE; 0xFE; 0x94; 0xE0; 0x05; 0x00; 0x00; 0x25; 0x14; 0x00; 0xFD];
         [0xFE; 0xFE; 0x94; 0xE0; 0x06; 0x01; 0xFD] ]
  /\ emitted (events (YaesuCat.set_channel channel_14250000_usb
                        (after YaesuCat.vtable [CInitialize]
                           (YaesuCat.new (Some 0%nat)))))
     = [ [0x01; 0x42; 0x50; 0x00; 0x01]; [0x01; 0x00; 0x00; 0x00; 0x07] ]
  /\ events (YaesuCat.set_channel channel_14250000_usb
               (after YaesuCat.vtable
                  [CInitialize; CRegisterSend (Some 7%nat)]
                  (YaesuCat.new None)))
     = [].
Proof.
  destruct (C1_set_channel_bytes channel_14250000_usb (Some 0%nat)
              [CInitialize] eq_refl eq_refl) as (K & I & Y).
  destruct (C1_set_channel_bytes channel_14250000_usb None
              [CInitialize; CRegisterSend (Some 7%nat)] eq_refl eq_refl)
    as (_ & _ & Y0).
  split; [ | split; [ | split ] ].
  - exact (proj2 (proj2 (proj1 (K eq_refl) 0%nat eq_refl))).
  - exact (proj2 (proj2 (proj1 (I eq_refl) 0%nat eq_refl))).
  - exact (proj2 (proj2 (proj1 (Y eq_refl) 0%nat eq_refl))).
  - exact (proj2 (proj2 (Y0 eq_refl) eq_refl)).
Defined.

(** C1 as stated fails: each of the three codecs, ready, built on a null
    serial pointer and holding a registered send callback, has a send
    destination in the sense of the claim, yet [set_channel] on the channel
    of the scenario returns false and sends no byte. *)
Lemma C1_counterexample :
  (let s := after Kenwood.vtable [CInitialize; CRegisterSend (Some 7%nat)]
              (Kenwood.new None) in
   Kenwood.ready_ s = true /\ Kenwood.send_callback_ s = Some 7%nat
   /\ result (Kenwood.set_channel channel_14250000_usb s) = false
   /\ emitted (events (Kenwood.set_channel channel_14250000_usb s))
      <> [bytes_of (str "FA00014250000;"); bytes_of (str "MD2;")])
  /\ (let s := after IcomCiv.vtable [CInitialize; CRegisterSend (Some 7%nat)]
                 (IcomCiv.new None 0x94) in
      IcomCiv.ready_ s = true /\ IcomCiv.send_callback_ s = Some 7%nat
      /\ result (IcomCiv.set_channel channel_14250000_usb s) = false
      /\ emitted (events (IcomCiv.set_channel channel_14250000_usb s))
         <> [ [0xFE; 0xFE; 0x94; 0xE0; 0x05;
               0x00; 0x00; 0x25; 0x14; 0x00; 0xFD];
              [0xFE; 0xFE; 0x94; 0xE0; 0x06; 0x01; 0xFD] ])
  /\ (let s := after YaesuCat.vtable [CInitialize; CRegisterSend (Some 7%nat)]
                 (YaesuCat.new None) in
      YaesuCat.ready_ s = true /\ YaesuCat.send_callback_ s = Some 7%nat
      /\ result (YaesuCat.set_channel channel_14250000_usb s) = false
      /\ emitted (events (YaesuCat.set_channel channel_14250000_usb s))
         <> [ [0x01; 0x42; 0x50; 0x00; 0x01];
              [0x01; 0x00; 0x00; 0x00; 0x07] ]).
Proof. repeat split; discriminate. Qed.

(** C2.  Decoding an encoded frequency gives the frequency back.  Icom:
    [bcd_to_freq (freq_to_bcd f 5) 5 = f] for every 32-bit [f].  Yaesu:
    for every [f] below [10^9], [packed_bcd_to_freq (freq_to_packed_bcd f)]
    is [f] with its last decimal digit dropped, [10 * (f / 10)], hence [f]
    itself when [f] is a multiple of 10.  Kenwood: for every 32-bit [f]
    and every VFO character that is not NUL, in particular the ['A'] of the
    command that [set_channel] sends, the frequency command is ["F"], the
    VFO character, a field of eleven decimal digits that read back as [f],
    and [";"].  (A NUL for the VFO character ends the returned string after
    its ["F"]; no caller passes one.) *)
Theorem C2_frequency_roundtrip (f : Z) (vfo : ascii) :
  (0 <= f < 2 ^ 32 ->
   IcomCiv.bcd_to_freq (IcomCiv.freq_to_bcd f 5) 5 = f)
  /\ (0 <= f < 10 ^ 9 ->
      YaesuCat.packed_bcd_to_freq (YaesuCat.freq_to_packed_bcd f)
      = 10 * (f / 10))
  /\ (0 <= f < 10 ^ 9 -> f mod 10 = 0 ->
      YaesuCat.packed_bcd_to_freq (YaesuCat.freq_to_packed_bcd f) = f)
  /\ (0 <= f < 2 ^ 32 -> vfo <> "000"%char ->
      let field := kenwood_freq_field (Kenwood.build_freq_command vfo f) in
      Kenwood.build_freq_command vfo f = str "F" ++ [vfo] ++ field ++ str ";"
      /\ length field = 11%nat
      /\ Forall (fun c => 0 <= digit_value c <= 9) field
      /\ decimal_value field = f)
  /\ (0 <= f < 2 ^ 32 ->
      forall c s p,
        rx_frequency c = f ->
        Kenwood.ready_ s = true -> Kenwood.serial_ s = Some p ->
        exists field,
          nth_error (emitted (events (Kenwood.set_channel c s))) 0
          = Some (bytes_of (str "FA" ++ field ++ str ";"))
          /\ length field = 11%nat
          /\ Forall (fun c => 0 <= digit_value c <= 9) field
          /\ decimal_value field = f)
  /\ Kenwood.build_freq_command "000" f = str "F".
Proof.
  assert (HA : "A"%char <> "000"%char) by discriminate.
  split; [ | split; [ | split; [ | split; [ | split ] ] ] ].
  - apply icom_freq_roundtrip.
  - apply yaesu_freq_roundtrip.
  - intros Hf Hmul. rewrite yaesu_freq_roundtrip by exact Hf.
    Z.div_mod_to_equations; lia.
  - intros Hf Hvfo field. subst field.
    rewrite kenwood_freq_field_fmt by (try assumption; lia).
    split; [ apply build_freq_command_shape; [ assumption | lia ] | ].
    split; [ apply fmt_u_11_length | ].
    split; [ apply fmt_u_are_digits; lia | ].
    rewrite <- (kenwood_freq_field_fmt vfo f) by (try assumption; lia).
    apply kenwood_freq_roundtrip; assumption.
  - intros Hf c s p Hc Hready Hser.
    exists (kenwood_freq_field (Kenwood.build_freq_command "A" f)).
    rewrite (kenwood_set_channel_ok c s p Hready Hser).
    unfold events. cbn [snd]. rewrite emitted_route, Hc. cbn [nth_error].
    rewrite kenwood_freq_field_fmt by (try assumption; lia).
    split; [ rewrite build_freq_command_shape by (try assumption; lia);
             reflexivity | ].
    split; [ apply fmt_u_11_length | ].
    split; [ apply fmt_u_are_digits; lia | ].
    rewrite <- (kenwood_freq_field_fmt "A" f) by (try assumption; lia).
    apply kenwood_freq_roundtrip; assumption.
  - apply build_freq_command_nul.
Qed.

Lemma C2_frequency_roundtrip_witness :
  IcomCiv.bcd_to_freq (IcomCiv.freq_to_bcd 14250000 5) 5 = 14250000
  /\ YaesuCat.packed_bcd_to_freq (YaesuCat.freq_to_packed_bcd 14250007)
     = 14250000
  /\ YaesuCat.packed_bcd_to_freq (YaesuCat.freq_to_packed_bcd 14250000)
     = 14250000
  /\ decimal_value
       (kenwood_freq_field (Kenwood.build_freq_command "A" 14250000))
     = 14250000.
Proof.
  split; [ | split; [ | split ] ].
  - apply (proj1 (C2_frequency_roundtrip 14250000 "A")). lia.
  - apply (proj1 (proj2 (C2_frequency_roundtrip 14250007 "A"))). lia.
  - apply (proj1 (proj2 (proj2 (C2_frequency_roundtrip 14250000 "A"))));
      [ lia | reflexivity ].
  - apply (proj1 (proj2 (proj2 (proj2
             (C2_frequency_roundtrip 14250000 "A"))))).
    + lia.
    + discriminate.
Defined.

(** C3, as the code has it.  [set_channel] returns false, emits nothing and
    leaves the object as it was unless the codec is ready and was built on a
    serial collaborator; a registered send callback does not stand in for
    the serial collaborator.  When ready with a serial collaborator it
    returns true, stores the channel and emits the frequency command and
    then the mode command, both through the send callback when one is
    registered and through the serial collaborator otherwise. *)
Theorem C3_set_channel_gate (c : Channel) :
  (forall s,
      (forall p, Kenwood.ready_ s = true -> Kenwood.serial_ s = Some p ->
         Kenwood.set_channel c s
         = (true, Kenwood.with_channel c s,
            [ route (Kenwood.send_callback_ s) p
                (bytes_of (Kenwood.build_freq_command "A" (rx_frequency c)));
              route (Kenwood.send_callback_ s) p
                (bytes_of (Kenwood.build_mode_command (rx_mode c))) ]))
      /\ (Kenwood.ready_ s = false \/ Kenwood.serial_ s = None ->
          Kenwood.set_channel c s = (false, s, [])))
  /\ (forall s,
      (forall p, IcomCiv.ready_ s = true -> IcomCiv.serial_ s = Some p ->
         IcomCiv.set_channel c s
         = (true, IcomCiv.with_channel c s,
            [ route (IcomCiv.send_callback_ s) p
                (IcomCiv.build_frame s CivCommand.SET_FREQ
                   (IcomCiv.freq_to_bcd (rx_frequency c) 5));
              route (IcomCiv.send_callback_ s) p
                (IcomCiv.build_frame s CivCommand.SET_MODE
                   [u8 (IcomCiv.radio_mode_to_civ (rx_mode c))]) ]))
      /\ (IcomCiv.ready_ s = false \/ IcomCiv.serial_ s = None ->
          IcomCiv.set_channel c s = (false, s, [])))
  /\ (forall s,
      (forall p, YaesuCat.ready_ s = true -> YaesuCat.serial_ s = Some p ->
         YaesuCat.set_channel c s
         = (true, YaesuCat.with_channel c s,
            [ route (YaesuCat.send_callback_ s) p
                (YaesuCat.freq_to_packed_bcd (rx_frequency c)
                   ++ [YaesuCommand.SET_FREQ]);
              route (YaesuCat.send_callback_ s) p
                [ u8 (YaesuCat.radio_mode_to_yaesu (rx_mode c)); 0; 0; 0;
                  YaesuCommand.SET_MODE ] ]))
      /\ (YaesuCat.ready_ s = false \/ YaesuCat.serial_ s = None ->
          YaesuCat.set_channel c s = (false, s, []))).
Proof.
  split; [ | split ]; intros s; split.
  - intros p. apply kenwood_set_channel_ok.
  - apply kenwood_set_channel_fail.
  - intros p. apply icom_set_channel_ok.
  - apply icom_set_channel_fail.
  - intros p. apply yaesu_set_channel_ok.
  - apply yaesu_set_channel_fail.
Qed.

Lemma C3_set_channel_gate_witness :
  let k := after Kenwood.vtable [CInitialize; CRegisterSend (Some 7%nat)]
             (Kenwood.new (Some 0%nat)) in
  let k0 := after Kenwood.vtable [CRegisterSend (Some 7%nat)]
              (Kenwood.new (Some 0%nat)) in
  emitted (events (Kenwood.set_channel channel_14250000_usb k))
  = [bytes_of (str "FA00014250000;"); bytes_of (str "MD2;")]
  /\ Kenwood.set_channel channel_14250000_usb k0 = (false, k0, []).
Proof.
  intros k k0. split.
  - rewrite (proj1 (proj1 (C3_set_channel_gate channel_14250000_usb) k)
               0%nat eq_refl eq_refl).
    reflexivity.
  - apply (proj2 (proj1 (C3_set_channel_gate channel_14250000_usb) k0)).
    left. reflexivity.
Defined.

(** C3 as stated fails: a ready Kenwood codec built on a null serial
    pointer and holding a registered send callback refuses [set_channel]
    and emits nothing. *)
Lemma C3_counterexample :
  let s := after Kenwood.vtable [CInitialize; CRegisterSend (Some 7%nat)]
             (Kenwood.new None) in
  Kenwood.ready_ s = true
  /\ Kenwood.send_callback_ s = Some 7%nat
  /\ Kenwood.serial_ s = None
  /\ result (Kenwood.set_channel channel_14250000_usb s) = false
  /\ events (Kenwood.set_channel channel_14250000_usb s) = [].
Proof. repeat split. Qed.

(** C4, as the code has it.  Through each codec's pair of mode tables a
    mode comes back either unchanged or as the collapse listed for it, and
    every listed collapse happens.  Kenwood sends RTTY and FSK as the same
    code, which reads back as FSK.  Yaesu sends FSK and DIG, not RTTY, as
    the digital code; RTTY has no entry and goes out as the USB code. *)
Theorem C4_mode_roundtrip (m : RadioMode) :
  (kenwood_roundtrip m = m
   \/ collapse_in m (kenwood_roundtrip m) kenwood_collapses = true)
  /\ (civ_roundtrip m = m
      \/ collapse_in m (civ_roundtrip m) civ_collapses = true)
  /\ (yaesu_roundtrip m = m
      \/ collapse_in m (yaesu_roundtrip m) yaesu_collapses = true)
  /\ Forall (fun p => kenwood_roundtrip (fst p) = snd p) kenwood_collapses
  /\ Forall (fun p => civ_roundtrip (fst p) = snd p) civ_collapses
  /\ Forall (fun p => yaesu_roundtrip (fst p) = snd p) yaesu_collapses
  /\ (Kenwood.radio_mode_to_kenwood RTTY = Kenwood.radio_mode_to_kenwood FSK
      /\ Kenwood.kenwood_to_radio_mode (Kenwood.radio_mode_to_kenwood RTTY)
         = FSK)
  /\ (YaesuCat.radio_mode_to_yaesu FSK = YaesuMode.DIG
      /\ YaesuCat.radio_mode_to_yaesu DIG = YaesuMode.DIG
      /\ YaesuCat.radio_mode_to_yaesu RTTY = YaesuMode.USB
      /\ YaesuMode.USB <> YaesuMode.DIG).
Proof.
  split; [ | split; [ | split ] ].
  - destruct m; solve [ left; reflexivity | right; reflexivity ].
  - destruct m; solve [ left; reflexivity | right; reflexivity ].
  - destruct m; solve [ left; reflexivity | right; reflexivity ].
  - repeat split; try (repeat constructor). discriminate.
Qed.

(** C4 as stated fails: the Yaesu table does not send RTTY as the digital
    code. *)
Lemma C4_counterexample :
  ~ (YaesuCat.radio_mode_to_yaesu FSK = YaesuMode.DIG
     /\ YaesuCat.radio_mode_to_yaesu RTTY = YaesuMode.DIG).
Proof. intros [_ H]. discriminate H. Qed.

(** C5, as the code has it.  Kenwood: bytes without a semicolon raise no
    acknowledgement; they pile up while the buffer stays within 256 bytes
    and the byte that would make it 257 long silently empties it, so that
    after [n] such bytes the buffer holds [(size + n) mod 257] bytes; a
    semicolon after such bytes invokes a registered acknowledge callback
    exactly once and leaves the buffer empty.  Icom: the same for bytes
    without the end marker [0xFD]; an end marker that closes a buffer of at
    least 6 bytes beginning [0xFE 0xFE] leaves the buffer empty and invokes
    a registered acknowledge callback exactly once when the byte at offset
    4 is the ACK code [0xFB], and not at all otherwise.  Neither buffer
    ever holds more than 256 bytes between two calls. *)
Theorem C5_response_parsers :
  (forall data s,
      no_semicolon data -> (length (Kenwood.rx_buffer_ s) <= 256)%nat ->
      let r := Kenwood.process_response data s in
      let n := (length (Kenwood.rx_buffer_ s) + length data)%nat in
      count_acks (events r) = 0%nat
      /\ ((n <= 256)%nat ->
          Kenwood.rx_buffer_ (state_of r)
          = Kenwood.rx_buffer_ s ++ map char_of_byte data)
      /\ (n = 257%nat -> Kenwood.rx_buffer_ (state_of r) = [])
      /\ Z.of_nat (length (Kenwood.rx_buffer_ (state_of r)))
         = Z.of_nat n mod 257)
  /\ (forall data s f,
      no_semicolon data -> Kenwood.ack_callback_ s = Some f ->
      let r := Kenwood.process_response (data ++ [59]) s in
      events r = [AckInvoked f] /\ Kenwood.rx_buffer_ (state_of r) = [])
  /\ (forall data s,
      no_eom data -> (length (IcomCiv.rx_buffer_ s) <= 256)%nat ->
      let r := IcomCiv.process_response data s in
      let n := (length (IcomCiv.rx_buffer_ s) + length data)%nat in
      count_acks (events r) = 0%nat
      /\ ((n <= 256)%nat ->
          IcomCiv.rx_buffer_ (state_of r) = IcomCiv.rx_buffer_ s ++ data)
      /\ (n = 257%nat -> IcomCiv.rx_buffer_ (state_of r) = [])
      /\ Z.of_nat (length (IcomCiv.rx_buffer_ (state_of r)))
         = Z.of_nat n mod 257)
  /\ (forall s f,
      IcomCiv.ack_callback_ s = Some f ->
      let frame := IcomCiv.rx_buffer_ s ++ [CIV_EOM] in
      (6 <= length frame)%nat ->
      IcomCiv.at_ frame 0 = CIV_PREAMBLE ->
      IcomCiv.at_ frame 1 = CIV_PREAMBLE ->
      let r := IcomCiv.process_response [CIV_EOM] s in
      IcomCiv.rx_buffer_ (state_of r) = []
      /\ (IcomCiv.at_ frame 4 = CIV_ACK -> events r = [AckInvoked f])
      /\ (IcomCiv.at_ frame 4 <> CIV_ACK -> events r = []))
  /\ (forall data s,
      (length (Kenwood.rx_buffer_ s) <= 256)%nat ->
      (length (Kenwood.rx_buffer_
                 (state_of (Kenwood.process_response data s))) <= 256)%nat)
  /\ (forall data s,
      (length (IcomCiv.rx_buffer_ s) <= 256)%nat ->
      (length (IcomCiv.rx_buffer_
                 (state_of (IcomCiv.process_response data s))) <= 256)%nat).
Proof.
  repeat apply conj.
  - intros data s Hno Hbuf r n. subst r n.
    rewrite kenwood_process_response_eq. unfold state_of, events.
    destruct s as [ser ch tx rdy scb acb buf]. read_fields.
    cbn [Kenwood.with_rx_buffer Kenwood.rx_buffer_].
    rewrite kenwood_acks_none by exact Hno.
    split; [ reflexivity | split; [ | split ] ].
    + intros Hn. apply kenwood_feed_accumulates; assumption.
    + intros Hn. apply kenwood_feed_overflow; assumption.
    + rewrite Nat2Z.inj_add. apply kenwood_feed_length; assumption.
  - intros data s f Hno Hack r. subst r.
    rewrite kenwood_process_response_eq. unfold state_of, events.
    destruct s as [ser ch tx rdy scb acb buf]. read_fields. subst acb.
    cbn [Kenwood.with_rx_buffer Kenwood.rx_buffer_]. split.
    + unfold kenwood_acks. rewrite flat_map_app.
      fold (kenwood_acks (Some f) data).
      rewrite kenwood_acks_none by exact Hno. reflexivity.
    + rewrite kenwood_feed_app. reflexivity.
  - intros data s Hno Hbuf r n. subst r n.
    rewrite civ_process_response_eq. unfold state_of, events.
    destruct s as [ser ra ca ch tx rdy scb acb buf]. read_fields.
    cbn [IcomCiv.with_rx_buffer IcomCiv.rx_buffer_].
    rewrite civ_acks_none by exact Hno.
    split; [ reflexivity | split; [ | split ] ].
    + intros Hn. apply civ_feed_accumulates; assumption.
    + intros Hn. apply civ_feed_overflow; assumption.
    + rewrite Nat2Z.inj_add. apply civ_feed_length; assumption.
  - intros s f Hack frame Hlen H0 H1 r. subst r frame.
    rewrite civ_process_response_eq. unfold state_of, events.
    destruct s as [ser ra ca ch tx rdy scb acb buf]. read_fields. subst acb.
    cbn [IcomCiv.with_rx_buffer IcomCiv.rx_buffer_ civ_acks civ_feed fold_left].
    unfold civ_buffer_after, civ_is_ack_frame.
    rewrite H0, H1, !Z.eqb_refl.
    replace (6 <=? Z.of_nat (length (buf ++ [CIV_EOM]))) with true
      by (symmetry; apply Z.leb_le; lia).
    cbn [andb]. rewrite app_nil_r.
    split; [ reflexivity | split ]; intros H4.
    + rewrite H4, Z.eqb_refl. reflexivity.
    + apply Z.eqb_neq in H4. rewrite H4. reflexivity.
  - intros data s Hbuf. rewrite kenwood_process_response_eq.
    unfold state_of. destruct s as [ser ch tx rdy scb acb buf]. read_fields.
    cbn [Kenwood.with_rx_buffer Kenwood.rx_buffer_].
    apply kenwood_feed_bound, Hbuf.
  - intros data s Hbuf. rewrite civ_process_response_eq.
    unfold state_of. destruct s as [ser ra ca ch tx rdy scb acb buf].
    read_fields. cbn [IcomCiv.with_rx_buffer IcomCiv.rx_buffer_].
    apply civ_feed_bound, Hbuf.
Qed.

Lemma no_semicolon_repeat (b : Z) (n : nat) :
  Ascii.eqb (char_of_byte b) ";" = false -> no_semicolon (repeat b n).
Proof.
  intros Hb. apply Forall_forall. intros x Hx.
  apply repeat_spec in Hx. subst x. exact Hb.
Qed.

Lemma C5_response_parsers_witness :
  (let k := after Kenwood.vtable [CInitialize; CRegisterAck (Some 3%nat)]
              (Kenwood.new (Some 0%nat)) in
   Kenwood.rx_buffer_
     (state_of (Kenwood.process_response (repeat 0x41 257) k)) = []
   /\ count_acks (events (Kenwood.process_response (repeat 0x41 257) k))
      = 0%nat
   /\ events (Kenwood.process_response ([0x46; 0x41] ++ [59]) k)
      = [AckInvoked 3%nat])
  /\ (let i := after IcomCiv.vtable
                 [CInitialize; CRegisterAck (Some 3%nat);
                  CProcessResponse [0xFE; 0xFE; 0xE0; 0x94; 0xFB]]
                 (IcomCiv.new (Some 0%nat) 0x94) in
      events (IcomCiv.process_response [CIV_EOM] i) = [AckInvoked 3%nat]
      /\ IcomCiv.rx_buffer_ (state_of (IcomCiv.process_response [CIV_EOM] i))
         = []).
Proof.
  destruct C5_response_parsers as (K1 & K2 & _ & I2 & _).
  split.
  - intros k.
    destruct (K1 (repeat 0x41 257) k
                (no_semicolon_repeat 0x41 257 eq_refl)
                (Nat.le_0_l 256)) as (Hacks & _ & Hclear & _).
    split; [ apply Hclear; reflexivity | split; [ exact Hacks | ] ].
    apply (K2 [0x46; 0x41] k 3%nat); [ repeat constructor | reflexivity ].
  - intros i.
    assert (Hlen : (6 <= length (IcomCiv.rx_buffer_ i ++ [CIV_EOM]))%nat)
      by (vm_compute; lia).
    destruct (I2 i 3%nat eq_refl Hlen eq_refl eq_refl) as (Hbuf & Hack & _).
    split; [ apply Hack; reflexivity | exact Hbuf ].
Defined.

(** C5 as stated fails: a well-formed six-byte frame that carries the NAK
    code ends in the end marker and begins with the double preamble, yet
    the acknowledge callback is not invoked. *)
Lemma C5_counterexample :
  let s := after IcomCiv.vtable [CInitialize; CRegisterAck (Some 3%nat)]
             (IcomCiv.new (Some 0%nat) 0x94) in
  let r := IcomCiv.process_response civ_nak_frame s in
  IcomCiv.ack_callback_ s = Some 3%nat
  /\ length civ_nak_frame = 6%nat
  /\ IcomCiv.at_ civ_nak_frame 0 = CIV_PREAMBLE
  /\ IcomCiv.at_ civ_nak_frame 1 = CIV_PREAMBLE
  /\ IcomCiv.at_ civ_nak_frame 5 = CIV_EOM
  /\ count_acks (events r) = 0%nat
  /\ IcomCiv.rx_buffer_ (state_of r) = [].
Proof. repeat split. Qed.

(** ** Elecraft and Kenwood *)

Lemma elecraft_dispatch_inherited c s :
  c <> CGetPortConfig ->
  dispatch Elecraft.vtable c s = dispatch Kenwood.vtable c s.
Proof. destruct c; intros Hc; try reflexivity. contradiction. Qed.

Lemma elecraft_dispatch_frame c s :
  Kenwood.current_channel_ (state_of (dispatch Elecraft.vtable c s))
  = accepted c (result (dispatch Elecraft.vtable c s))
      (Kenwood.current_channel_ s).
Proof.
  assert (Hc : c = CGetPortConfig \/ c <> CGetPortConfig)
    by (destruct c; (left; reflexivity) || (right; discriminate)).
  destruct Hc as [-> | Hc]; [ reflexivity | ].
  rewrite (elecraft_dispatch_inherited c s Hc).
  apply kenwood_dispatch_frame.
Qed.

(** ** [get_channel] *)

Lemma kenwood_tracks serial :
  tracks_last_accepted Kenwood.vtable (Kenwood.new serial).
Proof.
  split; [ reflexivity | ]. split; [ | split ].
  - intros c s. cbn [set_channel get_channel Kenwood.vtable].
    destruct (Kenwood.ready_ s) eqn:Hr, (Kenwood.serial_ s) eqn:Hs;
      try (rewrite (kenwood_set_channel_ok c s _ Hr Hs); intros _;
           destruct s; reflexivity);
      rewrite kenwood_set_channel_fail by auto; discriminate.
  - intros c s. cbn [set_channel get_channel Kenwood.vtable].
    destruct (Kenwood.ready_ s) eqn:Hr, (Kenwood.serial_ s) eqn:Hs;
      try (rewrite (kenwood_set_channel_ok c s _ Hr Hs); discriminate);
      rewrite kenwood_set_channel_fail by auto; reflexivity.
  - intros calls. apply run_tracks; [ | reflexivity ].
    intros c s. apply kenwood_dispatch_frame.
Qed.

Lemma elecraft_tracks serial :
  tracks_last_accepted Elecraft.vtable (Elecraft.new serial).
Proof.
  destruct (kenwood_tracks serial) as (H0 & H1 & H2 & _).
  split; [ exact H0 | ]. split; [ exact H1 | ]. split; [ exact H2 | ].
  intros calls. apply run_tracks; [ | reflexivity ].
  intros c s. apply elecraft_dispatch_frame.
Qed.

Lemma icom_tracks serial addr :
  tracks_last_accepted IcomCiv.vtable (IcomCiv.new serial addr).
Proof.
  split; [ reflexivity | ]. split; [ | split ].
  - intros c s. cbn [set_channel get_channel IcomCiv.vtable].
    destruct (IcomCiv.ready_ s) eqn:Hr, (IcomCiv.serial_ s) eqn:Hs;
      try (rewrite (icom_set_channel_ok c s _ Hr Hs); intros _;
           destruct s; reflexivity);
      rewrite icom_set_channel_fail by auto; discriminate.
  - intros c s. cbn [set_channel get_channel IcomCiv.vtable].
    destruct (IcomCiv.ready_ s) eqn:Hr, (IcomCiv.serial_ s) eqn:Hs;
      try (rewrite (icom_set_channel_ok c s _ Hr Hs); discriminate);
      rewrite icom_set_channel_fail by auto; reflexivity.
  - intros calls. apply run_tracks; [ | reflexivity ].
    intros c s. apply icom_dispatch_frame.
Qed.

Lemma yaesu_tracks serial :
  tracks_last_accepted YaesuCat.vtable (YaesuCat.new serial).
Proof.
  split; [ reflexivity | ]. split; [ | split ].
  - intros c s. cbn [set_channel get_channel YaesuCat.vtable].
    destruct (YaesuCat.ready_ s) eqn:Hr, (YaesuCat.serial_ s) eqn:Hs;
      try (rewrite (yaesu_set_channel_ok c s _ Hr Hs); intros _;
           destruct s; reflexivity);
      rewrite yaesu_set_channel_fail by auto; discriminate.
  - intros c s. cbn [set_channel get_channel YaesuCat.vtable].
    destruct (YaesuCat.ready_ s) eqn:Hr, (YaesuCat.serial_ s) eqn:Hs;
      try (rewrite (yaesu_set_channel_ok c s _ Hr Hs); discriminate);
      rewrite yaesu_set_channel_fail by auto; reflexivity.
  - intros calls. apply run_tracks; [ | reflexivity ].
    intros c s. apply yaesu_dispatch_frame.
Qed.

(** C6.  For each codec [get_channel] returns the last channel that
    [set_channel] accepted: a fresh object holds the default channel; after
    a [set_channel c] that returns true, [get_channel] is [c]; after one
    that returns false the stored channel is unchanged; and at the end of
    any session of interface calls on a fresh object, [get_channel] is the
    argument of the last [set_channel] call that returned true, or the
    default channel when there was none. *)
Theorem C6_get_channel_last_accepted (serial : option ISerial) (addr : Z) :
  tracks_last_accepted Kenwood.vtable (Kenwood.new serial)
  /\ tracks_last_accepted Elecraft.vtable (Elecraft.new serial)
  /\ tracks_last_accepted IcomCiv.vtable (IcomCiv.new serial addr)
  /\ tracks_last_accepted YaesuCat.vtable (YaesuCat.new serial).
Proof.
  split; [ apply kenwood_tracks | ].
  split; [ apply elecraft_tracks | ].
  split; [ apply icom_tracks | apply yaesu_tracks ].
Qed.

Lemma C6_get_channel_last_accepted_witness :
  let k := after Kenwood.vtable [CInitialize] (Kenwood.new (Some 0%nat)) in
  let k0 := Kenwood.new (Some 0%nat) in
  get_channel Kenwood.vtable
    (state_of (set_channel Kenwood.vtable channel_14250000_usb k))
  = channel_14250000_usb
  /\ get_channel Kenwood.vtable
       (state_of (set_channel Kenwood.vtable channel_14250000_usb k0))
     = Channel_default.
Proof.
  intros k k0.
  destruct (C6_get_channel_last_accepted (Some 0%nat) 0x94)
    as ((_ & Hacc & Hrej & _) & _).
  split.
  - apply Hacc. reflexivity.
  - rewrite Hrej; reflexivity.
Defined.

(** ** Elecraft's own commands *)

Lemma fmt_d_three_digits w : 0 <= w <= 999 -> fmt_d 3 w = three_digits w.
Proof.
  intros Hw.
  pose proof (by_enumeration 1000
                (fun w => if list_eq_dec ascii_dec (fmt_d 3 w) (three_digits w)
                          then true else false)) as H.
  specialize (H ltac:(vm_compute; reflexivity) w ltac:(lia)).
  cbv beta in H.
  destruct (list_eq_dec ascii_dec (fmt_d 3 w) (three_digits w));
    [ assumption | discriminate ].
Qed.

Lemma fmt_d_one_digit a : 0 <= a <= 9 -> fmt_d 0 a = [digit_char a].
Proof.
  intros Ha. unfold fmt_d. cbn [dec_digits].
  destruct (Z.ltb_spec a 0); [ lia | ].
  destruct (Z.ltb_spec a 10); [ reflexivity | lia ].
Qed.

(** C9.  An Elecraft object is a Kenwood object: it is constructed the same
    way and every call through the interface other than [get_port_config]
    returns the same value, leaves the same state and produces the same
    events as on a Kenwood object in the same state.  [get_port_config] is
    ["38400,n,8,1"] where Kenwood has ["9600,n,8,1"].  [set_power] sends
    ["PC"], the watts on three digits and [";"], and [set_antenna] sends
    ["AN"], the digit and [";"], both through [Kenwood::send_command]. *)
Theorem C9_elecraft_is_kenwood :
  (forall serial, Elecraft.new serial = Kenwood.new serial)
  /\ (forall call s,
         call <> CGetPortConfig ->
         dispatch Elecraft.vtable call s = dispatch Kenwood.vtable call s)
  /\ (forall s,
         get_port_config Elecraft.vtable s = str "38400,n,8,1"
         /\ get_port_config Kenwood.vtable s = str "9600,n,8,1")
  /\ (forall watts s,
         0 <= watts <= 999 ->
         Elecraft.set_power watts s
         = Kenwood.send_command (str "PC" ++ three_digits watts ++ str ";") s)
  /\ (forall ant s,
         0 <= ant <= 9 ->
         Elecraft.set_antenna ant s
         = Kenwood.send_command (str "AN" ++ [digit_char ant] ++ str ";") s).
Proof.
  split; [ reflexivity | ].
  split; [ exact elecraft_dispatch_inherited | ].
  split; [ intros s; split; reflexivity | ].
  split.
  - intros watts s Hw. unfold Elecraft.set_power.
    rewrite fmt_d_three_digits by exact Hw.
    rewrite string_of_buf_id; [ reflexivity | ].
    unfold three_digits.
    assert (0 <= watts / 100 <= 9) by (Z.div_mod_to_equations; lia).
    pose proof (Z.mod_pos_bound (watts / 10) 10).
    pose proof (Z.mod_pos_bound watts 10).
    repeat constructor; apply digit_char_not_nul; lia.
  - intros ant s Ha. unfold Elecraft.set_antenna.
    rewrite fmt_d_one_digit by exact Ha.
    rewrite string_of_buf_id; [ reflexivity | ].
    repeat constructor. apply digit_char_not_nul, Ha.
Qed.

Lemma C9_elecraft_is_kenwood_witness :
  let e := after Elecraft.vtable [CInitialize; CRegisterSend (Some 7%nat)]
             (Elecraft.new (Some 0%nat)) in
  dispatch Elecraft.vtable (CSetChannel channel_14250000_usb) e
  = dispatch Kenwood.vtable (CSetChannel channel_14250000_usb) e
  /\ events (Elecraft.set_power 5 e)
     = [CallbackSend 7%nat (bytes_of (str "PC005;"))]
  /\ events (Elecraft.set_antenna 2 e)
     = [CallbackSend 7%nat (bytes_of (str "AN2;"))].
Proof.
  intros e.
  destruct C9_elecraft_is_kenwood as (_ & Hsame & _ & Hpower & Hant).
  split; [ apply Hsame; discriminate | ].
  split.
  - rewrite Hpower by lia. reflexivity.
  - rewrite Hant by lia. reflexivity.
Defined.

(** ** The resampler *)

Lemma size_t_of_small z : 0 <= z < 2 ^ 64 -> size_t_of z = z.
Proof. intros. unfold size_t_of. apply Z.mod_small. lia. Qed.

Lemma vec_store_some {A} (v : list A) :
  forall i x, (i < length v)%nat ->
              exists v', vec_store v i x = Some v' /\ length v' = length v.
Proof.
  induction v as [|y rest IH]; intros i x Hi; simpl in Hi; [lia|].
  destruct i as [|j]; cbn [vec_store].
  - eexists. split; reflexivity.
  - destruct (IH j x ltac:(lia)) as (v' & -> & Hlen).
    eexists. split; [ reflexivity | simpl; lia ].
Qed.

Lemma vec_store_Forall {A} (P : A -> Prop) (v : list A) :
  forall i x v', vec_store v i x = Some v' -> Forall P v -> P x -> Forall P v'.
Proof.
  induction v as [|y rest IH]; intros i x v' Hst Hv Hx; [discriminate|].
  inversion Hv as [|? ? Hy Hrest]; subst.
  destruct i as [|j]; cbn [vec_store] in Hst.
  - injection Hst as <-. constructor; assumption.
  - destruct (vec_store rest j x) as [w|] eqn:Hw; [ | discriminate ].
    injection Hst as <-. constructor; [ assumption | ].
    eapply IH; eassumption.
Qed.

Lemma same_filter_refl r : same_filter r r.
Proof. repeat split. Qed.

Lemma same_filter_trans r1 r2 r3 :
  same_filter r1 r2 -> same_filter r2 r3 -> same_filter r1 r3.
Proof.
  unfold same_filter. intros (A1 & A2 & A3 & A4) (B1 & B2 & B3 & B4).
  repeat split; congruence.
Qed.

Lemma push_wf x r :
  Resampler.wf r ->
  exists r', Resampler.push x r = Some r' /\ Resampler.wf r'
             /\ same_filter r r'
             /\ (silent r -> Resampler.is_zero x = true -> silent r').
Proof.
  intros [Hratio Htotal Hco Hhi Hpos]. unfold INT_MAX in *.
  unfold Resampler.push.
  destruct (vec_store_some (Resampler.history_ r)
              (Z.to_nat (Resampler.history_pos_ r)) x ltac:(lia))
    as (h & Hst & Hlen).
  rewrite Hst. cbn [ub_bind]. unfold size_t_rem.
  rewrite (size_t_of_small (_ + 1)),
    (size_t_of_small (Resampler.total_taps_ r)) by lia.
  destruct (Z.eqb_spec (Resampler.total_taps_ r) 0) as [|_]; [lia|].
  cbn [ub_bind]. eexists. split; [ reflexivity | ].
  pose proof (Z.mod_pos_bound (Resampler.history_pos_ r + 1)
                (Resampler.total_taps_ r) ltac:(lia)).
  split; [ | split ].
  - destruct r; constructor; cbn in *; unfold INT_MAX; lia.
  - destruct r; repeat split.
  - intros Hs Hx. unfold silent in *. destruct r; cbn in *.
    eapply vec_store_Forall; eassumption.
Qed.

Lemma apply_filter_loop_wf r :
  Resampler.wf r ->
  forall n i sum,
    0 <= i -> i + Z.of_nat n = Resampler.total_taps_ r ->
    exists y, Resampler.apply_filter_loop r n i sum = Some y
              /\ (silent r -> finite_coeffs r -> sum = Resampler.fzero ->
                  y = Resampler.fzero).
Proof.
  intros [Hratio Htotal Hco Hhi Hpos]. unfold INT_MAX in *.
  induction n as [|k IH]; intros i sum Hi Hn.
  - eexists. split; [ reflexivity | auto ].
  - cbn [Resampler.apply_filter_loop]. unfold size_t_rem.
    rewrite (size_t_of_small i), (size_t_of_small (_ + i)),
      (size_t_of_small (Resampler.total_taps_ r)) by lia.
    destruct (Z.eqb_spec (Resampler.total_taps_ r) 0) as [|_]; [lia|].
    cbn [ub_bind].
    pose proof (Z.mod_pos_bound (Resampler.history_pos_ r + i)
                  (Resampler.total_taps_ r) ltac:(lia)) as Hidx.
    destruct (nth_error (Resampler.history_ r)
                (Z.to_nat ((Resampler.history_pos_ r + i)
                           mod Resampler.total_taps_ r))) as [h|] eqn:Hh;
      [ | apply nth_error_None in Hh; lia ].
    destruct (nth_error (Resampler.coeffs_ r) (Z.to_nat i)) as [c|] eqn:Hc;
      [ | apply nth_error_None in Hc; lia ].
    cbn [ub_bind].
    destruct (IH (i + 1) (Resampler.fadd sum (Resampler.fmul h c))
                ltac:(lia) ltac:(lia)) as (y & Hy & Hzero).
    exists y. split; [ exact Hy | ].
    intros Hs Hf ->. apply Hzero; try assumption.
    apply nth_error_In in Hh, Hc.
    unfold silent, finite_coeffs in *. rewrite Forall_forall in Hs, Hf.
    specialize (Hs h Hh). specialize (Hf c Hc).
    destruct h; try discriminate. destruct c; try discriminate;
      cbn; destruct (xorb s s0); reflexivity.
Qed.

Lemma apply_filter_wf r :
  Resampler.wf r ->
  exists y, Resampler.apply_filter r = Some y
            /\ (silent r -> finite_coeffs r -> y = Resampler.fzero).
Proof.
  intros Hwf. pose proof (Resampler.wf_total r Hwf).
  destruct (apply_filter_loop_wf r Hwf (Z.to_nat (Resampler.total_taps_ r))
              0 Resampler.fzero ltac:(lia) ltac:(lia)) as (y & Hy & Hz).
  exists y. split; [ exact Hy | auto ].
Qed.

(** Multiples of [R] among [i+1 .. i+n], counted by quotients. *)
Lemma quotient_step i R :
  0 <= i -> 1 <= R ->
  (i + 1) / R = if (i + 1) mod R =? 0 then i / R + 1 else i / R.
Proof.
  intros Hi HR. destruct (Z.eqb_spec ((i + 1) mod R) 0) as [Hz|Hnz];
    Z.div_mod_to_equations; nia.
Qed.

Lemma decimate_loop_wf input :
  forall i r out,
    Resampler.wf r -> 0 <= i -> i + Z.of_nat (length input) < 2 ^ 64 ->
    exists r' out',
      Resampler.decimate_loop input i r out = Some (r', out')
      /\ Resampler.wf r' /\ same_filter r r'
      /\ Z.of_nat (length out')
         = Z.of_nat (length out)
           + (i + Z.of_nat (length input)) / Resampler.ratio_ r
           - i / Resampler.ratio_ r
      /\ (silent r -> finite_coeffs r ->
          Forall (fun x => Resampler.is_zero x = true) input ->
          Forall (fun y => y = Resampler.fzero) out ->
          silent r' /\ Forall (fun y => y = Resampler.fzero) out').
Proof.
  induction input as [|x rest IH]; intros i r out Hwf Hi Hlen.
  - exists r, out. split; [ reflexivity | ].
    split; [ exact Hwf | ]. split; [ apply same_filter_refl | ].
    split; [ cbn [length]; rewrite Z.add_0_r; lia | auto ].
  - cbn [length] in Hlen. rewrite Nat2Z.inj_succ in Hlen.
    cbn [Resampler.decimate_loop].
    destruct (push_wf x r Hwf) as (r1 & -> & Hwf1 & Hsame1 & Hsil1).
    cbn [ub_bind]. unfold size_t_rem.
    pose proof (Resampler.wf_ratio r1 Hwf1) as Hratio. unfold INT_MAX in Hratio.
    rewrite (size_t_of_small (i + 1)),
      (size_t_of_small (Resampler.ratio_ r1)) by lia.
    destruct (Z.eqb_spec (Resampler.ratio_ r1) 0) as [|_]; [lia|].
    cbn [ub_bind].
    assert (HR : Resampler.ratio_ r1 = Resampler.ratio_ r)
      by (destruct Hsame1 as (H & _); exact H).
    pose proof (quotient_step i (Resampler.ratio_ r1) Hi ltac:(lia)) as Hq.
    cbn [length]. rewrite Nat2Z.inj_succ.
    replace (i + Z.succ (Z.of_nat (length rest)))
      with ((i + 1) + Z.of_nat (length rest)) by lia.
    destruct ((i + 1) mod Resampler.ratio_ r1 =? 0).
    + destruct (apply_filter_wf r1 Hwf1) as (y & -> & Hy).
      cbn [ub_bind].
      destruct (IH (i + 1) r1 (out ++ [y]) Hwf1 ltac:(lia) ltac:(lia))
        as (r' & out' & Hrun & Hwf' & Hsame' & Hcount & Hzero).
      exists r', out'. split; [ exact Hrun | ].
      split; [ exact Hwf' | ].
      split; [ eapply same_filter_trans; eassumption | ].
      split.
      * rewrite Hcount, length_app, Nat2Z.inj_add, HR in *. cbn [length].
        lia.
      * intros Hs Hf Hin Hout. inversion Hin as [|? ? Hx Hrest]; subst.
        apply Hzero; try assumption.
        -- apply Hsil1; assumption.
        -- unfold finite_coeffs in *.
           destruct Hsame1 as (_ & _ & _ & ->). exact Hf.
        -- apply Forall_app. split; [ exact Hout | ].
           constructor; [ | constructor ].
           apply Hy; [ apply Hsil1; assumption | ].
           unfold finite_coeffs in *.
           destruct Hsame1 as (_ & _ & _ & ->). exact Hf.
    + destruct (IH (i + 1) r1 out Hwf1 ltac:(lia) ltac:(lia))
        as (r' & out' & Hrun & Hwf' & Hsame' & Hcount & Hzero).
      exists r', out'. split; [ exact Hrun | ].
      split; [ exact Hwf' | ].
      split; [ eapply same_filter_trans; eassumption | ].
      split.
      * rewrite Hcount, HR in *. lia.
      * intros Hs Hf Hin Hout. inversion Hin as [|? ? Hx Hrest]; subst.
        apply Hzero; try assumption.
        -- apply Hsil1; assumption.
        -- unfold finite_coeffs in *.
           destruct Hsame1 as (_ & _ & _ & ->). exact Hf.
Qed.

(** *** The two loops as runs of pushes *)

Lemma push_ratio x r r1 :
  Resampler.push x r = Some r1 -> Resampler.ratio_ r1 = Resampler.ratio_ r.
Proof.
  unfold Resampler.push.
  destruct (vec_store _ _ _); [ | discriminate ]. cbn [ub_bind].
  destruct (size_t_rem _ _); [ | discriminate ]. cbn [ub_bind].
  intros [= <-]. reflexivity.
Qed.

Lemma decimate_loop_pushes input :
  forall i r out r' out',
    Resampler.decimate_loop input i r out = Some (r', out') ->
    push_all input r = Some r'.
Proof.
  induction input as [|x rest IH]; intros i r out r' out' Hrun.
  - cbn in Hrun. injection Hrun as <- _. reflexivity.
  - cbn [Resampler.decimate_loop push_all] in *.
    destruct (Resampler.push x r) as [r1|]; [ | discriminate ].
    cbn [ub_bind] in *.
    destruct (size_t_rem _ _) as [phase|]; [ | discriminate ].
    cbn [ub_bind] in Hrun.
    destruct (phase =? 0).
    + destruct (Resampler.apply_filter r1) as [y|]; [ | discriminate ].
      cbn [ub_bind] in Hrun. eapply IH, Hrun.
    + eapply IH, Hrun.
Qed.

Lemma push_and_filter_ratio samples :
  forall r out r' out',
    push_and_filter samples r out = Some (r', out') ->
    Resampler.ratio_ r' = Resampler.ratio_ r.
Proof.
  induction samples as [|x rest IH]; intros r out r' out' Hrun.
  - cbn in Hrun. injection Hrun as <- _. reflexivity.
  - cbn [push_and_filter] in Hrun.
    destruct (Resampler.push x r) as [r1|] eqn:Hpush; [ | discriminate ].
    cbn [ub_bind] in Hrun.
    destruct (Resampler.apply_filter r1) as [y|]; [ | discriminate ].
    cbn [ub_bind] in Hrun.
    rewrite (IH _ _ _ _ Hrun). eapply push_ratio, Hpush.
Qed.

Lemma push_and_filter_app s1 s2 :
  forall r out,
    push_and_filter (s1 ++ s2) r out
    = ub_bind (push_and_filter s1 r out)
        (fun p => push_and_filter s2 (fst p) (snd p)).
Proof.
  induction s1 as [|x rest IH]; intros r out; [ reflexivity | ].
  cbn [app push_and_filter].
  destruct (Resampler.push x r) as [r1|]; [ | reflexivity ]. cbn [ub_bind].
  destruct (Resampler.apply_filter r1) as [y|]; [ | reflexivity ].
  cbn [ub_bind]. apply IH.
Qed.

(** After the first phase the samples pushed are zeros. *)
Lemma interpolate_phases_zeros x n :
  forall phase r out,
    1 <= phase ->
    Resampler.interpolate_phases x n phase r out
    = push_and_filter (repeat Resampler.fzero n) r out.
Proof.
  induction n as [|k IH]; intros phase r out Hphase; [ reflexivity | ].
  cbn [Resampler.interpolate_phases repeat push_and_filter].
  destruct (Z.eqb_spec phase 0) as [|_]; [ lia | ].
  destruct (Resampler.push Resampler.fzero r) as [r1|]; [ | reflexivity ].
  cbn [ub_bind].
  destruct (Resampler.apply_filter r1) as [y|]; [ | reflexivity ].
  cbn [ub_bind]. apply IH. lia.
Qed.

Lemma interpolate_phases_stuffed x r out :
  1 <= Resampler.ratio_ r ->
  Resampler.interpolate_phases x (Z.to_nat (Resampler.ratio_ r)) 0 r out
  = push_and_filter (zero_stuffed (Resampler.ratio_ r) x) r out.
Proof.
  intros Hratio. unfold zero_stuffed.
  destruct (Z.to_nat (Resampler.ratio_ r)) as [|k] eqn:Hk; [ lia | ].
  cbn [Resampler.interpolate_phases push_and_filter Z.eqb].
  replace (S k - 1)%nat with k by lia.
  destruct (Resampler.push _ r) as [r1|]; [ | reflexivity ]. cbn [ub_bind].
  destruct (Resampler.apply_filter r1) as [y|]; [ | reflexivity ].
  cbn [ub_bind]. apply interpolate_phases_zeros. lia.
Qed.

Lemma interpolate_loop_stuffed input :
  forall r out,
    1 <= Resampler.ratio_ r ->
    Resampler.interpolate_loop input r out
    = push_and_filter (flat_map (zero_stuffed (Resampler.ratio_ r)) input)
        r out.
Proof.
  induction input as [|x rest IH]; intros r out Hratio; [ reflexivity | ].
  cbn [Resampler.interpolate_loop flat_map].
  rewrite push_and_filter_app, interpolate_phases_stuffed by exact Hratio.
  destruct (push_and_filter (zero_stuffed (Resampler.ratio_ r) x) r out)
    as [[r1 out1]|] eqn:Hrun; [ | reflexivity ].
  cbn [ub_bind fst snd].
  pose proof (push_and_filter_ratio _ _ _ _ _ Hrun) as HR.
  rewrite IH by lia. rewrite HR. reflexivity.
Qed.

(** *** The conversion [int -> float] never overflows *)

Lemma digits2_pos_iter_xO k : forall p,
  Zpos (digits2_pos (Pos.iter xO p k)) = Zpos (digits2_pos p) + Zpos k.
Proof.
  induction k using Pos.peano_ind; intros p.
  - cbn. lia.
  - rewrite Pos.iter_succ. cbn [digits2_pos]. rewrite Pos2Z.inj_succ, IHk. lia.
Qed.

Lemma digits2_pos_bound p : forall k : nat,
  Zpos p < 2 ^ Z.of_nat k -> Zpos (digits2_pos p) <= Z.of_nat k.
Proof.
  induction p as [p IH|p IH|]; intros k Hk.
  - destruct k as [|k]; [ cbn in Hk; lia | ].
    rewrite Nat2Z.inj_succ, Z.pow_succ_r in Hk by lia.
    cbn [digits2_pos]. rewrite Pos2Z.inj_succ, Nat2Z.inj_succ.
    specialize (IH k ltac:(lia)). lia.
  - destruct k as [|k]; [ cbn in Hk; lia | ].
    rewrite Nat2Z.inj_succ, Z.pow_succ_r in Hk by lia.
    cbn [digits2_pos]. rewrite Pos2Z.inj_succ, Nat2Z.inj_succ.
    specialize (IH k ltac:(lia)). lia.
  - destruct k as [|k]; [ cbn in Hk; lia | ]. cbn [digits2_pos]. lia.
Qed.

Lemma digits2_pos_succ p :
  Zpos (digits2_pos (Pos.succ p)) <= Zpos (digits2_pos p) + 1.
Proof.
  induction p as [p IH|p IH|]; cbn [Pos.succ digits2_pos];
    rewrite ?Pos2Z.inj_succ; lia.
Qed.

Lemma Zdigits2_succ m : 0 <= m -> Zdigits2 (m + 1) <= Zdigits2 m + 1.
Proof.
  destruct m as [|p|p]; intros Hm; [ cbn; lia | | lia ].
  change (Zpos p + 1) with (Zpos (p + 1)). rewrite Pos.add_1_r.
  cbn [Zdigits2]. apply digits2_pos_succ.
Qed.

Lemma shr_1_small D r : small_record D r -> small_record D (shr_1 r).
Proof.
  destruct r as [m rb sb]. unfold small_record. cbn [shr_m].
  destruct m as [|[p|p|]|p]; cbn [shr_1 shr_m Zdigits2 digits2_pos];
    rewrite ?Pos2Z.inj_succ; lia.
Qed.

Lemma iter_pos_inv {A} (P : A -> Prop) (f : A -> A) :
  (forall x, P x -> P (f x)) -> forall n x, P x -> P (iter_pos f n x).
Proof.
  intros Hf. induction n as [n IH|n IH|]; intros x Hx; cbn [iter_pos]; auto.
Qed.

Lemma shr_fexp_small D m e l :
  0 <= m -> Zdigits2 m <= D ->
  small_record D (fst (shr_fexp 24 128 m e l))
  /\ snd (shr_fexp 24 128 m e l) <= Z.max e (Z.max (D + e - 24) (-149)).
Proof.
  intros Hm HD. unfold shr_fexp, shr, fexp, emin.
  assert (Hrec : small_record D (shr_record_of_loc m l))
    by (destruct l as [|[]]; split; assumption).
  destruct (Z.max (Zdigits2 m + e - 24) (3 - 128 - 24) - e) as [|n|n] eqn:Hn;
    cbn [fst snd].
  - split; [ exact Hrec | lia ].
  - split; [ apply iter_pos_inv; [ apply shr_1_small | exact Hrec ] | lia ].
  - split; [ exact Hrec | lia ].
Qed.

Lemma round_nearest_even_small D r :
  small_record D r ->
  0 <= round_nearest_even (shr_m r) (loc_of_shr_record r)
  /\ Zdigits2 (round_nearest_even (shr_m r) (loc_of_shr_record r)) <= D + 1.
Proof.
  intros [Hm HD]. pose proof (Zdigits2_succ (shr_m r) Hm).
  unfold round_nearest_even.
  destruct (loc_of_shr_record r) as [|[]]; try destruct (Z.even (shr_m r)); lia.
Qed.

Lemma binary_round_aux_finite sx mx ex lx :
  0 <= mx -> Zdigits2 mx <= 32 -> ex <= 0 ->
  Resampler.is_finite (binary_round_aux 24 128 sx mx ex lx) = true.
Proof.
  intros Hm HD He. unfold binary_round_aux.
  destruct (shr_fexp_small 32 mx ex lx Hm HD) as [Hrec1 He1].
  destruct (shr_fexp 24 128 mx ex lx) as [mrs1 e1]. cbn [fst snd] in *.
  destruct (round_nearest_even_small 32 mrs1 Hrec1) as [Hm2 HD2].
  destruct (shr_fexp_small 33 _ e1 loc_Exact Hm2 ltac:(lia)) as [[Hm3 _] He2].
  destruct (shr_fexp 24 128 _ e1 loc_Exact) as [mrs2 e2]. cbn [fst snd] in *.
  destruct (shr_m mrs2) as [|m|m]; [ reflexivity | | lia ].
  destruct (Z.leb_spec e2 (128 - 24)); [ reflexivity | lia ].
Qed.

Lemma float_of_int_finite z :
  0 <= z < 2 ^ 31 -> Resampler.is_finite (Resampler.float_of_int z) = true.
Proof.
  intros Hz. unfold Resampler.float_of_int, binary_normalize.
  destruct z as [|p|p]; [ reflexivity | | lia ].
  unfold binary_round, shl_align.
  pose proof (digits2_pos_bound p 31 ltac:(cbn; lia)) as Hd.
  destruct (fexp 24 128 (Zpos (digits2_pos p) + 0) - 0) as [|k|k] eqn:Hk;
    apply binary_round_aux_finite; cbn [Zdigits2]; try lia.
  change (Zpos (digits2_pos (Pos.iter xO p k)) <= 32).
    rewrite digits2_pos_iter_xO. unfold fexp, emin in Hk. lia.
Qed.

Lemma fmul_zero_finite x y :
  Resampler.is_zero x = true -> Resampler.is_finite y = true ->
  Resampler.is_zero (Resampler.fmul x y) = true.
Proof. destruct x, y; try discriminate; reflexivity. Qed.

(** *** [interpolate], [reset] and the constructor *)

Lemma interpolate_phases_wf x n :
  forall phase r out,
    Resampler.wf r ->
    exists r' out',
      Resampler.interpolate_phases x n phase r out = Some (r', out')
      /\ Resampler.wf r' /\ same_filter r r'
      /\ length out' = (length out + n)%nat
      /\ (silent r -> finite_coeffs r -> Resampler.is_zero x = true ->
          Forall (fun y => y = Resampler.fzero) out ->
          silent r' /\ Forall (fun y => y = Resampler.fzero) out').
Proof.
  induction n as [|k IH]; intros phase r out Hwf.
  - exists r, out. split; [ reflexivity | ].
    split; [ exact Hwf | ]. split; [ apply same_filter_refl | ].
    split; [ lia | auto ].
  - cbn [Resampler.interpolate_phases].
    set (sample := if phase =? 0
                   then Resampler.fmul x
                          (Resampler.float_of_int (Resampler.ratio_ r))
                   else Resampler.fzero).
    destruct (push_wf sample r Hwf) as (r1 & -> & Hwf1 & Hsame1 & Hsil1).
    cbn [ub_bind].
    destruct (apply_filter_wf r1 Hwf1) as (y & -> & Hy). cbn [ub_bind].
    destruct (IH (phase + 1) r1 (out ++ [y]) Hwf1)
      as (r' & out' & Hrun & Hwf' & Hsame' & Hcount & Hzero).
    exists r', out'. split; [ exact Hrun | ].
    split; [ exact Hwf' | ].
    split; [ eapply same_filter_trans; eassumption | ].
    split; [ rewrite Hcount, length_app; cbn [length]; lia | ].
    intros Hs Hf Hx Hout.
    assert (Hsample : Resampler.is_zero sample = true).
    { subst sample. destruct (phase =? 0); [ | reflexivity ].
      apply fmul_zero_finite; [ exact Hx | ].
      apply float_of_int_finite.
      pose proof (Resampler.wf_ratio r Hwf). unfold INT_MAX in *. lia. }
    assert (Hf1 : finite_coeffs r1).
    { unfold finite_coeffs in *. destruct Hsame1 as (_ & _ & _ & ->).
      exact Hf. }
    apply Hzero; try assumption.
    + apply Hsil1; assumption.
    + apply Forall_app. split; [ exact Hout | ].
      constructor; [ | constructor ].
      apply Hy; [ apply Hsil1; assumption | exact Hf1 ].
Qed.

Lemma interpolate_loop_wf input :
  forall r out,
    Resampler.wf r ->
    exists r' out',
      Resampler.interpolate_loop input r out = Some (r', out')
      /\ Resampler.wf r' /\ same_filter r r'
      /\ Z.of_nat (length out')
         = Z.of_nat (length out)
           + Z.of_nat (length input) * Resampler.ratio_ r
      /\ (silent r -> finite_coeffs r ->
          Forall (fun x => Resampler.is_zero x = true) input ->
          Forall (fun y => y = Resampler.fzero) out ->
          silent r' /\ Forall (fun y => y = Resampler.fzero) out').
Proof.
  induction input as [|x rest IH]; intros r out Hwf.
  - exists r, out. split; [ reflexivity | ].
    split; [ exact Hwf | ]. split; [ apply same_filter_refl | ].
    split; [ cbn [length]; lia | auto ].
  - cbn [Resampler.interpolate_loop].
    destruct (interpolate_phases_wf x (Z.to_nat (Resampler.ratio_ r)) 0 r out
                Hwf) as (r1 & out1 & -> & Hwf1 & Hsame1 & Hcount1 & Hzero1).
    cbn [ub_bind].
    destruct (IH r1 out1 Hwf1)
      as (r' & out' & Hrun & Hwf' & Hsame' & Hcount & Hzero).
    exists r', out'. split; [ exact Hrun | ].
    split; [ exact Hwf' | ].
    split; [ eapply same_filter_trans; eassumption | ].
    pose proof (Resampler.wf_ratio r Hwf) as Hratio.
    assert (HR : Resampler.ratio_ r1 = Resampler.ratio_ r)
      by (destruct Hsame1 as (H & _); exact H).
    split.
    + rewrite Hcount, Hcount1, HR. cbn [length]. lia.
    + intros Hs Hf Hin Hout. inversion Hin as [|? ? Hx Hrest]; subst.
      destruct (Hzero1 Hs Hf Hx Hout) as [Hs1 Hout1].
      apply Hzero; try assumption.
      unfold finite_coeffs in *. destruct Hsame1 as (_ & _ & _ & ->).
      exact Hf.
Qed.

Lemma reset_wf r : Resampler.wf r -> Resampler.wf (Resampler.reset r).
Proof.
  intros [Hratio Htotal Hco Hhi Hpos]. destruct r.
  constructor; cbn in *; rewrite ?length_map; lia.
Qed.

Lemma reset_same_filter r : same_filter r (Resampler.reset r).
Proof. destruct r; repeat split. Qed.

Lemma reset_silent r : silent (Resampler.reset r).
Proof.
  unfold silent. destruct r as [ra tp tt co hi pos]. cbn.
  apply Forall_forall. intros x Hx. apply in_map_iff in Hx.
  destruct Hx as (y & <- & _). reflexivity.
Qed.

Lemma map_const_repeat {A B} (b : B) (l : list A) :
  map (fun _ => b) l = repeat b (length l).
Proof. induction l as [|a l IH]; [ reflexivity | cbn; rewrite IH; reflexivity ]. Qed.

Section Constructed.

Variable sin cos : Resampler.double -> Resampler.double.

Lemma design_loop_runs fc M steps :
  forall i coeffs sum,
    0 <= i -> (Z.to_nat i + steps = length coeffs)%nat ->
    exists coeffs1 sum1,
      Resampler.design_loop sin cos fc M steps i coeffs sum
      = Some (coeffs1, sum1)
      /\ length coeffs1 = length coeffs.
Proof.
  induction steps as [|k IH]; intros i coeffs sum Hi Hlen.
  - exists coeffs, sum. split; reflexivity.
  - cbn [Resampler.design_loop].
    destruct (vec_store_some coeffs (Z.to_nat i)
                (Resampler.tap sin cos fc M i) ltac:(lia))
      as (coeffs1 & -> & Hlen1).
    cbn [ub_bind].
    destruct (IH (i + 1) coeffs1
                (Resampler.fadd sum (Resampler.tap sin cos fc M i))
                ltac:(lia) ltac:(lia)) as (coeffs2 & sum2 & -> & Hlen2).
    exists coeffs2, sum2. split; [ reflexivity | lia ].
Qed.

(** [design_filter] fills the vector it is given and keeps its size. *)
Lemma design_filter_runs ratio total_taps :
  0 <= total_taps ->
  exists coeffs,
    Resampler.design_filter sin cos ratio total_taps
      (repeat Resampler.fzero (Z.to_nat total_taps)) = Some coeffs
    /\ length coeffs = Z.to_nat total_taps.
Proof.
  intros Htotal. unfold Resampler.design_filter.
  destruct (design_loop_runs
              (Resampler.fdiv Resampler.f_0_45 (Resampler.float_of_int ratio))
              (total_taps - 1) (Z.to_nat total_taps) 0
              (repeat Resampler.fzero (Z.to_nat total_taps)) Resampler.fzero
              ltac:(lia) ltac:(rewrite repeat_length; lia))
    as (coeffs1 & sum1 & -> & Hlen).
  cbn [ub_bind]. eexists. split; [ reflexivity | ].
  rewrite length_map, Hlen, repeat_length. reflexivity.
Qed.

(** The constructor succeeds whenever the product fits an [int]. *)
Lemma new_succeeds ratio taps :
  1 <= ratio -> 1 <= taps -> ratio * taps <= INT_MAX ->
  exists r0, Resampler.new sin cos ratio taps = Some r0.
Proof.
  intros Hratio Htaps Hfit. unfold Resampler.new, INT_MAX in *.
  destruct (Z.ltb_spec (ratio * taps) (- (2 ^ 31 - 1) - 1)); [ nia | ].
  destruct (Z.ltb_spec (2 ^ 31 - 1) (ratio * taps)); [ lia | ].
  cbn [orb]. destruct (Z.ltb_spec (ratio * taps) 0); [ nia | ].
  destruct (design_filter_runs ratio (ratio * taps) ltac:(lia))
    as (coeffs & -> & _).
  eexists. reflexivity.
Qed.

Lemma new_wf ratio taps r0 :
  1 <= ratio -> 1 <= taps ->
  Resampler.new sin cos ratio taps = Some r0 ->
  Resampler.wf r0
  /\ Resampler.ratio_ r0 = ratio
  /\ Resampler.taps_per_phase_ r0 = taps
  /\ Resampler.total_taps_ r0 = ratio * taps
  /\ Resampler.history_ r0 = repeat Resampler.fzero (Z.to_nat (ratio * taps))
  /\ Resampler.history_pos_ r0 = 0.
Proof.
  intros Hratio Htaps. unfold Resampler.new, INT_MAX in *.
  destruct (Z.ltb_spec (ratio * taps) (- (2 ^ 31 - 1) - 1));
    [ discriminate | ].
  destruct (Z.ltb_spec (2 ^ 31 - 1) (ratio * taps)); [ discriminate | ].
  cbn [orb]. destruct (Z.ltb_spec (ratio * taps) 0); [ discriminate | ].
  destruct (design_filter_runs ratio (ratio * taps) ltac:(lia))
    as (coeffs & -> & Hlen).
  cbn [ub_bind]. intros [= <-]. cbn. split; [ | repeat split ].
  constructor; cbn; unfold INT_MAX;
    rewrite ?repeat_length; try nia; try reflexivity; exact Hlen.
Qed.

End Constructed.

Lemma reachable_wf r0 r :
  Resampler.wf r0 -> Resampler.reachable r0 r ->
  Resampler.wf r /\ same_filter r0 r.
Proof.
  intros Hwf0. induction 1 as [ | r input r' out _ IH Hlen Hrun
                                | r input r' out _ IH Hrun | r _ IH ].
  - split; [ exact Hwf0 | apply same_filter_refl ].
  - destruct IH as [Hwf Hsame].
    destruct (decimate_loop_wf input 0 r [] Hwf ltac:(lia) ltac:(lia))
      as (r2 & out2 & Hrun2 & Hwf2 & Hsame2 & _).
    unfold Resampler.decimate in Hrun. rewrite Hrun2 in Hrun.
    injection Hrun as <- <-.
    split; [ exact Hwf2 | eapply same_filter_trans; eassumption ].
  - destruct IH as [Hwf Hsame].
    destruct (interpolate_loop_wf input r [] Hwf)
      as (r2 & out2 & Hrun2 & Hwf2 & Hsame2 & _).
    unfold Resampler.interpolate in Hrun. rewrite Hrun2 in Hrun.
    injection Hrun as <- <-.
    split; [ exact Hwf2 | eapply same_filter_trans; eassumption ].
  - destruct IH as [Hwf Hsame].
    split; [ apply reset_wf, Hwf | ].
    eapply same_filter_trans; [ exact Hsame | apply reset_same_filter ].
Qed.

Lemma reset_restores r0 r :
  Resampler.wf r -> same_filter r0 r ->
  Resampler.history_ r0
  = repeat Resampler.fzero (Z.to_nat (Resampler.total_taps_ r0)) ->
  Resampler.history_pos_ r0 = 0 ->
  Resampler.reset r = r0.
Proof.
  intros [_ _ _ Hhi _] (H1 & H2 & H3 & H4) Hh0 Hp0.
  destruct r0, r. cbn in *. subst.
  unfold Resampler.reset, Resampler.with_history. cbn.
  rewrite map_const_repeat, Hhi. reflexivity.
Qed.

(** The literals are the correctly rounded decimals. *)
Example design_filter_literals :
  Resampler.f_0_45
  = Resampler.fdiv (Resampler.float_of_int 45) (Resampler.float_of_int 100)
  /\ Resampler.f_2_0 = Resampler.float_of_int 2
  /\ Resampler.f_1e_6
     = Resampler.fdiv (Resampler.float_of_int 1)
         (Resampler.float_of_int 1000000)
  /\ Resampler.f_0_54
     = Resampler.fdiv (Resampler.float_of_int 54) (Resampler.float_of_int 100)
  /\ Resampler.f_0_46
     = Resampler.fdiv (Resampler.float_of_int 46) (Resampler.float_of_int 100).
Proof. repeat split. Qed.

(** ** The claims on the resampler *)

Lemma output_lengths_wf (r : Resampler.t) (input : list Resampler.float) :
  Resampler.wf r ->
  Z.of_nat (length input) < 2 ^ 64 ->
  (exists r' out,
      Resampler.decimate input r = Some (r', out)
      /\ Resampler.output_count (r', out)
         = Z.of_nat (length input) / Resampler.ratio_ r)
  /\ (exists r' out,
         Resampler.interpolate input r = Some (r', out)
         /\ Resampler.output_count (r', out)
            = Z.of_nat (length input) * Resampler.ratio_ r).
Proof.
  intros Hwf Hlen. split.
  - destruct (decimate_loop_wf input 0 r [] Hwf ltac:(lia) ltac:(lia))
      as (r' & out & Hrun & _ & _ & Hcount & _).
    exists r', out. split; [ exact Hrun | ].
    unfold Resampler.output_count. cbn [snd]. rewrite Hcount.
    pose proof (Resampler.wf_ratio r Hwf) as Hratio.
    cbn [length]. rewrite !Z.add_0_l, Z.div_0_l by lia. lia.
  - destruct (interpolate_loop_wf input r [] Hwf)
      as (r' & out & Hrun & _ & _ & Hcount & _).
    exists r', out. split; [ exact Hrun | ].
    unfold Resampler.output_count. cbn [snd]. rewrite Hcount.
    cbn [length]. lia.
Qed.

Lemma zero_in_zero_out (r : Resampler.t) (input : list Resampler.float) :
  Resampler.wf r -> silent r -> finite_coeffs r ->
  Forall (fun x => Resampler.is_zero x = true) input ->
  Z.of_nat (length input) < 2 ^ 64 ->
  (exists r' out,
      Resampler.decimate input r = Some (r', out)
      /\ Forall (fun y => y = Resampler.fzero) out)
  /\ (exists r' out,
         Resampler.interpolate input r = Some (r', out)
         /\ Forall (fun y => y = Resampler.fzero) out).
Proof.
  intros Hwf Hsil Hfin Hin Hlen. split.
  - destruct (decimate_loop_wf input 0 r [] Hwf ltac:(lia) ltac:(lia))
      as (r' & out & Hrun & _ & _ & _ & Hzero).
    exists r', out. split; [ exact Hrun | ].
    apply Hzero; [ exact Hsil | exact Hfin | exact Hin | constructor ].
  - destruct (interpolate_loop_wf input r [] Hwf)
      as (r' & out & Hrun & _ & _ & _ & Hzero).
    exists r', out. split; [ exact Hrun | ].
    apply Hzero; [ exact Hsil | exact Hfin | exact Hin | constructor ].
Qed.

Lemma in_bounds_wf (r : Resampler.t) (i : Z) :
  Resampler.wf r -> 0 <= i < Resampler.total_taps_ r ->
  size_t_of (Resampler.total_taps_ r) <> 0
  /\ exists idx h c,
       size_t_rem (size_t_of (Resampler.history_pos_ r + size_t_of i))
                  (size_t_of (Resampler.total_taps_ r)) = Some idx
       /\ 0 <= idx < Z.of_nat (length (Resampler.history_ r))
       /\ nth_error (Resampler.history_ r) (Z.to_nat idx) = Some h
       /\ nth_error (Resampler.coeffs_ r) (Z.to_nat i) = Some c.
Proof.
  intros [_ Htotal Hco Hhi Hpos] Hi. unfold INT_MAX in *.
  split; [ rewrite size_t_of_small by lia; lia | ].
  unfold size_t_rem.
  rewrite (size_t_of_small i), (size_t_of_small (_ + i)),
    (size_t_of_small (Resampler.total_taps_ r)) by lia.
  destruct (Z.eqb_spec (Resampler.total_taps_ r) 0) as [|_]; [lia|].
  pose proof (Z.mod_pos_bound (Resampler.history_pos_ r + i)
                (Resampler.total_taps_ r) ltac:(lia)) as Hidx.
  destruct (nth_error (Resampler.history_ r)
              (Z.to_nat ((Resampler.history_pos_ r + i)
                         mod Resampler.total_taps_ r))) as [h|] eqn:Hh;
    [ | apply nth_error_None in Hh; lia ].
  destruct (nth_error (Resampler.coeffs_ r) (Z.to_nat i)) as [c|] eqn:Hc;
    [ | apply nth_error_None in Hc; lia ].
  exists ((Resampler.history_pos_ r + i) mod Resampler.total_taps_ r), h, c.
  repeat split; try reflexivity; try assumption; lia.
Qed.

(** C7.  A resampler of ratio [R >= 1] (with [taps_per_phase >= 1] and a
    product that fits an [int]) can be constructed, and in every state it
    reaches, for every input of [n] samples: [decimate] pushes every sample
    and returns and writes exactly [floor (n / R)] samples; [interpolate]
    pushes, for each input sample, the sample times [R] and then [R - 1]
    zeros, filters after each push, and returns and writes exactly [n * R]
    samples.  The count within a call starts afresh, whatever the earlier
    calls left in the history and the position. *)
Theorem C7_output_lengths
  (sin cos : Resampler.double -> Resampler.double) (ratio taps : Z) :
  1 <= ratio -> 1 <= taps -> ratio * taps <= INT_MAX ->
  exists r0,
    Resampler.new sin cos ratio taps = Some r0
    /\ forall r input,
         Resampler.reachable r0 r ->
         Z.of_nat (length input) < 2 ^ 64 ->
         (exists r' out,
             Resampler.decimate input r = Some (r', out)
             /\ push_all input r = Some r'
             /\ Resampler.output_count (r', out)
                = Z.of_nat (length input) / ratio)
         /\ (exists r' out,
                Resampler.interpolate input r = Some (r', out)
                /\ push_and_filter (flat_map (zero_stuffed ratio) input) r []
                   = Some (r', out)
                /\ Resampler.output_count (r', out)
                   = Z.of_nat (length input) * ratio).
Proof.
  intros Hratio Htaps Hfit.
  destruct (new_succeeds sin cos ratio taps Hratio Htaps Hfit) as [r0 Hnew].
  exists r0. split; [ exact Hnew | ]. intros r input Hreach Hlen.
  destruct (new_wf sin cos ratio taps r0 Hratio Htaps Hnew)
    as (Hwf0 & HR0 & _).
  destruct (reachable_wf r0 r Hwf0 Hreach) as [Hwf Hsame].
  assert (HR : Resampler.ratio_ r = ratio)
    by (destruct Hsame as (-> & _); exact HR0).
  destruct (output_lengths_wf r input Hwf Hlen)
    as [(r1 & out1 & Hdec & Hn1) (r2 & out2 & Hint & Hn2)].
  rewrite HR in Hn1, Hn2. split.
  - exists r1, out1. split; [ exact Hdec | ]. split; [ | exact Hn1 ].
    eapply decimate_loop_pushes, Hdec.
  - exists r2, out2. split; [ exact Hint | ]. split; [ | exact Hn2 ].
    rewrite <- HR, <- interpolate_loop_stuffed by lia. exact Hint.
Qed.

Lemma C7_output_lengths_witness :
  exists r0,
    Resampler.new libm_id libm_id 6 8 = Some r0
    /\ forall r input,
         Resampler.reachable r0 r ->
         Z.of_nat (length input) < 2 ^ 64 ->
         (exists r' out,
             Resampler.decimate input r = Some (r', out)
             /\ push_all input r = Some r'
             /\ Resampler.output_count (r', out)
                = Z.of_nat (length input) / 6)
         /\ (exists r' out,
                Resampler.interpolate input r = Some (r', out)
                /\ push_and_filter (flat_map (zero_stuffed 6) input) r []
                   = Some (r', out)
                /\ Resampler.output_count (r', out)
                   = Z.of_nat (length input) * 6).
Proof.
  apply (C7_output_lengths libm_id libm_id 6 8).
  - lia.
  - lia.
  - unfold INT_MAX. lia.
Defined.

(** In every state a constructed resampler reaches, [reset] leaves the
    coefficients alone, fills the history with zeros and sets the position
    to 0, and the result is the very state the constructor produced.  After
    it, when no coefficient is an infinity or a NaN, [decimate] and
    [interpolate] of an all-zero input return and write nothing but [0.0f],
    whatever the state before the [reset]. *)
Lemma reset_restores_and_silences
  (sin cos : Resampler.double -> Resampler.double) (ratio taps : Z) :
  1 <= ratio -> 1 <= taps -> ratio * taps <= INT_MAX ->
  exists r0,
    Resampler.new sin cos ratio taps = Some r0
    /\ forall r,
         Resampler.reachable r0 r ->
         (Resampler.coeffs_ (Resampler.reset r) = Resampler.coeffs_ r
          /\ Resampler.history_ (Resampler.reset r)
             = repeat Resampler.fzero (length (Resampler.history_ r))
          /\ Resampler.history_pos_ (Resampler.reset r) = 0)
         /\ Resampler.reset r = r0
         /\ (finite_coeffs r0 ->
             forall input,
               Forall (fun x => Resampler.is_zero x = true) input ->
               Z.of_nat (length input) < 2 ^ 64 ->
               (exists r' out,
                   Resampler.decimate input (Resampler.reset r)
                   = Some (r', out)
                   /\ Forall (fun y => y = Resampler.fzero) out)
               /\ (exists r' out,
                      Resampler.interpolate input (Resampler.reset r)
                      = Some (r', out)
                      /\ Forall (fun y => y = Resampler.fzero) out)).
Proof.
  intros Hratio Htaps Hfit.
  destruct (new_succeeds sin cos ratio taps Hratio Htaps Hfit) as [r0 Hnew].
  exists r0. split; [ exact Hnew | ]. intros r Hreach.
  destruct (new_wf sin cos ratio taps r0 Hratio Htaps Hnew)
    as (Hwf0 & _ & _ & Htot0 & Hh0 & Hp0).
  destruct (reachable_wf r0 r Hwf0 Hreach) as [Hwf Hsame].
  assert (Hreset : Resampler.reset r = r0).
  { apply reset_restores; try assumption. rewrite Htot0. exact Hh0. }
  split; [ | split ].
  - destruct r. cbn. rewrite map_const_repeat. repeat split.
  - exact Hreset.
  - intros Hfin input Hin Hlen. rewrite Hreset.
    apply zero_in_zero_out; try assumption.
    rewrite <- Hreset. apply reset_silent.
Qed.

(** *** The one-tap filter *)

Lemma fmul_nan_r x : Resampler.fmul x S754_nan = S754_nan.
Proof. destruct x; reflexivity. Qed.

(** With [total_taps_ = 1] the Hamming window divides by [M = 0]: the
    argument of [cos] is [0.0 / 0.0]. *)
Lemma tap_one_tap (sin cos : Resampler.double -> Resampler.double) fc :
  cos S754_nan = S754_nan ->
  Resampler.tap sin cos fc 0 0 = S754_nan.
Proof.
  intros Hcos. unfold Resampler.tap.
  match goal with
  | |- context [cos ?x] => replace x with S754_nan by (vm_compute; reflexivity)
  end.
  rewrite Hcos.
  match goal with
  | |- Resampler.fmul _ ?w = _ =>
      replace w with S754_nan by (vm_compute; reflexivity)
  end.
  apply fmul_nan_r.
Qed.

Lemma new_one_tap (sin cos : Resampler.double -> Resampler.double) :
  cos S754_nan = S754_nan ->
  Resampler.new sin cos 1 1
  = Some (Resampler.mk 1 1 1 [S754_nan] [Resampler.fzero] 0).
Proof.
  intros Hcos. unfold Resampler.new, Resampler.design_filter.
  change (1 * 1) with 1. change (1 - 1) with 0.
  change (Z.to_nat 1) with 1%nat.
  cbn [Resampler.design_loop repeat].
  rewrite (tap_one_tap sin cos _ Hcos). reflexivity.
Qed.

(** C8, at the one-tap filter.  [Resampler(1, 1)] is constructed with the
    single coefficient NaN; [reset] returns it to its post-construction
    state, and after it [decimate] and [interpolate] of the one sample
    [0.0f] each write one NaN, not a zero.  (Every libm sends a NaN to a
    NaN; with coefficients that are numbers the output is all zeros, see
    [reset_restores_and_silences].) *)
Theorem C8_reset_one_tap (sin cos : Resampler.double -> Resampler.double) :
  cos S754_nan = S754_nan ->
  exists r0,
    Resampler.new sin cos 1 1 = Some r0
    /\ Resampler.coeffs_ r0 = [S754_nan]
    /\ Resampler.reset r0 = r0
    /\ Resampler.decimate [Resampler.fzero] (Resampler.reset r0)
       = Some (r0, [S754_nan])
    /\ Resampler.interpolate [Resampler.fzero] (Resampler.reset r0)
       = Some (r0, [S754_nan])
    /\ Resampler.is_zero S754_nan = false.
Proof.
  intros Hcos. eexists. split; [ apply new_one_tap, Hcos | ].
  repeat split.
Qed.

Lemma C8_reset_one_tap_witness :
  option_map snd
    (Resampler.decimate [Resampler.fzero]
       (Resampler.reset one_tap_resampler))
  = Some [S754_nan].
Proof.
  destruct (C8_reset_one_tap libm_id libm_id eq_refl)
    as (r0 & Hnew & _ & _ & Hdec & _).
  unfold one_tap_resampler, example_resampler. rewrite Hnew, Hdec.
  reflexivity.
Defined.

(** C10.  A resampler with [ratio >= 1] and [taps_per_phase >= 1] (and a
    product that fits an [int]) can be constructed, and in the state the
    constructor leaves and in every state reached from it by calls of
    [decimate], [interpolate] and [reset]: [total_taps_] is
    [ratio * taps_per_phase], the position satisfies
    [0 <= history_pos_ < total_taps_], the modulus of the index
    computations is not zero, every index [(history_pos_ + i) % total_taps_]
    for [i] below [total_taps_] falls inside the history (and [i] inside the
    coefficients), and [apply_filter], [decimate] and [interpolate] run to
    their end without an access out of range or a remainder by zero. *)
Theorem C10_position_invariant
  (sin cos : Resampler.double -> Resampler.double) (ratio taps : Z) :
  1 <= ratio -> 1 <= taps -> ratio * taps <= INT_MAX ->
  exists r0,
    Resampler.new sin cos ratio taps = Some r0
    /\ forall r,
         Resampler.reachable r0 r ->
         Resampler.total_taps_ r = ratio * taps
         /\ 0 <= Resampler.history_pos_ r < Resampler.total_taps_ r
         /\ size_t_of (Resampler.total_taps_ r) <> 0
         /\ (forall i, 0 <= i < Resampler.total_taps_ r ->
               exists idx h c,
                 size_t_rem
                   (size_t_of (Resampler.history_pos_ r + size_t_of i))
                   (size_t_of (Resampler.total_taps_ r)) = Some idx
                 /\ 0 <= idx < Z.of_nat (length (Resampler.history_ r))
                 /\ nth_error (Resampler.history_ r) (Z.to_nat idx) = Some h
                 /\ nth_error (Resampler.coeffs_ r) (Z.to_nat i) = Some c)
         /\ (exists y, Resampler.apply_filter r = Some y)
         /\ (forall input, Z.of_nat (length input) < 2 ^ 64 ->
               exists r' out, Resampler.decimate input r = Some (r', out)
                              /\ Resampler.reachable r0 r')
         /\ (forall input,
               exists r' out, Resampler.interpolate input r = Some (r', out)
                              /\ Resampler.reachable r0 r')
         /\ Resampler.reachable r0 (Resampler.reset r).
Proof.
  intros Hratio Htaps Hfit.
  destruct (new_succeeds sin cos ratio taps Hratio Htaps Hfit) as [r0 Hnew].
  exists r0. split; [ exact Hnew | ]. intros r Hreach.
  destruct (new_wf sin cos ratio taps r0 Hratio Htaps Hnew)
    as (Hwf0 & _ & _ & Htot0 & _).
  destruct (reachable_wf r0 r Hwf0 Hreach) as [Hwf Hsame].
  split; [ | split; [ | split; [ | split; [ | split; [ | split; [ | split ]]]]]].
  - destruct Hsame as (_ & _ & -> & _). exact Htot0.
  - apply (Resampler.wf_pos r Hwf).
  - pose proof (Resampler.wf_total r Hwf). unfold INT_MAX in *.
    rewrite size_t_of_small by lia. lia.
  - intros i Hi. apply (in_bounds_wf r i Hwf Hi).
  - destruct (apply_filter_wf r Hwf) as (y & Hy & _). exists y. exact Hy.
  - intros input Hlen.
    destruct (decimate_loop_wf input 0 r [] Hwf ltac:(lia) ltac:(lia))
      as (r' & out & Hrun & _).
    exists r', out. split; [ exact Hrun | ].
    eapply Resampler.reach_decimate; eassumption.
  - intros input.
    destruct (interpolate_loop_wf input r [] Hwf) as (r' & out & Hrun & _).
    exists r', out. split; [ exact Hrun | ].
    eapply Resampler.reach_interpolate; eassumption.
  - apply Resampler.reach_reset, Hreach.
Qed.

(** *** A resampler at work *)

Example used_resampler_history :
  Resampler.new libm_id libm_id 2 1 = Some small_resampler
  /\ Resampler.decimate five_samples small_resampler
     = Some (used_resampler, used_output)
  /\ Resampler.history_ used_resampler
     = [Resampler.float_of_int 1; Resampler.float_of_int 1]
  /\ Resampler.history_pos_ used_resampler = 1
  /\ length used_output = 2%nat
  /\ finite_coeffs small_resampler.
Proof. repeat split; repeat constructor. Qed.

Lemma used_resampler_reachable :
  Resampler.reachable small_resampler used_resampler.
Proof.
  apply (Resampler.reach_decimate small_resampler small_resampler
           five_samples used_resampler used_output).
  - apply Resampler.reach_new.
  - cbn. lia.
  - reflexivity.
Qed.

Example reset_after_use :
  Resampler.reset used_resampler = small_resampler
  /\ option_map snd
       (Resampler.decimate (repeat Resampler.fzero 4)
          (Resampler.reset used_resampler))
     = Some [Resampler.fzero; Resampler.fzero].
Proof. split; reflexivity. Qed.

Lemma C10_position_invariant_witness :
  0 <= Resampler.history_pos_ used_resampler
    < Resampler.total_taps_ used_resampler
  /\ Resampler.total_taps_ used_resampler = 2 * 1.
Proof.
  destruct (C10_position_invariant libm_id libm_id 2 1)
    as (r0 & Hnew & Hall).
  - lia.
  - lia.
  - unfold INT_MAX. lia.
  - assert (Hr0 : r0 = small_resampler).
    { unfold small_resampler, example_resampler. rewrite Hnew. reflexivity. }
    subst r0.
    destruct (Hall used_resampler used_resampler_reachable)
      as (Htotal & Hpos & _).
    split; [ exact Hpos | exact Htotal ].
Defined.

(** * Further properties of the codecs and of the resampler *)

Lemma emitted_app es1 es2 : emitted (es1 ++ es2) = emitted es1 ++ emitted es2.
Proof. unfold emitted. apply flat_map_app. Qed.

Lemma emitted_ack_events ack : emitted (ack_events ack) = [].
Proof. destruct ack; reflexivity. Qed.

Lemma emitted_kenwood_acks ack data : emitted (kenwood_acks ack data) = [].
Proof.
  induction data as [|b rest IH]; [ reflexivity | ].
  unfold kenwood_acks in *. cbn [flat_map]. rewrite emitted_app, IH.
  destruct (Ascii.eqb (char_of_byte b) ";");
    [ rewrite emitted_ack_events | ]; reflexivity.
Qed.

Lemma emitted_civ_acks ack data :
  forall buf, emitted (civ_acks ack data buf) = [].
Proof.
  induction data as [|b rest IH]; intros buf; [ reflexivity | ].
  cbn [civ_acks]. rewrite emitted_app, IH.
  destruct ((b =? CIV_EOM) && civ_is_ack_frame (buf ++ [b]));
    [ rewrite emitted_ack_events | ]; reflexivity.
Qed.

Lemma run_fst_last {S} (v : IRadio S) calls :
  forall s l1 l2, fst (run v calls s l1) = fst (run v calls s l2).
Proof.
  induction calls as [|c rest IH]; intros s l1 l2; [ reflexivity | ].
  cbn [run]. destruct (dispatch v c s) as [[r s'] ev]. apply IH.
Qed.

Lemma after_cons {S} (v : IRadio S) c calls s :
  after v (c :: calls) s = after v calls (state_of (dispatch v c s)).
Proof.
  unfold after, state_of. cbn [run].
  destruct (dispatch v c s) as [[r s'] ev]. apply run_fst_last.
Qed.

Lemma after_app {S} (v : IRadio S) calls1 :
  forall calls2 s,
    after v (calls1 ++ calls2) s = after v calls2 (after v calls1 s).
Proof.
  induction calls1 as [|c rest IH]; intros calls2 s; [ reflexivity | ].
  cbn [app]. rewrite !after_cons. apply IH.
Qed.

(** What one call does to the wire and to the flags of a Kenwood object. *)
Lemma kenwood_dispatch_wire c s :
  let r := dispatch Kenwood.vtable c s in
  let open := gate_open (Kenwood.ready_ s) (Kenwood.serial_ s) in
  emitted (events r)
  = (match c with
     | CSetChannel ch =>
         if open
         then [bytes_of (Kenwood.build_freq_command "A" (rx_frequency ch));
               bytes_of (Kenwood.build_mode_command (rx_mode ch))]
         else []
     | CSetPtt t => if open then [kenwood_ptt t] else []
     | _ => []
     end)
  /\ Kenwood.transmitting_ (state_of r)
     = (match c with
        | CSetPtt t => if open then t else Kenwood.transmitting_ s
        | _ => Kenwood.transmitting_ s
        end)
  /\ Kenwood.ready_ (state_of r)
     = (match c with
        | CInitialize => true
        | CShutdown => false
        | _ => Kenwood.ready_ s
        end)
  /\ Kenwood.current_channel_ (state_of r)
     = (match c with
        | CSetChannel ch => if open then ch else Kenwood.current_channel_ s
        | _ => Kenwood.current_channel_ s
        end)
  /\ Kenwood.serial_ (state_of r) = Kenwood.serial_ s.
Proof.
  destruct c;
    cbn [dispatch Kenwood.vtable initialize shutdown start stop set_channel
         get_channel set_ptt is_transmitting is_ready get_port_config
         register_send_callback register_ack_callback process_response];
    unfold lift, bind;
    cbv zeta; unfold events, state_of;
    try (rewrite kenwood_process_response_eq; unfold ret; cbn [fst snd];
         rewrite app_nil_r, emitted_kenwood_acks; destruct s;
         repeat split; reflexivity);
    try (destruct s as [ser ch tx rdy scb acb buf];
         unfold Kenwood.initialize, Kenwood.shutdown, Kenwood.start,
           Kenwood.stop, Kenwood.set_channel, Kenwood.set_ptt,
           Kenwood.send_command, Kenwood.register_send_callback,
           Kenwood.register_ack_callback, gate_open;
         run_monad; read_fields;
         try (destruct rdy, ser, scb); repeat split; reflexivity).
Qed.

Lemma icom_dispatch_wire c s :
  let r := dispatch IcomCiv.vtable c s in
  let open := gate_open (IcomCiv.ready_ s) (IcomCiv.serial_ s) in
  emitted (events r)
  = (match c with
     | CSetChannel ch =>
         if open
         then [IcomCiv.build_frame s CivCommand.SET_FREQ
                 (IcomCiv.freq_to_bcd (rx_frequency ch) 5);
               IcomCiv.build_frame s CivCommand.SET_MODE
                 [u8 (IcomCiv.radio_mode_to_civ (rx_mode ch))]]
         else []
     | CSetPtt t =>
         if open
         then [civ_ptt (IcomCiv.radio_addr_ s) (IcomCiv.controller_addr_ s) t]
         else []
     | _ => []
     end)
  /\ IcomCiv.transmitting_ (state_of r)
     = (match c with
        | CSetPtt t => if open then t else IcomCiv.transmitting_ s
        | _ => IcomCiv.transmitting_ s
        end)
  /\ IcomCiv.ready_ (state_of r)
     = (match c with
        | CInitialize => true
        | CShutdown => false
        | _ => IcomCiv.ready_ s
        end)
  /\ IcomCiv.current_channel_ (state_of r)
     = (match c with
        | CSetChannel ch => if open then ch else IcomCiv.current_channel_ s
        | _ => IcomCiv.current_channel_ s
        end)
  /\ IcomCiv.serial_ (state_of r) = IcomCiv.serial_ s.
Proof.
  destruct c;
    cbn [dispatch IcomCiv.vtable initialize shutdown start stop set_channel
         get_channel set_ptt is_transmitting is_ready get_port_config
         register_send_callback register_ack_callback process_response];
    unfold lift, bind;
    cbv zeta; unfold events, state_of;
    try (rewrite civ_process_response_eq; unfold ret; cbn [fst snd];
         rewrite app_nil_r, emitted_civ_acks; destruct s;
         repeat split; reflexivity);
    try (destruct s as [ser ra ca ch tx rdy scb acb buf];
         unfold IcomCiv.initialize, IcomCiv.shutdown, IcomCiv.start,
           IcomCiv.stop, IcomCiv.set_channel, IcomCiv.set_ptt,
           IcomCiv.send_frame, IcomCiv.register_send_callback,
           IcomCiv.register_ack_callback, gate_open;
         run_monad; read_fields;
         try (destruct rdy, ser, scb); repeat split; reflexivity).
Qed.

Lemma yaesu_dispatch_wire c s :
  let r := dispatch YaesuCat.vtable c s in
  let open := gate_open (YaesuCat.ready_ s) (YaesuCat.serial_ s) in
  emitted (events r)
  = (match c with
     | CSetChannel ch =>
         if open
         then [YaesuCat.freq_to_packed_bcd (rx_frequency ch)
                 ++ [YaesuCommand.SET_FREQ];
               [u8 (YaesuCat.radio_mode_to_yaesu (rx_mode ch)); 0; 0; 0;
                YaesuCommand.SET_MODE]]
         else []
     | CSetPtt t => if open then [yaesu_ptt t] else []
     | _ => []
     end)
  /\ YaesuCat.transmitting_ (state_of r)
     = (match c with
        | CSetPtt t => if open then t else YaesuCat.transmitting_ s
        | _ => YaesuCat.transmitting_ s
        end)
  /\ YaesuCat.ready_ (state_of r)
     = (match c with
        | CInitialize => true
        | CShutdown => false
        | _ => YaesuCat.ready_ s
        end)
  /\ YaesuCat.current_channel_ (state_of r)
     = (match c with
        | CSetChannel ch => if open then ch else YaesuCat.current_channel_ s
        | _ => YaesuCat.current_channel_ s
        end)
  /\ YaesuCat.serial_ (state_of r) = YaesuCat.serial_ s.
Proof.
  destruct c;
    cbn [dispatch YaesuCat.vtable initialize shutdown start stop set_channel
         get_channel set_ptt is_transmitting is_ready get_port_config
         register_send_callback register_ack_callback process_response];
    unfold lift, bind;
    cbv zeta; unfold events, state_of;
    destruct s as [ser ch tx rdy scb acb];
    unfold YaesuCat.initialize, YaesuCat.shutdown, YaesuCat.start,
      YaesuCat.stop, YaesuCat.set_channel, YaesuCat.set_ptt,
      YaesuCat.send_command, YaesuCat.register_send_callback,
      YaesuCat.register_ack_callback, YaesuCat.process_response, gate_open;
    run_monad; read_fields;
    try (destruct rdy, ser, scb);
    try (destruct (0 <? Z.of_nat (length data)), acb);
    repeat split; reflexivity.
Qed.

(** The Elecraft table dispatches to Kenwood's code. *)
Lemma elecraft_dispatch_kenwood c s :
  events (dispatch Elecraft.vtable c s) = events (dispatch Kenwood.vtable c s)
  /\ state_of (dispatch Elecraft.vtable c s)
     = state_of (dispatch Kenwood.vtable c s).
Proof. destruct c; split; reflexivity. Qed.

(** ** PTT *)

Lemma kenwood_set_ptt_ok t s p :
  Kenwood.ready_ s = true -> Kenwood.serial_ s = Some p ->
  Kenwood.set_ptt t s
  = (tt, Kenwood.with_transmitting t s,
     [route (Kenwood.send_callback_ s) p (kenwood_ptt t)]).
Proof.
  destruct s as [ser ch tx rdy scb acb buf]. cbn [Kenwood.ready_ Kenwood.serial_].
  intros -> ->. unfold Kenwood.set_ptt, Kenwood.send_command. run_monad.
  destruct scb; reflexivity.
Qed.

Lemma kenwood_set_ptt_fail t s :
  Kenwood.ready_ s = false \/ Kenwood.serial_ s = None ->
  Kenwood.set_ptt t s = (tt, s, []).
Proof.
  destruct s as [ser ch tx rdy scb acb buf]. cbn [Kenwood.ready_ Kenwood.serial_].
  unfold Kenwood.set_ptt. run_monad.
  intros [-> | ->]; [ reflexivity | destruct rdy; reflexivity ].
Qed.

Lemma icom_set_ptt_ok t s p :
  IcomCiv.ready_ s = true -> IcomCiv.serial_ s = Some p ->
  IcomCiv.set_ptt t s
  = (tt, IcomCiv.with_transmitting t s,
     [route (IcomCiv.send_callback_ s) p
        (civ_ptt (IcomCiv.radio_addr_ s) (IcomCiv.controller_addr_ s) t)]).
Proof.
  destruct s as [ser ra ca ch tx rdy scb acb buf].
  cbn [IcomCiv.ready_ IcomCiv.serial_].
  intros -> ->. unfold IcomCiv.set_ptt, IcomCiv.send_frame. run_monad.
  destruct scb; reflexivity.
Qed.

Lemma icom_set_ptt_fail t s :
  IcomCiv.ready_ s = false \/ IcomCiv.serial_ s = None ->
  IcomCiv.set_ptt t s = (tt, s, []).
Proof.
  destruct s as [ser ra ca ch tx rdy scb acb buf].
  cbn [IcomCiv.ready_ IcomCiv.serial_].
  unfold IcomCiv.set_ptt. run_monad.
  intros [-> | ->]; [ reflexivity | destruct rdy; reflexivity ].
Qed.

Lemma yaesu_set_ptt_ok t s p :
  YaesuCat.ready_ s = true -> YaesuCat.serial_ s = Some p ->
  YaesuCat.set_ptt t s
  = (tt, YaesuCat.with_transmitting t s,
     [route (YaesuCat.send_callback_ s) p (yaesu_ptt t)]).
Proof.
  destruct s as [ser ch tx rdy scb acb].
  cbn [YaesuCat.ready_ YaesuCat.serial_].
  intros -> ->. unfold YaesuCat.set_ptt, YaesuCat.send_command. run_monad.
  destruct scb; reflexivity.
Qed.

Lemma yaesu_set_ptt_fail t s :
  YaesuCat.ready_ s = false \/ YaesuCat.serial_ s = None ->
  YaesuCat.set_ptt t s = (tt, s, []).
Proof.
  destruct s as [ser ch tx rdy scb acb].
  cbn [YaesuCat.ready_ YaesuCat.serial_].
  unfold YaesuCat.set_ptt. run_monad.
  intros [-> | ->]; [ reflexivity | destruct rdy; reflexivity ].
Qed.

(** X1.  PTT.  [set_ptt] is behind the same test as [set_channel]: on a
    codec that is not ready or was built on a null serial pointer it sends
    nothing and leaves the object as it was.  Otherwise it sends exactly one
    command, through the send callback when one is registered and through
    the serial collaborator otherwise, and records the new PTT state:
    Kenwood ["TX;"] or ["RX;"]; Icom the frame [FE FE <radio> <controller>
    1C 00 01 FD] or [... 1C 00 00 FD]; Yaesu [00 00 00 00 08] or
    [00 00 00 00 88]. *)
Theorem X1_set_ptt_gate (transmit : bool) :
  (forall s,
      (forall p, Kenwood.ready_ s = true -> Kenwood.serial_ s = Some p ->
         Kenwood.set_ptt transmit s
         = (tt, Kenwood.with_transmitting transmit s,
            [ route (Kenwood.send_callback_ s) p
                (bytes_of (str (if transmit then "TX;" else "RX;"))) ]))
      /\ (Kenwood.ready_ s = false \/ Kenwood.serial_ s = None ->
          Kenwood.set_ptt transmit s = (tt, s, [])))
  /\ (forall s,
      (forall p, IcomCiv.ready_ s = true -> IcomCiv.serial_ s = Some p ->
         IcomCiv.set_ptt transmit s
         = (tt, IcomCiv.with_transmitting transmit s,
            [ route (IcomCiv.send_callback_ s) p
                [ 0xFE; 0xFE; IcomCiv.radio_addr_ s;
                  IcomCiv.controller_addr_ s; 0x1C; 0x00;
                  if transmit then 0x01 else 0x00; 0xFD ] ]))
      /\ (IcomCiv.ready_ s = false \/ IcomCiv.serial_ s = None ->
          IcomCiv.set_ptt transmit s = (tt, s, [])))
  /\ (forall s,
      (forall p, YaesuCat.ready_ s = true -> YaesuCat.serial_ s = Some p ->
         YaesuCat.set_ptt transmit s
         = (tt, YaesuCat.with_transmitting transmit s,
            [ route (YaesuCat.send_callback_ s) p
                [ 0; 0; 0; 0; if transmit then 0x08 else 0x88 ] ]))
      /\ (YaesuCat.ready_ s = false \/ YaesuCat.serial_ s = None ->
          YaesuCat.set_ptt transmit s = (tt, s, []))).
Proof.
  split; [ | split ]; intros s; split.
  - intros p Hr Hs. rewrite (kenwood_set_ptt_ok transmit s p Hr Hs).
    destruct transmit; reflexivity.
  - apply kenwood_set_ptt_fail.
  - intros p Hr Hs. apply (icom_set_ptt_ok transmit s p Hr Hs).
  - apply icom_set_ptt_fail.
  - intros p Hr Hs. apply (yaesu_set_ptt_ok transmit s p Hr Hs).
  - apply yaesu_set_ptt_fail.
Qed.

Lemma X1_set_ptt_gate_witness :
  Kenwood.set_ptt true
    (after Kenwood.vtable [CInitialize] (Kenwood.new (Some 0%nat)))
  = (tt,
     Kenwood.with_transmitting true
       (after Kenwood.vtable [CInitialize] (Kenwood.new (Some 0%nat))),
     [SerialWrite 0%nat [84; 88; 59]])
  /\ IcomCiv.set_ptt true (IcomCiv.new None 0x94)
     = (tt, IcomCiv.new None 0x94, []).
Proof.
  destruct (X1_set_ptt_gate true) as (HK & HI & _). split.
  - exact (proj1 (HK (after Kenwood.vtable [CInitialize]
                         (Kenwood.new (Some 0%nat))))
             0%nat eq_refl eq_refl).
  - exact (proj2 (HI (IcomCiv.new None 0x94)) (or_introl eq_refl)).
Defined.

(** ** Whole sessions *)

Lemma session_wire {S} (v : IRadio S) (Inv : S -> Prop)
      (P : list Z -> Prop) :
  (forall c s, Inv s ->
               Inv (state_of (dispatch v c s))
               /\ Forall P (emitted (events (dispatch v c s)))) ->
  forall calls s,
    Inv s ->
    Inv (after v calls s) /\ Forall P (emitted (session_events v calls s)).
Proof.
  intros Hstep. induction calls as [|c rest IH]; intros s Hs.
  - split; [ exact Hs | constructor ].
  - rewrite after_cons. cbn [session_events]. rewrite emitted_app.
    destruct (Hstep c s Hs) as [Hs' Hev].
    destruct (IH _ Hs') as [Hend Hrest].
    split; [ exact Hend | apply Forall_app; split; assumption ].
Qed.

Lemma Forall_False_nil {A} (l : list A) : Forall (fun _ => False) l -> l = [].
Proof. destruct l; [ reflexivity | intros H; inversion H; contradiction ]. Qed.

Lemma bytes_eqb_refl a : bytes_eqb a a = true.
Proof. unfold bytes_eqb. destruct (list_eq_dec Z.eq_dec a a); congruence. Qed.

Lemma bytes_eqb_neq a b : a <> b -> bytes_eqb a b = false.
Proof. unfold bytes_eqb. destruct (list_eq_dec Z.eq_dec a b); congruence. Qed.

Lemma keyed_app on off es1 es2 k :
  keyed on off (es1 ++ es2) k = keyed on off es2 (keyed on off es1 k).
Proof. unfold keyed. rewrite emitted_app. apply fold_left_app. Qed.

Lemma session_keyed {S} (v : IRadio S) (Inv : S -> Prop) (on off : list Z) :
  (forall c s, Inv s ->
               Inv (state_of (dispatch v c s))
               /\ is_transmitting v (state_of (dispatch v c s))
                  = keyed on off (events (dispatch v c s))
                      (is_transmitting v s)) ->
  forall calls s,
    Inv s ->
    is_transmitting v (after v calls s)
    = keyed on off (session_events v calls s) (is_transmitting v s).
Proof.
  intros Hstep. induction calls as [|c rest IH]; intros s Hs.
  - reflexivity.
  - rewrite after_cons. cbn [session_events]. rewrite keyed_app.
    destruct (Hstep c s Hs) as [Hs' Hk]. rewrite (IH _ Hs'), Hk. reflexivity.
Qed.

(** The PTT state read off the byte strings of one call. *)
Lemma keyed_two on off d1 d2 es k :
  emitted es = [d1; d2] ->
  d1 <> on -> d1 <> off -> d2 <> on -> d2 <> off ->
  keyed on off es k = k.
Proof.
  intros He H1 H2 H3 H4. unfold keyed. rewrite He. cbn [fold_left].
  rewrite !bytes_eqb_neq by assumption. reflexivity.
Qed.

Lemma keyed_ptt on off es (t k : bool) :
  emitted es = [if t then on else off] -> on <> off ->
  keyed on off es k = t.
Proof.
  intros He Hne. unfold keyed. rewrite He. cbn [fold_left].
  destruct t.
  - rewrite bytes_eqb_refl. reflexivity.
  - rewrite bytes_eqb_neq by congruence. rewrite bytes_eqb_refl. reflexivity.
Qed.

Lemma keyed_nil on off es k : emitted es = [] -> keyed on off es k = k.
Proof. intros He. unfold keyed. rewrite He. reflexivity. Qed.

Lemma kenwood_freq_head vfo f :
  hd 0 (bytes_of (Kenwood.build_freq_command vfo f)) = 70.
Proof. reflexivity. Qed.

Lemma kenwood_mode_head m :
  hd 0 (bytes_of (Kenwood.build_mode_command m)) = 77.
Proof. reflexivity. Qed.

Lemma kenwood_keyed_step c s :
  Kenwood.transmitting_ (state_of (dispatch Kenwood.vtable c s))
  = keyed (kenwood_ptt true) (kenwood_ptt false)
      (events (dispatch Kenwood.vtable c s)) (Kenwood.transmitting_ s).
Proof.
  destruct (kenwood_dispatch_wire c s) as (Hev & Htx & _).
  cbv zeta in Hev, Htx. rewrite Htx.
  destruct c; try (symmetry; apply keyed_nil; exact Hev);
    destruct (gate_open (Kenwood.ready_ s) (Kenwood.serial_ s));
    try (symmetry; apply keyed_nil; exact Hev).
  - symmetry. eapply keyed_two; [ exact Hev | | | | ];
      intros H; apply (f_equal (hd 0)) in H;
      rewrite ?kenwood_freq_head, ?kenwood_mode_head in H; discriminate H.
  - symmetry. apply keyed_ptt; [ | discriminate ].
    rewrite Hev. destruct transmit; reflexivity.
Qed.

Lemma icom_keyed_step c s :
  IcomCiv.transmitting_ (state_of (dispatch IcomCiv.vtable c s))
  = keyed (civ_ptt (IcomCiv.radio_addr_ s) (IcomCiv.controller_addr_ s) true)
      (civ_ptt (IcomCiv.radio_addr_ s) (IcomCiv.controller_addr_ s) false)
      (events (dispatch IcomCiv.vtable c s)) (IcomCiv.transmitting_ s).
Proof.
  destruct (icom_dispatch_wire c s) as (Hev & Htx & _).
  cbv zeta in Hev, Htx. rewrite Htx.
  destruct c; try (symmetry; apply keyed_nil; exact Hev);
    destruct (gate_open (IcomCiv.ready_ s) (IcomCiv.serial_ s));
    try (symmetry; apply keyed_nil; exact Hev).
  - symmetry. eapply keyed_two; [ exact Hev | | | | ];
      intros H; apply (f_equal (fun l => nth 4 l 0)) in H; discriminate H.
  - symmetry. apply keyed_ptt.
    + rewrite Hev. destruct transmit; reflexivity.
    + intros H. apply (f_equal (fun l => nth 6 l 0)) in H. discriminate H.
Qed.

Lemma yaesu_keyed_step c s :
  YaesuCat.transmitting_ (state_of (dispatch YaesuCat.vtable c s))
  = keyed (yaesu_ptt true) (yaesu_ptt false)
      (events (dispatch YaesuCat.vtable c s)) (YaesuCat.transmitting_ s).
Proof.
  destruct (yaesu_dispatch_wire c s) as (Hev & Htx & _).
  cbv zeta in Hev, Htx. rewrite Htx.
  destruct c; try (symmetry; apply keyed_nil; exact Hev);
    destruct (gate_open (YaesuCat.ready_ s) (YaesuCat.serial_ s));
    try (symmetry; apply keyed_nil; exact Hev).
  - symmetry. eapply keyed_two; [ exact Hev | | | | ];
      intros H; apply (f_equal (fun l => nth 4 l 0)) in H; discriminate H.
  - symmetry. apply keyed_ptt; [ | discriminate ].
    rewrite Hev. destruct transmit; reflexivity.
Qed.

(** X2.  The PTT state of a codec is the one on the wire.  At the end of
    any session of interface calls on a fresh object, [is_transmitting] is
    true exactly when the last PTT command among the byte strings the
    object sent is the transmit command, and false when it is the receive
    command or when no PTT command was sent.  So no other call changes the
    flag ([shutdown] and [initialize] leave it alone and send nothing), and
    a [set_ptt] that is refused does not change it either. *)
Theorem X2_ptt_follows_wire
  (calls : list Call) (serial : option ISerial) (addr : Z) :
  is_transmitting Kenwood.vtable
    (after Kenwood.vtable calls (Kenwood.new serial))
  = keyed (kenwood_ptt true) (kenwood_ptt false)
      (session_events Kenwood.vtable calls (Kenwood.new serial)) false
  /\ is_transmitting Elecraft.vtable
       (after Elecraft.vtable calls (Elecraft.new serial))
     = keyed (kenwood_ptt true) (kenwood_ptt false)
         (session_events Elecraft.vtable calls (Elecraft.new serial)) false
  /\ is_transmitting IcomCiv.vtable
       (after IcomCiv.vtable calls (IcomCiv.new serial addr))
     = keyed (civ_ptt (u8 addr) CIV_CONTROLLER true)
         (civ_ptt (u8 addr) CIV_CONTROLLER false)
         (session_events IcomCiv.vtable calls (IcomCiv.new serial addr)) false
  /\ is_transmitting YaesuCat.vtable
       (after YaesuCat.vtable calls (YaesuCat.new serial))
     = keyed (yaesu_ptt true) (yaesu_ptt false)
         (session_events YaesuCat.vtable calls (YaesuCat.new serial)) false.
Proof.
  split; [ | split; [ | split ] ].
  - apply (session_keyed Kenwood.vtable (fun _ => True)); [ | exact I ].
    intros c s _. split; [ exact I | apply kenwood_keyed_step ].
  - apply (session_keyed Elecraft.vtable (fun _ => True)); [ | exact I ].
    intros c s _. split; [ exact I | ].
    destruct (elecraft_dispatch_kenwood c s) as [-> ->].
    apply kenwood_keyed_step.
  - apply (session_keyed IcomCiv.vtable
             (fun s => IcomCiv.radio_addr_ s = u8 addr
                       /\ IcomCiv.controller_addr_ s = CIV_CONTROLLER));
      [ | split; reflexivity ].
    intros c s [Hra Hca]. split.
    + destruct (icom_dispatch_frame c s) as (_ & -> & -> & _).
      split; assumption.
    + rewrite <- Hra, <- Hca. apply icom_keyed_step.
  - apply (session_keyed YaesuCat.vtable (fun _ => True)); [ | exact I ].
    intros c s _. split; [ exact I | apply yaesu_keyed_step ].
Qed.

Lemma gate_open_null {A} ready : gate_open ready (@None A) = false.
Proof. unfold gate_open. apply andb_false_r. Qed.

(** X3.  A codec built on a null serial pointer is inert.  Over any
    session of interface calls, whatever callbacks are registered on the
    way, it sends no byte, never reports transmitting and keeps the default
    channel: [set_channel] and [set_ptt] test the serial pointer, not the
    presence of a way to send. *)
Theorem X3_null_serial_inert (calls : list Call) (addr : Z) :
  (emitted (session_events Kenwood.vtable calls (Kenwood.new None)) = []
   /\ is_transmitting Kenwood.vtable
        (after Kenwood.vtable calls (Kenwood.new None)) = false
   /\ get_channel Kenwood.vtable
        (after Kenwood.vtable calls (Kenwood.new None)) = Channel_default)
  /\ (emitted (session_events Elecraft.vtable calls (Elecraft.new None)) = []
      /\ is_transmitting Elecraft.vtable
           (after Elecraft.vtable calls (Elecraft.new None)) = false
      /\ get_channel Elecraft.vtable
           (after Elecraft.vtable calls (Elecraft.new None)) = Channel_default)
  /\ (emitted (session_events IcomCiv.vtable calls (IcomCiv.new None addr))
      = []
      /\ is_transmitting IcomCiv.vtable
           (after IcomCiv.vtable calls (IcomCiv.new None addr)) = false
      /\ get_channel IcomCiv.vtable
           (after IcomCiv.vtable calls (IcomCiv.new None addr))
         = Channel_default)
  /\ (emitted (session_events YaesuCat.vtable calls (YaesuCat.new None)) = []
      /\ is_transmitting YaesuCat.vtable
           (after YaesuCat.vtable calls (YaesuCat.new None)) = false
      /\ get_channel YaesuCat.vtable
           (after YaesuCat.vtable calls (YaesuCat.new None))
         = Channel_default).
Proof.
  assert (HK : forall c s,
             Kenwood.serial_ s = None /\ Kenwood.transmitting_ s = false
             /\ Kenwood.current_channel_ s = Channel_default ->
             (Kenwood.serial_ (state_of (dispatch Kenwood.vtable c s)) = None
              /\ Kenwood.transmitting_
                   (state_of (dispatch Kenwood.vtable c s)) = false
              /\ Kenwood.current_channel_
                   (state_of (dispatch Kenwood.vtable c s)) = Channel_default)
             /\ Forall (fun _ => False)
                  (emitted (events (dispatch Kenwood.vtable c s)))).
  { intros c s (Hser & Htx & Hch).
    destruct (kenwood_dispatch_wire c s) as (Hev & Htx' & _ & Hch' & Hser').
    cbv zeta in Hev, Htx', Hch', Hser'.
    rewrite Hser, gate_open_null in Hev, Htx', Hch'.
    rewrite Hev, Htx', Hch', Hser'.
    destruct c; repeat split; try assumption; constructor. }
  split; [ | split; [ | split ] ].
  - destruct (session_wire Kenwood.vtable _ _ HK calls (Kenwood.new None))
      as ((_ & Htx & Hch) & Hev); [ repeat split | ].
    split; [ apply Forall_False_nil, Hev | split; assumption ].
  - destruct (session_wire Elecraft.vtable
                (fun s => Kenwood.serial_ s = None
                          /\ Kenwood.transmitting_ s = false
                          /\ Kenwood.current_channel_ s = Channel_default)
                (fun _ => False)) with (calls := calls)
                                       (s := Elecraft.new None)
      as ((_ & Htx & Hch) & Hev); [ | repeat split | ].
    + intros c s Hs. destruct (elecraft_dispatch_kenwood c s) as [-> ->].
      apply HK, Hs.
    + split; [ apply Forall_False_nil, Hev | split; assumption ].
  - destruct (session_wire IcomCiv.vtable
                (fun s => IcomCiv.serial_ s = None
                          /\ IcomCiv.transmitting_ s = false
                          /\ IcomCiv.current_channel_ s = Channel_default)
                (fun _ => False)) with (calls := calls)
                                       (s := IcomCiv.new None addr)
      as ((_ & Htx & Hch) & Hev); [ | repeat split | ].
    + intros c s (Hser & Htx & Hch).
      destruct (icom_dispatch_wire c s) as (Hev & Htx' & _ & Hch' & Hser').
      cbv zeta in Hev, Htx', Hch', Hser'.
      rewrite Hser, gate_open_null in Hev, Htx', Hch'.
      rewrite Hev, Htx', Hch', Hser'.
      destruct c; repeat split; try assumption; constructor.
    + split; [ apply Forall_False_nil, Hev | split; assumption ].
  - destruct (session_wire YaesuCat.vtable
                (fun s => YaesuCat.serial_ s = None
                          /\ YaesuCat.transmitting_ s = false
                          /\ YaesuCat.current_channel_ s = Channel_default)
                (fun _ => False)) with (calls := calls)
                                       (s := YaesuCat.new None)
      as ((_ & Htx & Hch) & Hev); [ | repeat split | ].
    + intros c s (Hser & Htx & Hch).
      destruct (yaesu_dispatch_wire c s) as (Hev & Htx' & _ & Hch' & Hser').
      cbv zeta in Hev, Htx', Hch', Hser'.
      rewrite Hser, gate_open_null in Hev, Htx', Hch'.
      rewrite Hev, Htx', Hch', Hser'.
      destruct c; repeat split; try assumption; constructor.
    + split; [ apply Forall_False_nil, Hev | split; assumption ].
Qed.

(** ** The life cycle *)

Lemma session_ready {S} (v : IRadio S) (ready : S -> bool) :
  (forall c s, ready (state_of (dispatch v c s)) = lifecycle_step (ready s) c) ->
  forall calls s,
    ready (after v calls s) = fold_left lifecycle_step calls (ready s).
Proof.
  intros Hstep. induction calls as [|c rest IH]; intros s; [ reflexivity | ].
  rewrite after_cons, IH, Hstep. reflexivity.
Qed.

Lemma follows_lifecycle_intro {S} (v : IRadio S) (fresh : S)
      (ready : S -> bool) (ser : S -> option ISerial) :
  ready fresh = false ->
  (forall c s, ready (state_of (dispatch v c s)) = lifecycle_step (ready s) c
               /\ ser (state_of (dispatch v c s)) = ser s) ->
  (forall s, is_ready v s = ready s /\ start v s = (ready s, s, [])) ->
  (forall ch s, result (set_channel v ch s) = gate_open (ready s) (ser s)) ->
  (forall c s, ready s = false -> emitted (events (dispatch v c s)) = []) ->
  follows_lifecycle v fresh (negb (is_null (ser fresh))).
Proof.
  intros Hfresh Hstep Hread Hset Hquiet calls s.
  assert (Hready : ready s = last_lifecycle calls).
  { unfold s, last_lifecycle. rewrite <- Hfresh.
    apply session_ready. intros c s'. apply Hstep. }
  assert (Hser : ser s = ser fresh).
  { unfold s, after.
    apply (run_invariant v (fun s' => ser s' = ser fresh)); [ | reflexivity ].
    intros c s' Hs'. rewrite (proj2 (Hstep c s')). exact Hs'. }
  destruct (Hread s) as [Hr Hs]. rewrite Hs.
  repeat split.
  - rewrite Hr. exact Hready.
  - exact Hready.
  - intros ch. rewrite Hset, Hready, Hser. reflexivity.
  - intros Hoff call. apply Hquiet. rewrite Hready. exact Hoff.
Qed.

Lemma kenwood_follows_lifecycle serial :
  follows_lifecycle Kenwood.vtable (Kenwood.new serial)
    (negb (is_null serial)).
Proof.
  apply (follows_lifecycle_intro Kenwood.vtable (Kenwood.new serial)
           Kenwood.ready_ Kenwood.serial_).
  - reflexivity.
  - intros c s.
    destruct (kenwood_dispatch_wire c s) as (_ & _ & Hr & _ & Hs).
    split; [ rewrite Hr; destruct c; reflexivity | exact Hs ].
  - intros s. split; reflexivity.
  - intros ch s. change (set_channel Kenwood.vtable ch s)
      with (Kenwood.set_channel ch s). unfold gate_open.
    destruct (Kenwood.ready_ s) eqn:Hr, (Kenwood.serial_ s) as [p|] eqn:Hs;
      [ rewrite (kenwood_set_channel_ok ch s p Hr Hs)
      | rewrite kenwood_set_channel_fail by (right; exact Hs)
      | rewrite kenwood_set_channel_fail by (left; exact Hr)
      | rewrite kenwood_set_channel_fail by (left; exact Hr) ];
      reflexivity.
  - intros c s Hr.
    destruct (kenwood_dispatch_wire c s) as (Hev & _).
    cbv zeta in Hev. rewrite Hev, Hr. destruct c; reflexivity.
Qed.

Lemma icom_follows_lifecycle serial addr :
  follows_lifecycle IcomCiv.vtable (IcomCiv.new serial addr)
    (negb (is_null serial)).
Proof.
  apply (follows_lifecycle_intro IcomCiv.vtable (IcomCiv.new serial addr)
           IcomCiv.ready_ IcomCiv.serial_).
  - reflexivity.
  - intros c s.
    destruct (icom_dispatch_wire c s) as (_ & _ & Hr & _ & Hs).
    split; [ rewrite Hr; destruct c; reflexivity | exact Hs ].
  - intros s. split; reflexivity.
  - intros ch s. change (set_channel IcomCiv.vtable ch s)
      with (IcomCiv.set_channel ch s). unfold gate_open.
    destruct (IcomCiv.ready_ s) eqn:Hr, (IcomCiv.serial_ s) as [p|] eqn:Hs;
      [ rewrite (icom_set_channel_ok ch s p Hr Hs)
      | rewrite icom_set_channel_fail by (right; exact Hs)
      | rewrite icom_set_channel_fail by (left; exact Hr)
      | rewrite icom_set_channel_fail by (left; exact Hr) ];
      reflexivity.
  - intros c s Hr.
    destruct (icom_dispatch_wire c s) as (Hev & _).
    cbv zeta in Hev. rewrite Hev, Hr. destruct c; reflexivity.
Qed.

Lemma yaesu_follows_lifecycle serial :
  follows_lifecycle YaesuCat.vtable (YaesuCat.new serial)
    (negb (is_null serial)).
Proof.
  apply (follows_lifecycle_intro YaesuCat.vtable (YaesuCat.new serial)
           YaesuCat.ready_ YaesuCat.serial_).
  - reflexivity.
  - intros c s.
    destruct (yaesu_dispatch_wire c s) as (_ & _ & Hr & _ & Hs).
    split; [ rewrite Hr; destruct c; reflexivity | exact Hs ].
  - intros s. split; reflexivity.
  - intros ch s. change (set_channel YaesuCat.vtable ch s)
      with (YaesuCat.set_channel ch s). unfold gate_open.
    destruct (YaesuCat.ready_ s) eqn:Hr, (YaesuCat.serial_ s) as [p|] eqn:Hs;
      [ rewrite (yaesu_set_channel_ok ch s p Hr Hs)
      | rewrite yaesu_set_channel_fail by (right; exact Hs)
      | rewrite yaesu_set_channel_fail by (left; exact Hr)
      | rewrite yaesu_set_channel_fail by (left; exact Hr) ];
      reflexivity.
  - intros c s Hr.
    destruct (yaesu_dispatch_wire c s) as (Hev & _).
    cbv zeta in Hev. rewrite Hev, Hr. destruct c; reflexivity.
Qed.

(** X4.  The life cycle.  For each codec, at the end of any session of
    interface calls on a fresh object, [is_ready] and [start] answer true
    exactly when the last [initialize] or [shutdown] call of the session was
    an [initialize] (false when there was none); [start] changes nothing and
    [stop] does not make the object unready.  In that state [set_channel]
    is accepted exactly when moreover the object was built on a serial
    collaborator, and while the object is not ready no call sends a byte. *)
Theorem X4_lifecycle (serial : option ISerial) (addr : Z) :
  follows_lifecycle Kenwood.vtable (Kenwood.new serial)
    (negb (is_null serial))
  /\ follows_lifecycle Elecraft.vtable (Elecraft.new serial)
       (negb (is_null serial))
  /\ follows_lifecycle IcomCiv.vtable (IcomCiv.new serial addr)
       (negb (is_null serial))
  /\ follows_lifecycle YaesuCat.vtable (YaesuCat.new serial)
       (negb (is_null serial)).
Proof.
  split; [ | split; [ | split ] ].
  - apply kenwood_follows_lifecycle.
  - apply (follows_lifecycle_intro Elecraft.vtable (Elecraft.new serial)
             Kenwood.ready_ Kenwood.serial_).
    + reflexivity.
    + intros c s. rewrite (proj2 (elecraft_dispatch_kenwood c s)).
      destruct (kenwood_dispatch_wire c s) as (_ & _ & Hr & _ & Hs).
      split; [ rewrite Hr; destruct c; reflexivity | exact Hs ].
    + intros s. split; reflexivity.
    + intros ch s. change (set_channel Elecraft.vtable ch s)
        with (Kenwood.set_channel ch s). unfold gate_open.
      destruct (Kenwood.ready_ s) eqn:Hr, (Kenwood.serial_ s) as [p|] eqn:Hs;
        [ rewrite (kenwood_set_channel_ok ch s p Hr Hs)
        | rewrite kenwood_set_channel_fail by (right; exact Hs)
        | rewrite kenwood_set_channel_fail by (left; exact Hr)
        | rewrite kenwood_set_channel_fail by (left; exact Hr) ];
        reflexivity.
    + intros c s Hr. rewrite (proj1 (elecraft_dispatch_kenwood c s)).
      destruct (kenwood_dispatch_wire c s) as (Hev & _).
      cbv zeta in Hev. rewrite Hev, Hr. destruct c; reflexivity.
  - apply icom_follows_lifecycle.
  - apply yaesu_follows_lifecycle.
Qed.

Lemma X4_lifecycle_witness :
  is_ready Kenwood.vtable
    (after Kenwood.vtable [CInitialize; CStop] (Kenwood.new (Some 0%nat)))
  = true
  /\ emitted
       (events
          (dispatch Kenwood.vtable (CSetPtt true)
             (after Kenwood.vtable [CInitialize; CShutdown]
                (Kenwood.new (Some 0%nat))))) = [].
Proof.
  destruct (X4_lifecycle (Some 0%nat) 0) as [HK _]. split.
  - exact (proj1 (HK [CInitialize; CStop])).
  - exact (proj2 (proj2 (proj2 (proj2 (HK [CInitialize; CShutdown]))))
             eq_refl (CSetPtt true)).
Defined.

(** X5.  [set_channel] reads two fields of the channel.  Two channels with
    the same receive frequency and the same receive mode make every codec,
    in every state, return the same value and send the same bytes the same
    way: the transmit frequency, the transmit mode, the antenna, the power,
    the attenuation, the id and the in-use flag are never sent to the
    radio (they are only stored for [get_channel]). *)
Theorem X5_set_channel_reads_rx_only (c c' : Channel) :
  rx_frequency c = rx_frequency c' -> rx_mode c = rx_mode c' ->
  (forall s, result (Kenwood.set_channel c s)
             = result (Kenwood.set_channel c' s)
             /\ events (Kenwood.set_channel c s)
                = events (Kenwood.set_channel c' s)
             /\ Kenwood.get_channel (state_of (Kenwood.set_channel c s))
                = if result (Kenwood.set_channel c s) then c
                  else Kenwood.get_channel s)
  /\ (forall s, result (IcomCiv.set_channel c s)
                = result (IcomCiv.set_channel c' s)
                /\ events (IcomCiv.set_channel c s)
                   = events (IcomCiv.set_channel c' s)
                /\ IcomCiv.get_channel (state_of (IcomCiv.set_channel c s))
                   = if result (IcomCiv.set_channel c s) then c
                     else IcomCiv.get_channel s)
  /\ (forall s, result (YaesuCat.set_channel c s)
                = result (YaesuCat.set_channel c' s)
                /\ events (YaesuCat.set_channel c s)
                   = events (YaesuCat.set_channel c' s)
                /\ YaesuCat.get_channel (state_of (YaesuCat.set_channel c s))
                   = if result (YaesuCat.set_channel c s) then c
                     else YaesuCat.get_channel s).
Proof.
  intros Hf Hm. split; [ | split ]; intros s.
  - destruct (Kenwood.ready_ s) eqn:Hr, (Kenwood.serial_ s) as [p|] eqn:Hs;
      [ rewrite !(kenwood_set_channel_ok _ s p Hr Hs), Hf, Hm
      | rewrite !kenwood_set_channel_fail by (right; exact Hs)
      | rewrite !kenwood_set_channel_fail by (left; exact Hr)
      | rewrite !kenwood_set_channel_fail by (left; exact Hr) ];
      repeat split.
  - destruct (IcomCiv.ready_ s) eqn:Hr, (IcomCiv.serial_ s) as [p|] eqn:Hs;
      [ rewrite !(icom_set_channel_ok _ s p Hr Hs), Hf, Hm
      | rewrite !icom_set_channel_fail by (right; exact Hs)
      | rewrite !icom_set_channel_fail by (left; exact Hr)
      | rewrite !icom_set_channel_fail by (left; exact Hr) ];
      repeat split.
  - destruct (YaesuCat.ready_ s) eqn:Hr, (YaesuCat.serial_ s) as [p|] eqn:Hs;
      [ rewrite !(yaesu_set_channel_ok _ s p Hr Hs), Hf, Hm
      | rewrite !yaesu_set_channel_fail by (right; exact Hs)
      | rewrite !yaesu_set_channel_fail by (left; exact Hr)
      | rewrite !yaesu_set_channel_fail by (left; exact Hr) ];
      repeat split.
Qed.

Lemma X5_set_channel_reads_rx_only_witness :
  events (Kenwood.set_channel channel_14250000_split
            (after Kenwood.vtable [CInitialize] (Kenwood.new (Some 0%nat))))
  = events (Kenwood.set_channel channel_14250000_usb
              (after Kenwood.vtable [CInitialize] (Kenwood.new (Some 0%nat)))).
Proof.
  exact (proj1 (proj2 (proj1 (X5_set_channel_reads_rx_only
                               channel_14250000_split channel_14250000_usb
                               eq_refl eq_refl) _))).
Defined.

Lemma char_semicolon b : Ascii.eqb (char_of_byte b) ";" = (u8 b =? 59).
Proof.
  unfold char_of_byte.
  assert (Hb : 0 <= u8 b < Z.of_nat 256)
    by (unfold u8; pose proof (Z.mod_pos_bound b (2 ^ 8)); lia).
  pose proof (by_enumeration 256
    (fun z => Bool.eqb (Ascii.eqb (ascii_of_N (Z.to_N z)) ";") (z =? 59))
    eq_refl (u8 b) Hb) as H.
  apply eqb_prop in H. exact H.
Qed.

Lemma count_acks_app es1 es2 :
  count_acks (es1 ++ es2) = (count_acks es1 + count_acks es2)%nat.
Proof. unfold count_acks. rewrite filter_app, length_app. reflexivity. Qed.

Lemma kenwood_acks_count ack data :
  count_acks (kenwood_acks ack data)
  = (if is_null ack then 0 else semicolons data)%nat.
Proof.
  induction data as [|b rest IH].
  - destruct ack; reflexivity.
  - unfold kenwood_acks, semicolons in *. cbn [flat_map filter].
    rewrite count_acks_app, IH, char_semicolon.
    destruct (u8 b =? 59), ack; reflexivity.
Qed.

Lemma kenwood_feed_semicolon buf :
  kenwood_feed [59] buf = [].
Proof. reflexivity. Qed.

Lemma kenwood_acks_repeat ack data :
  kenwood_acks ack data
  = match ack with
    | Some f => repeat (AckInvoked f) (semicolons data)
    | None => []
    end.
Proof.
  induction data as [|b rest IH].
  - destruct ack; reflexivity.
  - unfold kenwood_acks, semicolons in *. cbn [flat_map filter].
    rewrite IH, char_semicolon.
    destruct (u8 b =? 59), ack; reflexivity.
Qed.

(** X6.  The Kenwood parser acknowledges every semicolon.  For any bytes
    and any state, [process_response] invokes a registered acknowledge
    callback once per semicolon among the bytes, whatever stands before
    the semicolon (an empty reply [";"] and the error reply ["?;"] count
    like any other), does nothing else to the outside, and touches only
    the parse buffer.  After a semicolon the buffer starts afresh: what
    follows the last semicolon, when it is no more than 256 bytes, is the
    buffer left behind. *)
Theorem X6_kenwood_acks_every_semicolon (data : list Z) (s : Kenwood.t) :
  let r := Kenwood.process_response data s in
  events r
  = match Kenwood.ack_callback_ s with
    | Some f => repeat (AckInvoked f) (semicolons data)
    | None => []
    end
  /\ state_of r = Kenwood.with_rx_buffer (Kenwood.rx_buffer_ (state_of r)) s
  /\ (forall front tail,
        data = front ++ [59] ++ tail ->
        no_semicolon tail -> (length tail <= 256)%nat ->
        Kenwood.rx_buffer_ (state_of r) = map char_of_byte tail).
Proof.
  cbv zeta. rewrite kenwood_process_response_eq.
  unfold events, state_of. cbn [fst snd].
  split; [ apply kenwood_acks_repeat | split ].
  - destruct s; reflexivity.
  - intros front tail -> Htail Hlen.
    destruct s as [ser ch tx rdy scb acb buf]. cbn [Kenwood.with_rx_buffer
      Kenwood.rx_buffer_].
    rewrite !kenwood_feed_app. rewrite kenwood_feed_semicolon.
    rewrite kenwood_feed_accumulates by (cbn [length]; try assumption; lia).
    reflexivity.
Qed.

Lemma X6_kenwood_acks_every_semicolon_witness :
  let s := after Kenwood.vtable [CInitialize; CRegisterAck (Some 3%nat)]
             (Kenwood.new (Some 0%nat)) in
  Kenwood.rx_buffer_
    (state_of (Kenwood.process_response (bytes_of (str "?;FA")) s))
  = str "FA".
Proof.
  cbv zeta.
  apply (proj2 (proj2 (X6_kenwood_acks_every_semicolon
                         (bytes_of (str "?;FA"))
                         (after Kenwood.vtable
                            [CInitialize; CRegisterAck (Some 3%nat)]
                            (Kenwood.new (Some 0%nat)))))
           [63] [70; 65]).
  - reflexivity.
  - repeat constructor.
  - cbn [length]. lia.
Defined.

Lemma feed_chunks_for_each {S} (v : IRadio S) (body : Z -> M S unit) :
  (forall d s, process_response v d s = for_each body d s) ->
  forall chunks s,
    feed_chunks v chunks s
    = (state_of (for_each body (concat chunks) s),
       events (for_each body (concat chunks) s)).
Proof.
  intros Hv. induction chunks as [|d rest IH]; intros s; [ reflexivity | ].
  cbn [feed_chunks concat]. rewrite IH, Hv, for_each_app.
  unfold state_of, events. cbn [fst snd]. reflexivity.
Qed.

Lemma yaesu_process_response_eq data s :
  YaesuCat.process_response data s
  = (tt, s, match data with
            | [] => []
            | _ :: _ => ack_events (YaesuCat.ack_callback_ s)
            end).
Proof.
  unfold YaesuCat.process_response. destruct data as [|b rest].
  - reflexivity.
  - replace (0 <? Z.of_nat (length (b :: rest))) with true
      by (symmetry; apply Z.ltb_lt; cbn [length]; lia).
    destruct s as [ser ch tx rdy scb acb]. run_monad. read_fields.
    destruct acb; reflexivity.
Qed.

(** X7.  A reply that arrives in pieces.  For the Kenwood and the Icom
    parser it makes no difference how a stream of bytes is cut into calls
    of [process_response]: the state left and the acknowledgements raised
    are those of one call on the whole stream.  The Yaesu codec does not
    look at the bytes: every call that brings at least one byte invokes a
    registered acknowledge callback once and changes nothing, so the number
    of acknowledgements is the number of non-empty pieces. *)
Theorem X7_response_chunking (chunks : list (list Z)) :
  (forall s,
      feed_chunks Kenwood.vtable chunks s
      = (state_of (Kenwood.process_response (concat chunks) s),
         events (Kenwood.process_response (concat chunks) s)))
  /\ (forall s,
      feed_chunks Elecraft.vtable chunks s
      = (state_of (Kenwood.process_response (concat chunks) s),
         events (Kenwood.process_response (concat chunks) s)))
  /\ (forall s,
      feed_chunks IcomCiv.vtable chunks s
      = (state_of (IcomCiv.process_response (concat chunks) s),
         events (IcomCiv.process_response (concat chunks) s)))
  /\ (forall s,
      feed_chunks YaesuCat.vtable chunks s
      = (s, match YaesuCat.ack_callback_ s with
            | Some f => repeat (AckInvoked f) (nonempty_chunks chunks)
            | None => []
            end)).
Proof.
  split; [ | split; [ | split ] ]; intros s.
  - apply (feed_chunks_for_each Kenwood.vtable Kenwood.process_byte).
    reflexivity.
  - apply (feed_chunks_for_each Elecraft.vtable Kenwood.process_byte).
    reflexivity.
  - apply (feed_chunks_for_each IcomCiv.vtable IcomCiv.process_byte).
    reflexivity.
  - induction chunks as [|d rest IH].
    + destruct (YaesuCat.ack_callback_ s); reflexivity.
    + cbn [feed_chunks].
      change (process_response YaesuCat.vtable d s)
        with (YaesuCat.process_response d s).
      rewrite yaesu_process_response_eq. unfold state_of, events.
      cbn [fst snd]. rewrite IH. unfold nonempty_chunks. cbn [filter].
      destruct d as [|b d]; cbn [length Nat.eqb negb app];
        destruct (YaesuCat.ack_callback_ s); reflexivity.
Qed.

(** ** CI-V frames *)

Lemma no_eom_app d1 d2 : no_eom d1 -> no_eom d2 -> no_eom (d1 ++ d2).
Proof. intros H1 H2. apply Forall_app. split; assumption. Qed.

(** A run of bytes closed by the end marker, fed in one call. *)
Lemma civ_frame_eq body s :
  no_eom body ->
  (length (IcomCiv.rx_buffer_ s) + length body <= 255)%nat ->
  IcomCiv.process_response (body ++ [CIV_EOM]) s
  = (tt, IcomCiv.with_rx_buffer [] s,
     if civ_is_ack_frame (IcomCiv.rx_buffer_ s ++ body ++ [CIV_EOM])
     then ack_events (IcomCiv.ack_callback_ s) else []).
Proof.
  intros Hbody Hlen. rewrite civ_process_response_eq.
  rewrite civ_feed_app, civ_acks_app.
  rewrite (civ_acks_none _ body) by exact Hbody.
  rewrite (civ_feed_accumulates body) by (try assumption; lia).
  cbn [civ_feed fold_left civ_acks app].
  unfold civ_buffer_after. rewrite Z.eqb_refl. cbn [andb].
  rewrite app_nil_r, <- app_assoc. reflexivity.
Qed.

Lemma with_rx_buffer_same s :
  IcomCiv.with_rx_buffer (IcomCiv.rx_buffer_ s) s = s.
Proof. destruct s; reflexivity. Qed.

(** X8.  What the Icom parser takes for an acknowledgement.  A run of
    bytes without end marker followed by the end marker [0xFD], fed in one
    call to a parser whose buffer together with the run stays below 256
    bytes, empties the buffer and invokes a registered acknowledge callback
    exactly when the buffer followed by the run and the end marker has at
    least 6 bytes, begins [0xFE 0xFE] and carries [0xFB] at offset 4, and
    not at all otherwise.  So on an empty buffer a frame [FE FE x y FB ...
    FD] is acknowledged whatever the two address bytes [x], [y] and
    whatever follows the ACK code; and the same frame behind a stray byte
    that is not an end marker is not acknowledged, because the parser
    matches the preamble at offset 0 of its buffer only. *)
Theorem X8_civ_ack_recognition (s : IcomCiv.t) (f : nat) :
  IcomCiv.ack_callback_ s = Some f ->
  (forall body,
      no_eom body ->
      (length (IcomCiv.rx_buffer_ s) + length body <= 255)%nat ->
      let r := IcomCiv.process_response (body ++ [CIV_EOM]) s in
      IcomCiv.rx_buffer_ (state_of r) = []
      /\ events r
         = if civ_is_ack_frame (IcomCiv.rx_buffer_ s ++ body ++ [CIV_EOM])
           then [AckInvoked f] else [])
  /\ (forall x y payload,
        IcomCiv.rx_buffer_ s = [] ->
        no_eom (x :: y :: payload) -> (length payload <= 250)%nat ->
        events (IcomCiv.process_response (civ_ack_frame x y payload) s)
        = [AckInvoked f])
  /\ (forall g x y payload,
        IcomCiv.rx_buffer_ s = [] ->
        g <> CIV_PREAMBLE ->
        no_eom (g :: x :: y :: payload) -> (length payload <= 249)%nat ->
        events (IcomCiv.process_response (g :: civ_ack_frame x y payload) s)
        = []).
Proof.
  intros Hack. split; [ | split ].
  - intros body Hbody Hlen. cbv zeta. rewrite civ_frame_eq by assumption.
    unfold state_of, events. cbn [fst snd]. rewrite Hack.
    split; [ destruct s; reflexivity | reflexivity ].
  - intros x y payload Hbuf Hno Hlen.
    inversion Hno as [|? ? Hx Hno1]; subst.
    inversion Hno1 as [|? ? Hy Hpay]; subst.
    change (civ_ack_frame x y payload)
      with (([CIV_PREAMBLE; CIV_PREAMBLE; x; y; CIV_ACK] ++ payload)
              ++ [CIV_EOM]).
    rewrite civ_frame_eq.
    + rewrite Hbuf, Hack. cbn [app]. unfold civ_is_ack_frame.
      cbn [IcomCiv.at_ nth]. rewrite !Z.eqb_refl, !andb_true_r.
      replace (6 <=? _) with true; [ reflexivity | ].
      symmetry. apply Z.leb_le. cbn [length]. rewrite length_app.
      cbn [length]. lia.
    + apply no_eom_app; [ | exact Hpay ]. repeat constructor; assumption.
    + rewrite Hbuf, length_app. cbn [length]. lia.
  - intros g x y payload Hbuf Hg Hno Hlen.
    inversion Hno as [|? ? Hg' Hno0]; subst.
    inversion Hno0 as [|? ? Hx Hno1]; subst.
    inversion Hno1 as [|? ? Hy Hpay]; subst.
    change (g :: civ_ack_frame x y payload)
      with (([g; CIV_PREAMBLE; CIV_PREAMBLE; x; y; CIV_ACK] ++ payload)
              ++ [CIV_EOM]).
    rewrite civ_frame_eq.
    + rewrite Hbuf. cbn [app]. unfold civ_is_ack_frame.
      cbn [IcomCiv.at_ nth].
      apply Z.eqb_neq in Hg. rewrite Hg, andb_false_r. reflexivity.
    + apply no_eom_app; [ | exact Hpay ]. repeat constructor; assumption.
    + rewrite Hbuf, length_app. cbn [length]. lia.
Qed.

Lemma X8_civ_ack_recognition_witness :
  events
    (IcomCiv.process_response
       (civ_ack_frame CIV_CONTROLLER IcomRadioAddress.IC_7300 [])
       (after IcomCiv.vtable [CInitialize; CRegisterAck (Some 3%nat)]
          (IcomCiv.new (Some 0%nat) IcomRadioAddress.IC_7300)))
  = [AckInvoked 3%nat].
Proof.
  apply (proj1 (proj2 (X8_civ_ack_recognition
                         (after IcomCiv.vtable
                            [CInitialize; CRegisterAck (Some 3%nat)]
                            (IcomCiv.new (Some 0%nat)
                               IcomRadioAddress.IC_7300))
                         3%nat eq_refl))).
  - reflexivity.
  - repeat constructor.
  - cbn [length]. lia.
Defined.

(** ** Binary-coded decimal *)

Lemma pack_is_bcd h l :
  0 <= h < 10 -> 0 <= l < 10 -> is_bcd (u8 (Z.lor (Z.shiftl h 4) l)).
Proof.
  intros Hh Hl.
  pose (check := fun h => forallb (fun l =>
     let b := u8 (Z.lor (Z.shiftl h 4) l) in
     (b / 16 =? h) && (b mod 16 =? l)) (zrange 10)).
  assert (Hall : forallb check (zrange 10) = true) by (vm_compute; reflexivity).
  pose proof (by_enumeration 10 check Hall h Hh) as Hc.
  unfold check in Hc.
  pose proof (by_enumeration 10 _ Hc l Hl) as Hb.
  cbv zeta in Hb. apply andb_true_iff in Hb. destruct Hb as [H1 H2].
  apply Z.eqb_eq in H1, H2. unfold is_bcd. rewrite H1, H2. lia.
Qed.

Lemma is_bcd_range b : is_bcd b -> 0 <= b <= 0x99.
Proof.
  intros [Hh Hl]. rewrite (Z.div_mod b 16) by lia. lia.
Qed.

Lemma freq_to_bcd_is_bcd len :
  forall f, length (IcomCiv.freq_to_bcd f len) = len
            /\ Forall is_bcd (IcomCiv.freq_to_bcd f len).
Proof.
  induction len as [|k IH]; intros f; [ split; [ reflexivity | constructor ] | ].
  cbn [IcomCiv.freq_to_bcd length]. destruct (IH (f / 10 / 10)) as [Hlen Hall].
  split; [ rewrite Hlen; reflexivity | ].
  constructor; [ | exact Hall ].
  pose proof (Z.mod_pos_bound f 10). pose proof (Z.mod_pos_bound (f / 10) 10).
  rewrite !(u8_small (_ mod 10)) by lia.
  apply pack_is_bcd; lia.
Qed.

Lemma yaesu_pack_is_bcd hi lo : is_bcd (YaesuCat.pack hi lo).
Proof.
  unfold YaesuCat.pack.
  pose proof (Z.mod_pos_bound hi 10). pose proof (Z.mod_pos_bound lo 10).
  apply pack_is_bcd; lia.
Qed.

(** X9.  Frequencies go out as decimal digits only.  Whatever the
    frequency, [freq_to_bcd] writes exactly [len] bytes and
    [freq_to_packed_bcd] exactly 4, and in every byte both nibbles are
    decimal digits: the byte lies between [0x00] and [0x99].  So the data
    field of a frequency command never holds one of the CI-V control bytes
    [0xFA], [0xFB], [0xFD], [0xFE]. *)
Theorem X9_frequency_bytes_are_bcd (f : Z) (len : nat) :
  length (IcomCiv.freq_to_bcd f len) = len
  /\ Forall (fun b => is_bcd b /\ 0 <= b <= 0x99
                      /\ b <> CIV_EOM /\ b <> CIV_PREAMBLE
                      /\ b <> CIV_ACK /\ b <> CIV_NAK)
       (IcomCiv.freq_to_bcd f len)
  /\ length (YaesuCat.freq_to_packed_bcd f) = 4%nat
  /\ Forall (fun b => is_bcd b /\ 0 <= b <= 0x99)
       (YaesuCat.freq_to_packed_bcd f).
Proof.
  destruct (freq_to_bcd_is_bcd len f) as [Hlen Hall].
  split; [ exact Hlen | split; [ | split; [ reflexivity | ] ] ].
  - eapply Forall_impl; [ | exact Hall ].
    intros b Hb. pose proof (is_bcd_range b Hb).
    unfold CIV_EOM, CIV_PREAMBLE, CIV_ACK, CIV_NAK. repeat split; try lia;
      apply Hb.
  - unfold YaesuCat.freq_to_packed_bcd.
    repeat constructor; try apply yaesu_pack_is_bcd;
      apply is_bcd_range, yaesu_pack_is_bcd.
Qed.

(** ** The echo of a command *)

Lemma civ_own_frame_ignored ra cmd data s :
  IcomCiv.rx_buffer_ s = [] -> no_eom data ->
  cmd <> CIV_EOM -> cmd <> CIV_ACK -> (length data <= 200)%nat ->
  IcomCiv.process_response
    ([CIV_PREAMBLE; CIV_PREAMBLE; ra; CIV_CONTROLLER; cmd] ++ data ++ [CIV_EOM])
    s
  = (tt, s, []).
Proof.
  intros Hbuf Hdata Hcmd Hack Hlen.
  assert (Hs : IcomCiv.with_rx_buffer [] s = s)
    by (rewrite <- Hbuf; apply with_rx_buffer_same).
  apply Z.eqb_neq in Hcmd, Hack.
  destruct (Z.eqb_spec ra CIV_EOM) as [-> | Hra].
  - change ([CIV_PREAMBLE; CIV_PREAMBLE; CIV_EOM; CIV_CONTROLLER; cmd]
              ++ data ++ [CIV_EOM])
      with (([CIV_PREAMBLE; CIV_PREAMBLE] ++ [CIV_EOM])
              ++ (([CIV_CONTROLLER; cmd] ++ data) ++ [CIV_EOM])).
    unfold IcomCiv.process_response. rewrite for_each_app.
    change (for_each IcomCiv.process_byte)
      with IcomCiv.process_response.
    rewrite (civ_frame_eq [CIV_PREAMBLE; CIV_PREAMBLE] s)
      by (rewrite ?Hbuf; cbn [length]; try lia; repeat constructor).
    unfold state_of, events. cbn [fst snd]. rewrite Hs, Hbuf.
    rewrite civ_frame_eq.
    + rewrite Hs, Hbuf. cbn [app]. unfold civ_is_ack_frame.
      cbn [IcomCiv.at_ nth length]. cbn [Z.eqb CIV_CONTROLLER CIV_PREAMBLE].
      rewrite !andb_false_r. reflexivity.
    + apply no_eom_app; [ | exact Hdata ].
      constructor; [ reflexivity | constructor; [ exact Hcmd | constructor ] ].
    + rewrite Hbuf, length_app. cbn [length]. lia.
  - apply Z.eqb_neq in Hra.
    change ([CIV_PREAMBLE; CIV_PREAMBLE; ra; CIV_CONTROLLER; cmd]
              ++ data ++ [CIV_EOM])
      with (([CIV_PREAMBLE; CIV_PREAMBLE; ra; CIV_CONTROLLER; cmd] ++ data)
              ++ [CIV_EOM]).
    rewrite civ_frame_eq.
    + rewrite Hs, Hbuf. cbn [app]. unfold civ_is_ack_frame.
      cbn [IcomCiv.at_ nth]. rewrite Hack, !andb_false_r. reflexivity.
    + apply no_eom_app; [ | exact Hdata ].
      repeat constructor; assumption.
    + rewrite Hbuf, length_app. cbn [length]. lia.
Qed.

Lemma civ_mode_not_eom m :
  (u8 (IcomCiv.radio_mode_to_civ m) =? CIV_EOM) = false.
Proof. destruct m; reflexivity. Qed.

(** X10.  The Icom parser does not take the codec's own commands for an
    acknowledgement.  On the one-wire CI-V bus the controller hears every
    frame it sends.  Each frame that [set_channel] or [set_ptt] sends, for
    any channel and at any radio address (the end-marker value [0xFD]
    included), fed back to a parser whose buffer is empty, invokes no
    acknowledge callback and leaves the buffer empty: the object is
    exactly as before. *)
Theorem X10_civ_echo_ignored
  (s : IcomCiv.t) (ch : Channel) (t : bool) (frame : list Z) :
  IcomCiv.controller_addr_ s = CIV_CONTROLLER ->
  In frame (emitted (events (IcomCiv.set_channel ch s))
            ++ emitted (events (IcomCiv.set_ptt t s))) ->
  forall s', IcomCiv.rx_buffer_ s' = [] ->
             IcomCiv.process_response frame s' = (tt, s', []).
Proof.
  intros Hca Hin s' Hbuf.
  destruct (IcomCiv.ready_ s) eqn:Hr, (IcomCiv.serial_ s) as [p|] eqn:Hs;
    [ rewrite (icom_set_channel_ok ch s p Hr Hs) in Hin
    | rewrite icom_set_channel_fail in Hin by (right; exact Hs)
    | rewrite icom_set_channel_fail in Hin by (left; exact Hr)
    | rewrite icom_set_channel_fail in Hin by (left; exact Hr) ];
    [ rewrite (icom_set_ptt_ok t s p Hr Hs) in Hin
    | rewrite icom_set_ptt_fail in Hin by (right; exact Hs)
    | rewrite icom_set_ptt_fail in Hin by (left; exact Hr)
    | rewrite icom_set_ptt_fail in Hin by (left; exact Hr) ];
    unfold events in Hin; cbn [snd] in Hin;
    try (cbn in Hin; contradiction).
  rewrite emitted_route in Hin.
  assert (Hptt : emitted
            [route (IcomCiv.send_callback_ s) p
               (civ_ptt (IcomCiv.radio_addr_ s) (IcomCiv.controller_addr_ s) t)]
          = [civ_ptt (IcomCiv.radio_addr_ s) (IcomCiv.controller_addr_ s) t])
    by (destruct (IcomCiv.send_callback_ s); reflexivity).
  rewrite Hptt in Hin. clear Hptt.
  unfold IcomCiv.build_frame, civ_ptt in Hin. rewrite Hca in Hin.
  cbn [app In] in Hin.
  destruct Hin as [<- | [<- | [<- | []]]].
  - apply (civ_own_frame_ignored _ CivCommand.SET_FREQ
             (IcomCiv.freq_to_bcd (rx_frequency ch) 5));
      try assumption; try discriminate.
    + destruct (freq_to_bcd_is_bcd 5 (rx_frequency ch)) as [_ Hall].
      eapply Forall_impl; [ | exact Hall ].
      intros b Hb. pose proof (is_bcd_range b Hb).
      apply Z.eqb_neq. unfold CIV_EOM. lia.
    + rewrite (proj1 (freq_to_bcd_is_bcd 5 _)). lia.
  - apply (civ_own_frame_ignored _ CivCommand.SET_MODE
             [u8 (IcomCiv.radio_mode_to_civ (rx_mode ch))]);
      try assumption; try discriminate.
    + constructor; [ apply civ_mode_not_eom | constructor ].
    + cbn [length]. lia.
  - apply (civ_own_frame_ignored _ CivCommand.PTT
             [0x00; if t then 0x01 else 0x00]);
      try assumption; try discriminate.
    + constructor; [ reflexivity | ].
      constructor; [ destruct t; reflexivity | constructor ].
    + cbn [length]. lia.
Qed.

Lemma X10_civ_echo_ignored_witness :
  IcomCiv.process_response
    [0xFE; 0xFE; 0x94; 0xE0; 0x05; 0x00; 0x00; 0x25; 0x14; 0x00; 0xFD]
    (after IcomCiv.vtable [CInitialize; CRegisterAck (Some 3%nat)]
       (IcomCiv.new (Some 0%nat) 0x94))
  = (tt,
     after IcomCiv.vtable [CInitialize; CRegisterAck (Some 3%nat)]
       (IcomCiv.new (Some 0%nat) 0x94),
     []).
Proof.
  apply (X10_civ_echo_ignored
           (after IcomCiv.vtable [CInitialize; CRegisterAck (Some 3%nat)]
              (IcomCiv.new (Some 0%nat) 0x94))
           channel_14250000_usb true).
  - reflexivity.
  - left. reflexivity.
  - reflexivity.
Defined.

(** X11.  The Icom frequency codec at any length.  For every 32-bit
    frequency and every number of bytes, decoding the encoded frequency
    gives the frequency modulo [100 ^ len]: a field of [len] bytes carries
    the low [2 * len] decimal digits and drops the rest.  Five bytes and
    more carry every 32-bit frequency; four bytes lose everything from
    100 MHz up. *)
Theorem X11_civ_roundtrip_any_length (f : Z) (len : nat) :
  0 <= f < 2 ^ 32 ->
  IcomCiv.bcd_to_freq (IcomCiv.freq_to_bcd f len) len
  = f mod 100 ^ Z.of_nat len
  /\ ((5 <= len)%nat ->
      IcomCiv.bcd_to_freq (IcomCiv.freq_to_bcd f len) len = f)
  /\ (len = 4%nat ->
      IcomCiv.bcd_to_freq (IcomCiv.freq_to_bcd f len) len = f mod 100000000).
Proof.
  intros Hf.
  assert (Hgen : IcomCiv.bcd_to_freq (IcomCiv.freq_to_bcd f len) len
                 = f mod 100 ^ Z.of_nat len).
  { unfold IcomCiv.bcd_to_freq.
    rewrite bcd_loop_spec by (try reflexivity; lia).
    rewrite Z.add_0_l, Z.mul_1_l. apply u32_small.
    assert (0 < 100 ^ Z.of_nat len) by (apply Z.pow_pos_nonneg; lia).
    pose proof (Z.mod_pos_bound f (100 ^ Z.of_nat len)).
    pose proof (Z.mod_le f (100 ^ Z.of_nat len)). lia. }
  split; [ exact Hgen | split ].
  - intros Hlen. rewrite Hgen. apply Z.mod_small.
    assert (100 ^ 5 <= 100 ^ Z.of_nat len)
      by (apply Z.pow_le_mono_r; lia).
    lia.
  - intros ->. rewrite Hgen. reflexivity.
Qed.

Lemma X11_civ_roundtrip_any_length_witness :
  IcomCiv.bcd_to_freq (IcomCiv.freq_to_bcd 144200000 4) 4 = 44200000.
Proof.
  assert (H : 0 <= 144200000 < 2 ^ 32) by lia.
  exact (proj2 (proj2 (X11_civ_roundtrip_any_length 144200000 4 H)) eq_refl).
Defined.

(** ** The decoders on their own *)

Lemma bcd_value_nonneg bcd : 0 <= bcd_value bcd.
Proof.
  induction bcd as [|b rest IH]; cbn [bcd_value]; [ lia | ].
  pose proof (Z.land_nonneg b 0x0F). pose proof (Z.land_nonneg (Z.shiftr b 4) 0x0F).
  lia.
Qed.

Lemma bcd_decode_loop bcd :
  forall freq mult,
    u32 freq = freq ->
    IcomCiv.bcd_to_freq_loop bcd (length bcd) freq mult
    = u32 (freq + mult * bcd_value bcd).
Proof.
  induction bcd as [|b rest IH]; intros freq mult Hfreq.
  - cbn [length IcomCiv.bcd_to_freq_loop bcd_value].
    rewrite Z.mul_0_r, Z.add_0_r. symmetry. exact Hfreq.
  - cbn [length IcomCiv.bcd_to_freq_loop bcd_value].
    rewrite IH by apply u32_idem.
    generalize (bcd_value rest) as V.
    generalize (Z.land b 0x0F) as lo.
    generalize (Z.land (Z.shiftr b 4) 0x0F) as hi.
    intros hi lo V. unfold u32. Z.mod_equality.
Qed.

Lemma bcd_byte_nibbles b :
  is_bcd b ->
  Z.land b 0x0F = b mod 16 /\ Z.land (Z.shiftr b 4) 0x0F = b / 16
  /\ u8 (Z.lor (Z.shiftl (b / 16) 4) (b mod 16)) = b.
Proof.
  intros Hb. pose proof (is_bcd_range b Hb) as Hr.
  assert (Hz : 0 <= b < Z.of_nat 154) by lia.
  pose proof (by_enumeration 154
    (fun b => (Z.land b 0x0F =? b mod 16)
              && (Z.land (Z.shiftr b 4) 0x0F =? b / 16)
              && (u8 (Z.lor (Z.shiftl (b / 16) 4) (b mod 16)) =? b))
    eq_refl b Hz) as H.
  apply andb_true_iff in H. destruct H as [H H3].
  apply andb_true_iff in H. destruct H as [H1 H2].
  apply Z.eqb_eq in H1, H2, H3. repeat split; assumption.
Qed.

Lemma two_digit_split l h V :
  0 <= l <= 9 -> 0 <= h <= 9 ->
  (l + 10 * h + 100 * V) mod 10 = l
  /\ ((l + 10 * h + 100 * V) / 10) mod 10 = h
  /\ (l + 10 * h + 100 * V) / 10 / 10 = V.
Proof.
  intros Hl Hh.
  assert (H10 : (l + 10 * h + 100 * V) / 10 = h + 10 * V).
  { replace (l + 10 * h + 100 * V) with (l + (h + 10 * V) * 10) by lia.
    rewrite Z.div_add by lia. rewrite Z.div_small by lia. lia. }
  rewrite H10. repeat split.
  - replace (l + 10 * h + 100 * V) with (l + (h + 10 * V) * 10) by lia.
    rewrite Z.mod_add by lia. apply Z.mod_small. lia.
  - replace (h + 10 * V) with (h + V * 10) by lia.
    rewrite Z.mod_add by lia. apply Z.mod_small. lia.
  - replace (h + 10 * V) with (h + V * 10) by lia.
    rewrite Z.div_add by lia. rewrite Z.div_small by lia. lia.
Qed.

Lemma bcd_reencode bcd :
  Forall is_bcd bcd ->
  IcomCiv.freq_to_bcd (bcd_value bcd) (length bcd) = bcd.
Proof.
  induction 1 as [|b rest Hb Hrest IH]; [ reflexivity | ].
  cbn [length IcomCiv.freq_to_bcd bcd_value].
  destruct (bcd_byte_nibbles b Hb) as (Hlo & Hhi & Hbyte).
  rewrite Hlo, Hhi. destruct Hb as [Hh Hl].
  destruct (two_digit_split (b mod 16) (b / 16) (bcd_value rest) Hl Hh)
    as (H0 & H1 & H2).
  rewrite H0, H1, H2.
  rewrite (u8_small (b mod 16)), (u8_small (b / 16)) by lia.
  rewrite Hbyte, IH. reflexivity.
Qed.

(** X12.  The Icom frequency decoder.  [bcd_to_freq] reads its bytes as
    pairs of decimal digits, least significant pair first, and returns the
    number they stand for modulo [2 ^ 32]: the [uint32_t] accumulator wraps
    without notice, so a five-byte field that stands for 4 294 967 296 Hz or
    more comes back as a different, smaller frequency.  When the bytes are
    valid BCD and stand for a number below [2 ^ 32], encoding the decoded
    frequency at the same length gives the bytes back. *)
Theorem X12_civ_decoder (bcd : list Z) :
  IcomCiv.bcd_to_freq bcd (length bcd) = bcd_value bcd mod 2 ^ 32
  /\ (Forall is_bcd bcd -> bcd_value bcd < 2 ^ 32 ->
      IcomCiv.bcd_to_freq bcd (length bcd) = bcd_value bcd
      /\ IcomCiv.freq_to_bcd (IcomCiv.bcd_to_freq bcd (length bcd))
           (length bcd) = bcd).
Proof.
  assert (Hdec : IcomCiv.bcd_to_freq bcd (length bcd)
                 = bcd_value bcd mod 2 ^ 32).
  { unfold IcomCiv.bcd_to_freq. rewrite bcd_decode_loop by reflexivity.
    rewrite Z.add_0_l, Z.mul_1_l. reflexivity. }
  split; [ exact Hdec | ].
  intros Hbcd Hsmall. pose proof (bcd_value_nonneg bcd).
  rewrite Hdec, Z.mod_small by lia.
  split; [ reflexivity | apply bcd_reencode, Hbcd ].
Qed.

Lemma X12_civ_decoder_witness :
  IcomCiv.bcd_to_freq [0x00; 0x00; 0x25; 0x14; 0x00] 5 = 14250000
  /\ IcomCiv.freq_to_bcd
       (IcomCiv.bcd_to_freq [0x00; 0x00; 0x25; 0x14; 0x00] 5) 5
     = [0x00; 0x00; 0x25; 0x14; 0x00].
Proof.
  apply (proj2 (X12_civ_decoder [0x00; 0x00; 0x25; 0x14; 0x00])).
  - repeat constructor; cbv; discriminate.
  - cbv. reflexivity.
Defined.

(** Five bytes that stand for 5 GHz decode to 5 000 000 000 - 2 ^ 32. *)
Example civ_decoder_wraps :
  bcd_value [0x00; 0x00; 0x00; 0x00; 0x50] = 5000000000
  /\ IcomCiv.bcd_to_freq [0x00; 0x00; 0x00; 0x00; 0x50] 5 = 705032704.
Proof. split; reflexivity. Qed.

(** ** Yaesu above 1 GHz *)

Lemma eight_digits_mod g :
  0 <= g ->
  (g / 10000000) mod 10 * 10000000 + (g / 1000000) mod 10 * 1000000
  + (g / 100000) mod 10 * 100000 + (g / 10000) mod 10 * 10000
  + (g / 1000) mod 10 * 1000 + (g / 100) mod 10 * 100
  + (g / 10) mod 10 * 10 + g mod 10 = g mod 10 ^ 8.
Proof.
  intros Hg.
  Z.div_mod_to_equations. lia.
Qed.

Lemma digit_of_mod g k m :
  0 < k -> 0 < m ->
  ((g mod (k * 10 * m)) / k) mod 10 = (g / k) mod 10.
Proof.
  intros Hk Hm.
  rewrite (Z.div_mod g (k * 10 * m)) at 2 by lia.
  replace (k * 10 * m * (g / (k * 10 * m)) + g mod (k * 10 * m))
    with (g mod (k * 10 * m) + (m * (g / (k * 10 * m)) * 10) * k) by ring.
  rewrite Z.div_add by lia. rewrite Z.mod_add by lia. reflexivity.
Qed.

Lemma drop_last_digit f c :
  0 < c -> (f mod (10 * c)) / 10 = (f / 10) mod c.
Proof.
  intros Hc. rewrite Z.rem_mul_r by lia.
  replace (f mod 10 + 10 * ((f / 10) mod c))
    with (f mod 10 + ((f / 10) mod c) * 10) by ring.
  rewrite Z.div_add by lia.
  pose proof (Z.mod_pos_bound f 10). rewrite Z.div_small by lia. lia.
Qed.

(** X13.  The Yaesu frequency codec on every 32-bit frequency.  The four
    packed bytes hold eight decimal digits of the frequency in units of
    10 Hz, so decoding the encoded frequency drops the last digit and
    everything from 1 GHz up: the result is [10 * ((f / 10) mod 10 ^ 8)].
    A frequency of 1 GHz or more is sent as, and read back as, a frequency
    below 1 GHz: the same bytes as for [f mod 10 ^ 9]. *)
Theorem X13_yaesu_roundtrip_all (f : Z) :
  0 <= f < 2 ^ 32 ->
  YaesuCat.packed_bcd_to_freq (YaesuCat.freq_to_packed_bcd f)
  = 10 * ((f / 10) mod 10 ^ 8)
  /\ YaesuCat.freq_to_packed_bcd f
     = YaesuCat.freq_to_packed_bcd (f mod 10 ^ 9)
  /\ (10 ^ 9 <= f ->
      YaesuCat.packed_bcd_to_freq (YaesuCat.freq_to_packed_bcd f) < 10 ^ 9).
Proof.
  intros Hf.
  assert (Hg : 0 <= f / 10) by (apply Z.div_pos; lia).
  assert (Hdec : YaesuCat.packed_bcd_to_freq (YaesuCat.freq_to_packed_bcd f)
                 = 10 * ((f / 10) mod 10 ^ 8)).
  { unfold YaesuCat.packed_bcd_to_freq, YaesuCat.freq_to_packed_bcd.
    cbn [nth].
    repeat match goal with
    | |- context [YaesuCat.hi_nibble (YaesuCat.pack ?h ?l)] =>
        rewrite (proj1 (pack_nibbles h l))
    | |- context [YaesuCat.lo_nibble (YaesuCat.pack ?h ?l)] =>
        rewrite (proj2 (pack_nibbles h l))
    end.
    generalize dependent (f / 10). intros g Hg.
    pose proof (eight_digits_mod g Hg) as Hsum.
    assert (Hm : 0 <= g mod 10 ^ 8 < 10 ^ 8) by (apply Z.mod_pos_bound; lia).
    transitivity (u32 (10 * (g mod 10 ^ 8))); [ | apply u32_small; lia ].
    rewrite <- Hsum. clear Hsum Hm.
    generalize ((g / 10000000) mod 10), ((g / 1000000) mod 10),
      ((g / 100000) mod 10), ((g / 10000) mod 10), ((g / 1000) mod 10),
      ((g / 100) mod 10), ((g / 10) mod 10), (g mod 10).
    intros d7 d6 d5 d4 d3 d2 d1 d0. unfold u32.
    Z.mod_equality. }
  split; [ exact Hdec | split ].
  - unfold YaesuCat.freq_to_packed_bcd, YaesuCat.pack.
    change (10 ^ 9) with (10 * 10 ^ 8).
    rewrite drop_last_digit by lia.
    set (g := f / 10).
    rewrite <- (digit_of_mod g 10000000 1),
            <- (digit_of_mod g 1000000 10),
            <- (digit_of_mod g 100000 100),
            <- (digit_of_mod g 10000 1000),
            <- (digit_of_mod g 1000 10000),
            <- (digit_of_mod g 100 100000),
            <- (digit_of_mod g 10 1000000) by lia.
    replace (g mod 10) with ((g mod 10 ^ 8) mod 10)
      by (change (10 ^ 8) with (10 * 10000000);
          rewrite Z.rem_mul_r by lia;
          replace (g mod 10 + 10 * ((g / 10) mod 10000000))
            with (g mod 10 + (g / 10) mod 10000000 * 10) by ring;
          rewrite Z.mod_add by lia; apply Z.mod_mod; lia).
    reflexivity.
  - intros _. rewrite Hdec.
    assert (0 <= (f / 10) mod 10 ^ 8 < 10 ^ 8)
      by (apply Z.mod_pos_bound; lia).
    lia.
Qed.

Lemma X13_yaesu_roundtrip_all_witness :
  YaesuCat.packed_bcd_to_freq (YaesuCat.freq_to_packed_bcd 1296000000)
  = 296000000.
Proof.
  assert (H : 0 <= 1296000000 < 2 ^ 32) by lia.
  exact (proj1 (X13_yaesu_roundtrip_all 1296000000 H)).
Defined.

(** ** The mode tables, from the radio's side *)

Lemma RadioMode_eqb_eq m m' : RadioMode_eqb m m' = true -> m = m'.
Proof. destruct m, m'; (reflexivity || discriminate). Qed.

(** X14.  A native mode code read and sent back.  Each native mode type
    has [uint8_t] for its underlying type, so every byte is a value of it.
    Through [kenwood_to_radio_mode] and [radio_mode_to_kenwood] a byte
    comes back unchanged exactly when it is one of the eight Kenwood codes;
    through the Icom pair exactly when it is one of the Icom codes other
    than DV ([0x17]); through the Yaesu pair exactly when it is one of the
    Yaesu codes other than PKT ([0x0C]) and FM-narrow ([0x88]).  A byte
    that is no code of the type, and the codes DV and FM-narrow, are read
    as USB; the Yaesu PKT code is read as FSK and goes back out as the
    digital code [0x0A]. *)
Theorem X14_native_mode_roundtrip (k : Z) :
  0 <= k < 256 ->
  (kenwood_back k =? k) = code_in k kenwood_codes
  /\ (civ_back k =? k) = code_in k civ_codes && negb (k =? CivMode.DV)
  /\ (yaesu_back k =? k)
     = code_in k yaesu_codes && negb (k =? YaesuMode.PKT)
       && negb (k =? YaesuMode.FM_N)
  /\ (code_in k kenwood_codes = false -> Kenwood.kenwood_to_radio_mode k = USB)
  /\ (code_in k civ_codes = false \/ k = CivMode.DV ->
      IcomCiv.civ_to_radio_mode k = USB)
  /\ (code_in k yaesu_codes = false \/ k = YaesuMode.FM_N ->
      YaesuCat.yaesu_to_radio_mode k = USB)
  /\ (k = YaesuMode.PKT ->
      YaesuCat.yaesu_to_radio_mode k = FSK /\ yaesu_back k = YaesuMode.DIG).
Proof.
  intros Hk.
  assert (Hz : 0 <= k < Z.of_nat 256) by lia.
  pose proof (by_enumeration 256
    (fun k => Bool.eqb (kenwood_back k =? k) (code_in k kenwood_codes))
    eq_refl k Hz) as H1.
  pose proof (by_enumeration 256
    (fun k => Bool.eqb (civ_back k =? k)
                (code_in k civ_codes && negb (k =? CivMode.DV)))
    eq_refl k Hz) as H2.
  pose proof (by_enumeration 256
    (fun k => Bool.eqb (yaesu_back k =? k)
                (code_in k yaesu_codes && negb (k =? YaesuMode.PKT)
                 && negb (k =? YaesuMode.FM_N)))
    eq_refl k Hz) as H3.
  pose proof (by_enumeration 256
    (fun k => code_in k kenwood_codes
              || RadioMode_eqb (Kenwood.kenwood_to_radio_mode k) USB)
    eq_refl k Hz) as H4.
  pose proof (by_enumeration 256
    (fun k => (code_in k civ_codes && negb (k =? CivMode.DV))
              || RadioMode_eqb (IcomCiv.civ_to_radio_mode k) USB)
    eq_refl k Hz) as H5.
  pose proof (by_enumeration 256
    (fun k => (code_in k yaesu_codes && negb (k =? YaesuMode.FM_N))
              || RadioMode_eqb (YaesuCat.yaesu_to_radio_mode k) USB)
    eq_refl k Hz) as H6.
  cbv beta in H1, H2, H3, H4, H5, H6.
  apply eqb_prop in H1, H2, H3.
  split; [ exact H1 | split; [ exact H2 | split; [ exact H3 | ] ] ].
  split; [ | split; [ | split; [ | split ] ] ].
  - intros E. rewrite E in H4. apply RadioMode_eqb_eq, H4.
  - intros [E | E]; [ rewrite E in H5 | ].
    + apply RadioMode_eqb_eq, H5.
    + subst k. reflexivity.
  - intros [E | E]; [ rewrite E in H6 | ].
    + apply RadioMode_eqb_eq, H6.
    + subst k. reflexivity.
  - subst k. reflexivity.
  - subst k. reflexivity.
Qed.

Lemma X14_native_mode_roundtrip_witness :
  (civ_back CivMode.DV =? CivMode.DV) = false
  /\ IcomCiv.civ_to_radio_mode CivMode.DV = USB.
Proof.
  assert (H : 0 <= CivMode.DV < 256) by (unfold CivMode.DV; lia).
  destruct (X14_native_mode_roundtrip CivMode.DV H)
    as (_ & H2 & _ & _ & H5 & _).
  split; [ exact H2 | apply H5; right; reflexivity ].
Defined.

(** ** The width of a number *)

Lemma dec_digits_length_le fuel :
  forall n k, 0 <= n < 10 ^ Z.of_nat k -> (1 <= k)%nat ->
              (length (dec_digits fuel n) <= k)%nat.
Proof.
  induction fuel as [|fuel IH]; intros n k Hn Hk; cbn [dec_digits].
  - cbn [length]. lia.
  - destruct (Z.ltb_spec n 10) as [Hlt|Hge]; [ cbn [length]; lia | ].
    rewrite length_app. cbn [length].
    destruct k as [|[|k]]; [ lia | simpl in Hn; lia | ].
    assert (length (dec_digits fuel (n / 10)) <= S k)%nat; [ | lia ].
    apply IH; [ | lia ].
    rewrite (Nat2Z.inj_succ (S k)), Z.pow_succ_r in Hn by lia.
    split; [ apply Z.div_pos; lia | ].
    apply Z.div_lt_upper_bound; lia.
Qed.

Lemma dec_digits_length_ge fuel :
  forall n k, 10 ^ Z.of_nat k <= n -> (k < fuel)%nat ->
              (k + 1 <= length (dec_digits fuel n))%nat.
Proof.
  induction fuel as [|fuel IH]; intros n k Hn Hk; [ lia | ].
  cbn [dec_digits].
  assert (0 < 10 ^ Z.of_nat k) by (apply Z.pow_pos_nonneg; lia).
  destruct k as [|k].
  - destruct (n <? 10); [ cbn [length]; lia | ].
    rewrite length_app. cbn [length]. lia.
  - rewrite Nat2Z.inj_succ, Z.pow_succ_r in Hn by lia.
    assert (0 < 10 ^ Z.of_nat k) by (apply Z.pow_pos_nonneg; lia).
    destruct (Z.ltb_spec n 10) as [Hlt|Hge]; [ lia | ].
    rewrite length_app. cbn [length].
    assert (k + 1 <= length (dec_digits fuel (n / 10)))%nat; [ | lia ].
    apply IH; [ | lia ].
    apply Z.div_le_lower_bound; lia.
Qed.

Lemma dec_digits_nonempty fuel n :
  (1 <= fuel)%nat -> (1 <= length (dec_digits fuel n))%nat.
Proof.
  destruct fuel as [|fuel]; [ lia | ]. intros _. cbn [dec_digits].
  destruct (n <? 10); [ cbn [length]; lia | ].
  rewrite length_app. cbn [length]. lia.
Qed.

Lemma zero_pad_length_max w ds :
  length (zero_pad w ds) = Nat.max w (length ds).
Proof. unfold zero_pad. rewrite length_app, repeat_length. lia. Qed.

(** The number of characters of ["%03d"] and of ["%d"]. *)
Lemma fmt_d_short w n :
  (w <= 3)%nat -> - 999 <= n <= 9999 -> (length (fmt_d w n) <= 4)%nat.
Proof.
  intros Hw Hn. unfold fmt_d.
  destruct (Z.ltb_spec n 0).
  - cbn [length]. rewrite zero_pad_length_max.
    pose proof (dec_digits_length_le 10 (- n) 3 ltac:(simpl; lia) ltac:(lia)).
    lia.
  - rewrite zero_pad_length_max.
    pose proof (dec_digits_length_le 10 n 4 ltac:(simpl; lia) ltac:(lia)).
    lia.
Qed.

Lemma fmt_d_long w n :
  n < - 999 \/ 9999 < n -> - 2 ^ 31 <= n < 2 ^ 31 ->
  (5 <= length (fmt_d w n))%nat.
Proof.
  intros Hn Hint. unfold fmt_d.
  destruct (Z.ltb_spec n 0).
  - cbn [length]. rewrite zero_pad_length_max.
    pose proof (dec_digits_length_ge 10 (- n) 3 ltac:(simpl; lia) ltac:(lia)).
    lia.
  - rewrite zero_pad_length_max.
    pose proof (dec_digits_length_ge 10 n 4 ltac:(simpl; lia) ltac:(lia)).
    lia.
Qed.

(** The characters of a formatted number: digits and the sign. *)
Lemma fmt_d_chars w n :
  Forall (fun c => c = "-"%char \/ 0 <= digit_value c <= 9) (fmt_d w n).
Proof.
  assert (Hpad : forall w ds,
             Forall (fun c => c = "-"%char \/ 0 <= digit_value c <= 9) ds ->
             Forall (fun c => c = "-"%char \/ 0 <= digit_value c <= 9)
               (zero_pad w ds)).
  { intros w' ds Hds. unfold zero_pad. apply Forall_app. split; [ | exact Hds ].
    apply Forall_forall. intros c Hc. apply repeat_spec in Hc. subst c.
    right. vm_compute. split; discriminate. }
  unfold fmt_d. destruct (Z.ltb_spec n 0).
  - constructor; [ left; reflexivity | ]. apply Hpad.
    eapply Forall_impl; [ | apply dec_digits_are_digits; lia ].
    intros c Hc. right. exact Hc.
  - apply Hpad.
    eapply Forall_impl; [ | apply dec_digits_are_digits; lia ].
    intros c Hc. right. exact Hc.
Qed.

Lemma number_char c :
  c = "-"%char \/ 0 <= digit_value c <= 9 ->
  Ascii.eqb c "000" = false /\ c <> ";"%char.
Proof.
  intros [-> | Hc]; [ split; [ reflexivity | discriminate ] | ].
  split; [ apply digit_not_nul, Hc | ].
  intros ->. vm_compute in Hc. destruct Hc as [_ Hc]. apply Hc. reflexivity.
Qed.

Lemma In_firstn {A} (n : nat) (l : list A) (x : A) :
  In x (firstn n l) -> In x l.
Proof.
  intros H. rewrite <- (firstn_skipn n l). apply in_or_app. left. exact H.
Qed.

(** A two-letter prefix, a number and a semicolon through a buffer of 8. *)
Lemma buffer_of_8 (p1 p2 : ascii) (num : list ascii) :
  Ascii.eqb p1 "000" = false -> Ascii.eqb p2 "000" = false ->
  Forall (fun c => c = "-"%char \/ 0 <= digit_value c <= 9) num ->
  ((length num <= 4)%nat ->
   string_of_buf (snprintf 8 ([p1; p2] ++ num ++ str ";"))
   = [p1; p2] ++ num ++ str ";")
  /\ ((5 <= length num)%nat ->
      string_of_buf (snprintf 8 ([p1; p2] ++ num ++ str ";"))
      = [p1; p2] ++ firstn 5 num).
Proof.
  intros H1 H2 Hnum.
  assert (Hnul : Forall (fun c => Ascii.eqb c "000" = false) num).
  { eapply Forall_impl; [ | exact Hnum ]. intros c Hc.
    apply (proj1 (number_char c Hc)). }
  split; intros Hlen; unfold snprintf.
  - rewrite firstn_all2
      by (cbn [app length]; rewrite length_app; cbn [str length
            list_ascii_of_string]; lia).
    apply string_of_buf_id. cbn [app].
    constructor; [ exact H1 | constructor; [ exact H2 | ] ].
    apply Forall_app. split; [ exact Hnul | ].
    constructor; [ reflexivity | constructor ].
  - change (8 - 1)%nat with 7%nat.
    change ([p1; p2] ++ num ++ str ";") with (p1 :: p2 :: (num ++ str ";")).
    rewrite !firstn_cons, firstn_app.
    replace (5 - length num)%nat with 0%nat by lia.
    rewrite firstn_O, app_nil_r.
    apply string_of_buf_id.
    constructor; [ exact H1 | constructor; [ exact H2 | ] ].
    apply Forall_forall. intros c Hc. rewrite Forall_forall in Hnul.
    apply Hnul. apply (In_firstn _ _ _ Hc).
Qed.

(** X15.  The two Elecraft commands.  [set_power] and [set_antenna] are
    not behind the test of [set_channel] and [set_ptt]: in every state,
    ready or not, they change nothing in the object and hand one string to
    [Kenwood::send_command], which puts it on the send callback when one is
    registered, else on the serial collaborator when there is one, and
    drops it otherwise.  The string goes through a buffer of 8 characters:
    for an argument from -999 to 9999 it is the two letters, the number
    (["%03d"] for the power, ["%d"] for the antenna) and the semicolon; for
    any other [int] it is cut to 7 characters, the two letters and the
    first five characters of the number, and holds no semicolon. *)
Theorem X15_elecraft_commands (n : Z) (s : Elecraft.t) :
  - 2 ^ 31 <= n < 2 ^ 31 ->
  (Elecraft.set_power n s = (tt, s, sent s (power_command n))
   /\ Elecraft.set_antenna n s = (tt, s, sent s (antenna_command n)))
  /\ (- 999 <= n <= 9999 ->
      power_command n = str "PC" ++ fmt_d 3 n ++ str ";"
      /\ antenna_command n = str "AN" ++ fmt_d 0 n ++ str ";")
  /\ (n < - 999 \/ 9999 < n ->
      power_command n = str "PC" ++ firstn 5 (fmt_d 3 n)
      /\ antenna_command n = str "AN" ++ firstn 5 (fmt_d 0 n)
      /\ length (power_command n) = 7%nat
      /\ length (antenna_command n) = 7%nat
      /\ ~ In ";"%char (power_command n)
      /\ ~ In ";"%char (antenna_command n)).
Proof.
  intros Hint.
  destruct (buffer_of_8 "P" "C" (fmt_d 3 n) eq_refl eq_refl (fmt_d_chars 3 n))
    as [HPs HPl].
  destruct (buffer_of_8 "A" "N" (fmt_d 0 n) eq_refl eq_refl (fmt_d_chars 0 n))
    as [HAs HAl].
  split; [ | split ].
  - unfold Elecraft.set_power, Elecraft.set_antenna, Kenwood.send_command,
      sent, power_command, antenna_command.
    destruct s as [ser ch tx rdy scb acb buf]. run_monad. read_fields.
    destruct scb, ser; split; reflexivity.
  - intros Hn. split.
    + apply HPs, fmt_d_short; [ lia | exact Hn ].
    + apply HAs, fmt_d_short; [ lia | exact Hn ].
  - intros Hn.
    pose proof (fmt_d_long 3 n Hn Hint) as H3.
    pose proof (fmt_d_long 0 n Hn Hint) as H0.
    assert (HP : power_command n = str "PC" ++ firstn 5 (fmt_d 3 n))
      by (apply HPl, H3).
    assert (HA : antenna_command n = str "AN" ++ firstn 5 (fmt_d 0 n))
      by (apply HAl, H0).
    assert (Hsemi : forall w, ~ In ";"%char (firstn 5 (fmt_d w n))).
    { intros w Hin.
      pose proof (fmt_d_chars w n) as Hall. rewrite Forall_forall in Hall.
      apply (proj2 (number_char _ (Hall _ (In_firstn _ _ _ Hin)))).
      reflexivity. }
    rewrite HP, HA.
    repeat split.
    + cbn [str list_ascii_of_string app length].
      rewrite length_firstn. lia.
    + cbn [str list_ascii_of_string app length].
      rewrite length_firstn. lia.
    + cbn [str list_ascii_of_string app In].
      intros [E | [E | Hin]]; [ discriminate E | discriminate E | ].
      exact (Hsemi 3%nat Hin).
    + cbn [str list_ascii_of_string app In].
      intros [E | [E | Hin]]; [ discriminate E | discriminate E | ].
      exact (Hsemi 0%nat Hin).
Qed.

Lemma X15_elecraft_commands_witness :
  power_command 100 = str "PC100;"
  /\ power_command 12345 = str "PC12345"
  /\ antenna_command (- 1) = str "AN-1;".
Proof.
  assert (H1 : - 2 ^ 31 <= 100 < 2 ^ 31) by lia.
  assert (H2 : - 2 ^ 31 <= 12345 < 2 ^ 31) by lia.
  assert (H3 : - 2 ^ 31 <= - 1 < 2 ^ 31) by lia.
  split; [ | split ].
  - apply (proj1 (proj2 (X15_elecraft_commands 100 (Kenwood.new None) H1))).
    lia.
  - apply (proj2 (proj2 (X15_elecraft_commands 12345 (Kenwood.new None) H2))).
    lia.
  - apply (proj1 (proj2 (X15_elecraft_commands (- 1) (Kenwood.new None) H3))).
    lia.
Defined.

(** ** The shape of what goes on the wire *)

Lemma session_wire_calls {S} (v : IRadio S) (Inv : S -> Prop)
      (P : list Z -> Prop) (Q : Call -> Prop) :
  (forall c s, Q c -> Inv s ->
               Inv (state_of (dispatch v c s))
               /\ Forall P (emitted (events (dispatch v c s)))) ->
  forall calls s,
    Forall Q calls -> Inv s ->
    Inv (after v calls s) /\ Forall P (emitted (session_events v calls s)).
Proof.
  intros Hstep. induction calls as [|c rest IH]; intros s Hq Hs.
  - split; [ exact Hs | constructor ].
  - rewrite after_cons. cbn [session_events]. rewrite emitted_app.
    inversion Hq as [|? ? Hc Hrest]; subst.
    destruct (Hstep c s Hc Hs) as [Hs' Hev].
    destruct (IH _ Hrest Hs') as [Hend Hevs].
    split; [ exact Hend | apply Forall_app; split; assumption ].
Qed.

Lemma byte_semicolon c : (u8 (byte_of_char c) =? 59) = Ascii.eqb c ";".
Proof.
  destruct c as [[] [] [] [] [] [] [] []]; reflexivity.
Qed.

Lemma byte_not_zero c : Ascii.eqb c "000" = false -> byte_of_char c <> 0.
Proof.
  destruct c as [[] [] [] [] [] [] [] []]; (discriminate || (intros _; discriminate)).
Qed.

(** A string without semicolon and without NUL, closed by a semicolon. *)
Lemma kenwood_command_ok_intro body :
  Forall (fun c => Ascii.eqb c "000" = false /\ c <> ";"%char) body ->
  (length body <= 13)%nat ->
  kenwood_command_ok (bytes_of (body ++ str ";")).
Proof.
  intros Hbody Hlen. unfold kenwood_command_ok, bytes_of.
  rewrite map_app. cbn [str list_ascii_of_string map].
  repeat split.
  - unfold semicolons. rewrite filter_app, length_app.
    replace (filter _ (map byte_of_char body)) with (@nil Z).
    + reflexivity.
    + symmetry. clear Hlen.
      induction Hbody as [|c rest [_ Hc] _ IH]; [ reflexivity | ].
      cbn [map filter]. rewrite byte_semicolon.
      apply Ascii.eqb_neq in Hc. rewrite Hc. exact IH.
  - apply last_last.
  - intros Hin. apply in_app_or in Hin. destruct Hin as [Hin | Hin].
    + apply in_map_iff in Hin. destruct Hin as (c & Hc & Hin).
      rewrite Forall_forall in Hbody.
      apply (byte_not_zero c (proj1 (Hbody c Hin)) Hc).
    + destruct Hin as [E | []]. discriminate E.
  - rewrite length_app, length_map. cbn [length]. lia.
Qed.

Lemma kenwood_freq_command_ok f :
  0 <= f < 2 ^ 32 ->
  kenwood_command_ok (bytes_of (Kenwood.build_freq_command "A" f)).
Proof.
  intros Hf. rewrite build_freq_command_shape by (try discriminate; lia).
  change (str "F" ++ ["A"%char] ++ fmt_u 11 f ++ str ";")
    with (("F"%char :: "A"%char :: fmt_u 11 f) ++ str ";").
  apply kenwood_command_ok_intro.
  - constructor; [ split; [ reflexivity | discriminate ] | ].
    constructor; [ split; [ reflexivity | discriminate ] | ].
    eapply Forall_impl; [ | apply (fmt_u_are_digits 11 f); lia ].
    intros c Hc. apply number_char. right. exact Hc.
  - cbn [length]. rewrite fmt_u_11_length. lia.
Qed.

Lemma kenwood_mode_command_ok m :
  kenwood_command_ok (bytes_of (Kenwood.build_mode_command m)).
Proof. destruct m; closed_command_ok. Qed.

Lemma kenwood_ptt_command_ok t : kenwood_command_ok (kenwood_ptt t).
Proof. destruct t; closed_command_ok. Qed.

Lemma kenwood_wire_step c s :
  call_in_range c ->
  Forall kenwood_command_ok (emitted (events (dispatch Kenwood.vtable c s))).
Proof.
  intros Hc. destruct (kenwood_dispatch_wire c s) as (Hev & _).
  cbv zeta in Hev. rewrite Hev.
  destruct c; try constructor;
    destruct (gate_open (Kenwood.ready_ s) (Kenwood.serial_ s));
    try constructor.
  - apply kenwood_freq_command_ok, Hc.
  - constructor; [ apply kenwood_mode_command_ok | constructor ].
  - apply kenwood_ptt_command_ok.
  - constructor.
Qed.

Lemma last_app_one {A} (l : list A) (x d : A) : last (l ++ [x]) d = x.
Proof. apply last_last. Qed.

Lemma icom_wire_step c s :
  IcomCiv.controller_addr_ s = CIV_CONTROLLER ->
  Forall (civ_frame_ok (IcomCiv.radio_addr_ s))
    (emitted (events (dispatch IcomCiv.vtable c s))).
Proof.
  intros Hca. destruct (icom_dispatch_wire c s) as (Hev & _).
  cbv zeta in Hev. rewrite Hev.
  destruct c; try constructor;
    destruct (gate_open (IcomCiv.ready_ s) (IcomCiv.serial_ s));
    try constructor.
  - unfold civ_frame_ok, IcomCiv.build_frame. rewrite Hca.
    split; [ reflexivity | split ].
    + rewrite app_assoc. apply last_last.
    + rewrite !length_app.
      match goal with
      | |- context [length (IcomCiv.freq_to_bcd ?f 5)] =>
          rewrite (proj1 (freq_to_bcd_is_bcd 5 f))
      end.
      right. right. left. reflexivity.
  - constructor; [ | constructor ].
    unfold civ_frame_ok, IcomCiv.build_frame. rewrite Hca.
    repeat split. left. reflexivity.
  - unfold civ_frame_ok, civ_ptt. rewrite Hca.
    repeat split. right. left. reflexivity.
  - constructor.
Qed.

Lemma yaesu_wire_step c s :
  Forall yaesu_command_ok (emitted (events (dispatch YaesuCat.vtable c s))).
Proof.
  destruct (yaesu_dispatch_wire c s) as (Hev & _).
  cbv zeta in Hev. rewrite Hev.
  destruct c; try constructor;
    destruct (gate_open (YaesuCat.ready_ s) (YaesuCat.serial_ s));
    try constructor.
  - split; [ reflexivity | left; reflexivity ].
  - constructor; [ | constructor ].
    split; [ reflexivity | right; left; reflexivity ].
  - unfold yaesu_command_ok, yaesu_ptt.
    split; [ reflexivity | ].
    destruct transmit; cbn [nth In]; [ right; right; left | do 3 right; left ];
      reflexivity.
  - constructor.
Qed.

(** X16.  What goes on the wire is always whole commands.  Over any
    session of interface calls on a fresh object, every byte string handed
    to the send callback or to the serial collaborator is one complete
    command of the protocol.  Kenwood and Elecraft (the channels of the
    session carrying 32-bit receive frequencies): at most 14 bytes, no NUL,
    exactly one semicolon, and that one at the end.  Icom: a frame of 7, 8
    or 11 bytes that begins [FE FE <radio address> E0] and ends [FD].
    Yaesu: exactly five bytes, the last of them one of the opcodes [01],
    [07], [08], [88]. *)
Theorem X16_wire_format
  (calls : list Call) (serial : option ISerial) (addr : Z) :
  (Forall call_in_range calls ->
   Forall kenwood_command_ok
     (emitted (session_events Kenwood.vtable calls (Kenwood.new serial)))
   /\ Forall kenwood_command_ok
        (emitted (session_events Elecraft.vtable calls (Elecraft.new serial))))
  /\ Forall (civ_frame_ok (u8 addr))
       (emitted (session_events IcomCiv.vtable calls
                   (IcomCiv.new serial addr)))
  /\ Forall yaesu_command_ok
       (emitted (session_events YaesuCat.vtable calls (YaesuCat.new serial))).
Proof.
  split; [ | split ].
  - intros Hrange. split.
    + apply (session_wire_calls Kenwood.vtable (fun _ => True)
               kenwood_command_ok call_in_range);
        [ | exact Hrange | exact I ].
      intros c s Hc _. split; [ exact I | apply kenwood_wire_step, Hc ].
    + apply (session_wire_calls Elecraft.vtable (fun _ => True)
               kenwood_command_ok call_in_range);
        [ | exact Hrange | exact I ].
      intros c s Hc _. split; [ exact I | ].
      rewrite (proj1 (elecraft_dispatch_kenwood c s)).
      apply kenwood_wire_step, Hc.
  - apply (session_wire IcomCiv.vtable
             (fun s => IcomCiv.radio_addr_ s = u8 addr
                       /\ IcomCiv.controller_addr_ s = CIV_CONTROLLER));
      [ | split; reflexivity ].
    intros c s [Hra Hca]. split.
    + destruct (icom_dispatch_frame c s) as (_ & -> & -> & _).
      split; assumption.
    + rewrite <- Hra. apply icom_wire_step, Hca.
  - apply (session_wire YaesuCat.vtable (fun _ => True)); [ | exact I ].
    intros c s _. split; [ exact I | apply yaesu_wire_step ].
Qed.

Lemma X16_wire_format_witness :
  Forall kenwood_command_ok
    (emitted
       (session_events Kenwood.vtable
          [CInitialize; CSetChannel channel_14250000_usb; CSetPtt true]
          (Kenwood.new (Some 0%nat)))).
Proof.
  apply (proj1 (X16_wire_format
                  [CInitialize; CSetChannel channel_14250000_usb; CSetPtt true]
                  (Some 0%nat) 0)).
  repeat constructor; cbn; lia.
Defined.

(** ** The radio address *)

(** X17.  Changing the CI-V address.  [set_radio_address] may be called
    in any state: it sends nothing and changes only the address, which
    [get_radio_address] then returns as a byte; on a fresh object it gives
    the object the constructor would have built with that address.  Every
    frame that [set_channel] and [set_ptt] send afterwards carries the new
    address at offset 2 and the controller address at offset 3. *)
Theorem X17_set_radio_address (a : Z) (s : IcomCiv.t) :
  let s' := state_of (IcomCiv.set_radio_address a s) in
  events (IcomCiv.set_radio_address a s) = []
  /\ IcomCiv.get_radio_address s' = a mod 256
  /\ s' = IcomCiv.with_radio_addr (IcomCiv.get_radio_address s') s
  /\ (forall serial b,
        state_of (IcomCiv.set_radio_address a (IcomCiv.new serial b))
        = IcomCiv.new serial a)
  /\ (forall ch t frame,
        In frame (emitted (events (IcomCiv.set_channel ch s'))
                  ++ emitted (events (IcomCiv.set_ptt t s'))) ->
        nth 2 frame 0 = a mod 256
        /\ nth 3 frame 0 = IcomCiv.controller_addr_ s).
Proof.
  cbv zeta. split; [ reflexivity | ].
  split; [ reflexivity | ].
  split; [ reflexivity | ].
  split; [ reflexivity | ].
  intros ch t frame Hin.
  set (s' := state_of (IcomCiv.set_radio_address a s)) in *.
  assert (Hra : IcomCiv.radio_addr_ s' = a mod 256) by reflexivity.
  assert (Hca : IcomCiv.controller_addr_ s' = IcomCiv.controller_addr_ s)
    by reflexivity.
  destruct (icom_dispatch_wire (CSetChannel ch) s') as (Hc & _).
  destruct (icom_dispatch_wire (CSetPtt t) s') as (Hp & _).
  cbv zeta in Hc, Hp.
  assert (Ec : events (dispatch IcomCiv.vtable (CSetChannel ch) s')
               = events (IcomCiv.set_channel ch s')).
  { cbn [dispatch IcomCiv.vtable set_channel]. unfold lift, bind, events, ret.
    destruct (IcomCiv.set_channel ch s') as [[b s2] e2]. cbn [snd].
    apply app_nil_r. }
  assert (Ep : events (dispatch IcomCiv.vtable (CSetPtt t) s')
               = events (IcomCiv.set_ptt t s')).
  { cbn [dispatch IcomCiv.vtable set_ptt]. unfold lift, bind, events, ret.
    destruct (IcomCiv.set_ptt t s') as [[b s2] e2]. cbn [snd].
    apply app_nil_r. }
  rewrite <- Ec, <- Ep, Hc, Hp in Hin.
  destruct (gate_open (IcomCiv.ready_ s') (IcomCiv.serial_ s'));
    [ | destruct Hin ].
  cbn [app In] in Hin.
  destruct Hin as [<- | [<- | [<- | []]]]; split; assumption.
Qed.

Lemma X17_set_radio_address_witness :
  nth 2 (civ_ptt 0x88 CIV_CONTROLLER true) 0 = 0x88 mod 256
  /\ nth 3 (civ_ptt 0x88 CIV_CONTROLLER true) 0
     = IcomCiv.controller_addr_
         (after IcomCiv.vtable [CInitialize] (IcomCiv.new (Some 0%nat) 0x94)).
Proof.
  apply (proj2 (proj2 (proj2 (proj2
           (X17_set_radio_address 0x88
              (after IcomCiv.vtable [CInitialize]
                 (IcomCiv.new (Some 0%nat) 0x94))))))
           channel_14250000_usb true).
  right. right. left. reflexivity.
Defined.

(** ** The circular buffer *)

Lemma vec_store_eq {A} (v : list A) :
  forall i x, (i < length v)%nat ->
              vec_store v i x = Some (firstn i v ++ x :: skipn (S i) v).
Proof.
  induction v as [|y v IH]; intros i x Hi; [ cbn [length] in Hi; lia | ].
  destruct i as [|i]; [ reflexivity | ].
  cbn [vec_store]. rewrite IH by (cbn [length] in Hi; lia). reflexivity.
Qed.

Lemma skipn_cons_nth {A} (d : A) (l : list A) :
  forall p, (p < length l)%nat -> skipn p l = nth p l d :: skipn (S p) l.
Proof.
  induction l as [|y l IH]; intros p Hp; [ cbn [length] in Hp; lia | ].
  destruct p as [|p]; [ reflexivity | ].
  cbn [skipn nth]. apply IH. cbn [length] in Hp. lia.
Qed.

Lemma window_length r :
  length (window r) = length (Resampler.history_ r).
Proof.
  unfold window. rewrite length_app, length_skipn, length_firstn. lia.
Qed.

Lemma window_push x r r' :
  Resampler.wf r -> Resampler.push x r = Some r' ->
  window r' = slide (window r) x.
Proof.
  intros [Hratio Htotal Hcoeffs Hhist Hpos] Hpush.
  unfold Resampler.push in Hpush.
  rewrite vec_store_eq in Hpush by lia.
  set (h := Resampler.history_ r) in *.
  set (p := Z.to_nat (Resampler.history_pos_ r)) in *.
  set (back := skipn (S p) h) in *.
  cbn [ub_bind] in Hpush. unfold size_t_rem in Hpush.
  rewrite !size_t_of_small in Hpush by (unfold INT_MAX in *; lia).
  destruct (Z.eqb_spec (Resampler.total_taps_ r) 0) as [E|_]; [ lia | ].
  cbn [ub_bind] in Hpush. injection Hpush as <-.
  unfold window, slide, Resampler.with_history.
  cbn [Resampler.history_ Resampler.history_pos_].
  fold h. fold p.
  assert (Hp : (p < length h)%nat) by lia.
  rewrite (skipn_cons_nth Resampler.fzero h p Hp). fold back. cbn [tl app].
  assert (Hfront : length (firstn p h) = p) by (rewrite length_firstn; lia).
  destruct (Z.eq_dec (Resampler.history_pos_ r + 1) (Resampler.total_taps_ r))
    as [Hwrap | Hno].
  - rewrite Hwrap, Z.mod_same by lia.
    change (Z.to_nat 0) with 0%nat. rewrite skipn_O, firstn_O, app_nil_r.
    assert (Hback : back = []) by (apply skipn_all2; lia).
    rewrite Hback. reflexivity.
  - rewrite Z.mod_small by lia.
    replace (Z.to_nat (Resampler.history_pos_ r + 1)) with (S p) by lia.
    rewrite skipn_app, firstn_app, Hfront.
    replace (S p - p)%nat with 1%nat by lia.
    rewrite (skipn_all2 (firstn p h)) by lia.
    rewrite (firstn_all2 (firstn p h)) by lia.
    rewrite skipn_cons, skipn_O, firstn_cons, firstn_O.
    cbn [app]. apply app_assoc.
Qed.

Lemma skipn_nth_error {A} (l : list A) :
  forall i x, nth_error l i = Some x -> skipn i l = x :: skipn (S i) l.
Proof.
  induction l as [|y l IH]; intros i x H; destruct i as [|i];
    try discriminate.
  - injection H as <-. reflexivity.
  - cbn [skipn]. apply IH, H.
Qed.

Lemma window_nth r i :
  Resampler.wf r -> 0 <= i < Resampler.total_taps_ r ->
  nth_error (window r) (Z.to_nat i)
  = nth_error (Resampler.history_ r)
      (Z.to_nat ((Resampler.history_pos_ r + i) mod Resampler.total_taps_ r)).
Proof.
  intros [Hratio Htotal Hcoeffs Hhist Hpos] Hi. unfold window.
  set (h := Resampler.history_ r) in *.
  set (p := Resampler.history_pos_ r) in *.
  set (T := Resampler.total_taps_ r) in *.
  destruct (Z_lt_ge_dec (p + i) T) as [Hlt | Hge].
  - rewrite Z.mod_small by lia.
    rewrite nth_error_app1 by (rewrite length_skipn; lia).
    rewrite nth_error_skipn. f_equal. lia.
  - replace ((p + i) mod T) with (p + i - T)
      by (apply Z.mod_unique with (q := 1); lia).
    rewrite nth_error_app2 by (rewrite length_skipn; lia).
    rewrite length_skipn.
    rewrite nth_error_firstn.
    replace (Z.to_nat i - (length h - Z.to_nat p))%nat
      with (Z.to_nat (p + i - T)) by lia.
    destruct (Nat.ltb_spec (Z.to_nat (p + i - T)) (Z.to_nat p));
      [ reflexivity | lia ].
Qed.

Lemma apply_filter_loop_fir r :
  Resampler.wf r ->
  forall n i sum,
    0 <= i -> i + Z.of_nat n = Resampler.total_taps_ r ->
    Resampler.apply_filter_loop r n i sum
    = Some (fold_left
              (fun acc hc =>
                 Resampler.fadd acc (Resampler.fmul (fst hc) (snd hc)))
              (combine (skipn (Z.to_nat i) (window r))
                       (skipn (Z.to_nat i) (Resampler.coeffs_ r)))
              sum).
Proof.
  intros Hwf. pose proof Hwf as [Hratio Htotal Hcoeffs Hhist Hpos].
  induction n as [|n IH]; intros i sum Hi Hn.
  - cbn [Resampler.apply_filter_loop].
    rewrite (skipn_all2 (window r)) by (rewrite window_length; lia).
    reflexivity.
  - cbn [Resampler.apply_filter_loop].
    destruct (in_bounds_wf r i Hwf ltac:(lia))
      as (_ & idx & h & c & Hidx & Hrange & Hh & Hc).
    rewrite Hidx. cbn [ub_bind]. rewrite Hh. cbn [ub_bind].
    rewrite Hc. cbn [ub_bind].
    rewrite IH by lia.
    assert (Hw : nth_error (window r) (Z.to_nat i) = Some h).
    { rewrite window_nth by (try assumption; lia). rewrite <- Hh.
      unfold size_t_rem in Hidx.
      rewrite (size_t_of_small i) in Hidx by (unfold INT_MAX in *; lia).
      rewrite (size_t_of_small (_ + i)), (size_t_of_small (Resampler.total_taps_ r))
        in Hidx by (unfold INT_MAX in *; lia).
      destruct (Resampler.total_taps_ r =? 0); [ discriminate | ].
      injection Hidx as <-. reflexivity. }
    rewrite (skipn_nth_error _ _ _ Hw), (skipn_nth_error _ _ _ Hc).
    cbn [combine fold_left fst snd].
    replace (Z.to_nat (i + 1)) with (S (Z.to_nat i)) by lia.
    reflexivity.
Qed.

Lemma apply_filter_fir r :
  Resampler.wf r ->
  Resampler.apply_filter r = Some (fir (Resampler.coeffs_ r) (window r)).
Proof.
  intros Hwf. unfold Resampler.apply_filter.
  rewrite apply_filter_loop_fir by (try assumption; destruct Hwf; lia).
  reflexivity.
Qed.

(** ** The two loops as filters on a sliding window *)

Lemma push_and_filter_spec samples :
  forall r out,
    Resampler.wf r ->
    exists r',
      push_and_filter samples r out
      = Some (r', out ++ filtered (Resampler.coeffs_ r) (window r) samples)
      /\ Resampler.wf r' /\ same_filter r r'
      /\ window r' = fold_left slide samples (window r).
Proof.
  induction samples as [|x rest IH]; intros r out Hwf.
  - exists r. cbn [push_and_filter filtered fold_left]. rewrite app_nil_r.
    split; [ reflexivity | ].
    split; [ exact Hwf | split; [ apply same_filter_refl | reflexivity ] ].
  - cbn [push_and_filter filtered fold_left].
    destruct (push_wf x r Hwf) as (r1 & Hpush & Hwf1 & Hsame1 & _).
    rewrite Hpush. cbn [ub_bind].
    rewrite (apply_filter_fir r1 Hwf1). cbn [ub_bind].
    destruct (IH r1 (out ++ [fir (Resampler.coeffs_ r1) (window r1)]) Hwf1)
      as (r' & Hrun & Hwf' & Hsame' & Hwin).
    exists r'. rewrite Hrun.
    rewrite (window_push x r r1 Hwf Hpush) in *.
    destruct Hsame1 as (Hr1 & Ht1 & Htt1 & Hc1). rewrite Hc1 in *.
    rewrite <- app_assoc. cbn [app].
    split; [ reflexivity | ].
    split; [ exact Hwf' | ].
    split; [ | exact Hwin ].
    apply (same_filter_trans r r1 r'); [ repeat split; assumption | exact Hsame' ].
Qed.

Lemma decimate_loop_spec input :
  forall i r out,
    Resampler.wf r -> 0 <= i -> i + Z.of_nat (length input) < 2 ^ 64 ->
    exists r',
      Resampler.decimate_loop input i r out
      = Some (r', out ++ keep_every (Resampler.ratio_ r) i
                           (filtered (Resampler.coeffs_ r) (window r) input))
      /\ Resampler.wf r' /\ same_filter r r'
      /\ window r' = fold_left slide input (window r).
Proof.
  induction input as [|x rest IH]; intros i r out Hwf Hi Hlen.
  - exists r. cbn [Resampler.decimate_loop filtered keep_every fold_left].
    rewrite app_nil_r.
    split; [ reflexivity | ].
    split; [ exact Hwf | split; [ apply same_filter_refl | reflexivity ] ].
  - cbn [Resampler.decimate_loop filtered keep_every fold_left].
    cbn [length] in Hlen.
    destruct (push_wf x r Hwf) as (r1 & Hpush & Hwf1 & Hsame1 & _).
    rewrite Hpush. cbn [ub_bind].
    destruct Hsame1 as (Hr1 & Ht1 & Htt1 & Hc1).
    pose proof Hwf as [Hratio _ _ _ _].
    unfold size_t_rem. rewrite Hr1.
    rewrite !size_t_of_small by (unfold INT_MAX in *; lia).
    destruct (Z.eqb_spec (Resampler.ratio_ r) 0) as [E|_]; [ lia | ].
    cbn [ub_bind].
    rewrite <- (window_push x r r1 Hwf Hpush).
    destruct ((i + 1) mod Resampler.ratio_ r =? 0).
    + rewrite (apply_filter_fir r1 Hwf1). cbn [ub_bind].
      destruct (IH (i + 1) r1
                  (out ++ [fir (Resampler.coeffs_ r1) (window r1)]) Hwf1)
        as (r' & Hrun & Hwf' & Hsame' & Hwin); [ lia | lia | ].
      exists r'. rewrite Hrun, Hr1, Hc1, <- app_assoc. cbn [app].
      split; [ reflexivity | ].
      split; [ exact Hwf' | ].
      split; [ | exact Hwin ].
      apply (same_filter_trans r r1 r');
        [ repeat split; assumption | exact Hsame' ].
    + destruct (IH (i + 1) r1 out Hwf1)
        as (r' & Hrun & Hwf' & Hsame' & Hwin); [ lia | lia | ].
      exists r'. rewrite Hrun, Hr1, Hc1.
      split; [ reflexivity | ].
      split; [ exact Hwf' | ].
      split; [ | exact Hwin ].
      apply (same_filter_trans r r1 r');
        [ repeat split; assumption | exact Hsame' ].
Qed.

Lemma slide_length w x : (1 <= length w)%nat -> length (slide w x) = length w.
Proof.
  intros H. unfold slide. rewrite length_app. destruct w; cbn [length tl] in *; lia.
Qed.

(** After any number of samples the window holds the last ones. *)
Lemma fold_slide samples :
  forall w, (1 <= length w)%nat ->
            fold_left slide samples w = skipn (length samples) (w ++ samples).
Proof.
  induction samples as [|x rest IH]; intros w Hw.
  - cbn [fold_left length skipn]. symmetry. apply app_nil_r.
  - cbn [fold_left length]. rewrite IH by (rewrite slide_length; assumption).
    unfold slide. destruct w as [|a w]; [ cbn [length] in Hw; lia | ].
    cbn [tl app skipn]. rewrite <- app_assoc. reflexivity.
Qed.

Lemma filtered_length coeffs samples :
  forall w, length (filtered coeffs w samples) = length samples.
Proof.
  induction samples as [|x rest IH]; intros w; [ reflexivity | ].
  cbn [filtered length]. rewrite IH. reflexivity.
Qed.

(** What is known of every state of a constructed resampler. *)
Lemma constructed_states
  (sin cos : Resampler.double -> Resampler.double) (ratio taps : Z) :
  1 <= ratio -> 1 <= taps -> ratio * taps <= INT_MAX ->
  exists r0,
    Resampler.new sin cos ratio taps = Some r0
    /\ Resampler.wf r0
    /\ Resampler.ratio_ r0 = ratio
    /\ Resampler.taps_per_phase_ r0 = taps
    /\ Resampler.total_taps_ r0 = ratio * taps
    /\ window r0 = repeat Resampler.fzero (Z.to_nat (ratio * taps))
    /\ forall r, Resampler.reachable r0 r ->
                 Resampler.wf r /\ same_filter r0 r.
Proof.
  intros Hratio Htaps Hfit.
  destruct (new_succeeds sin cos ratio taps Hratio Htaps Hfit) as [r0 Hnew].
  destruct (new_wf sin cos ratio taps r0 Hratio Htaps Hnew)
    as (Hwf0 & Hr0 & Ht0 & Htot0 & Hh0 & Hp0).
  exists r0. repeat (split; [ assumption | ]).
  split.
  - unfold window. rewrite Hp0, Hh0. cbn [Z.to_nat skipn firstn].
    apply app_nil_r.
  - intros r Hreach. apply (reachable_wf r0 r Hwf0 Hreach).
Qed.

(** X18.  The history is a sliding window.  Read from [history_pos_] on
    and around the end, the circular buffer of a constructed resampler is
    the list of the last [total_taps_] samples pushed, oldest first: it is
    all zeros after the construction and after [reset]; pushing a sample
    drops the oldest and appends the new one; after [decimate] it is what
    the input leaves of the old window followed by the input, cut to the
    last [total_taps_] samples; and [apply_filter] is the sum of the
    products of the window with the coefficients, coefficient 0 on the
    oldest sample, added up from [0.0f] in that order. *)
Theorem X18_history_is_sliding_window
  (sin cos : Resampler.double -> Resampler.double) (ratio taps : Z) :
  1 <= ratio -> 1 <= taps -> ratio * taps <= INT_MAX ->
  exists r0,
    Resampler.new sin cos ratio taps = Some r0
    /\ window r0 = repeat Resampler.fzero (Z.to_nat (ratio * taps))
    /\ forall r,
         Resampler.reachable r0 r ->
         length (window r) = Z.to_nat (ratio * taps)
         /\ Resampler.apply_filter r
            = Some (fir (Resampler.coeffs_ r0) (window r))
         /\ (forall x, exists r',
               Resampler.push x r = Some r'
               /\ window r' = tl (window r) ++ [x])
         /\ (forall input,
               Z.of_nat (length input) < 2 ^ 64 ->
               exists r' out,
                 Resampler.decimate input r = Some (r', out)
                 /\ window r' = skipn (length input) (window r ++ input))
         /\ window (Resampler.reset r)
            = repeat Resampler.fzero (Z.to_nat (ratio * taps)).
Proof.
  intros Hratio Htaps Hfit.
  destruct (constructed_states sin cos ratio taps Hratio Htaps Hfit)
    as (r0 & Hnew & Hwf0 & Hr0 & Ht0 & Htot0 & Hwin0 & Hall).
  exists r0. split; [ exact Hnew | split; [ exact Hwin0 | ] ].
  intros r Hreach. destruct (Hall r Hreach) as [Hwf Hsame].
  destruct Hsame as (Hr & Ht & Htot & Hc).
  assert (Hlen : length (window r) = Z.to_nat (ratio * taps)).
  { rewrite window_length. destruct Hwf as [_ _ _ Hh _].
    rewrite Hh, Htot, Htot0. reflexivity. }
  split; [ exact Hlen | ].
  split; [ rewrite <- Hc; apply apply_filter_fir, Hwf | ].
  split; [ | split ].
  - intros x. destruct (push_wf x r Hwf) as (r' & Hpush & _).
    exists r'. split; [ exact Hpush | ].
    apply (window_push x r r' Hwf Hpush).
  - intros input Hin.
    destruct (decimate_loop_spec input 0 r [] Hwf) as (r' & Hrun & _ & _ & Hwin);
      [ lia | lia | ].
    eexists r', _. split; [ exact Hrun | ].
    rewrite Hwin. apply fold_slide. rewrite Hlen. lia.
  - destruct (Hall (Resampler.reset r) (Resampler.reach_reset r0 r Hreach))
      as [Hwf' _].
    unfold window, Resampler.reset, Resampler.with_history.
    cbn [Resampler.history_ Resampler.history_pos_ Z.to_nat skipn firstn].
    rewrite app_nil_r, map_const_repeat.
    destruct Hwf as [_ _ _ Hh _]. rewrite Hh, Htot, Htot0. reflexivity.
Qed.

Lemma X18_history_is_sliding_window_witness :
  window used_resampler
  = skipn (length five_samples) (window small_resampler ++ five_samples).
Proof.
  destruct (X18_history_is_sliding_window libm_id libm_id 2 1)
    as (r0 & Hnew & _ & Hall).
  - lia.
  - lia.
  - unfold INT_MAX. lia.
  - assert (Hr0 : r0 = small_resampler).
    { unfold small_resampler, example_resampler. rewrite Hnew. reflexivity. }
    subst r0.
    destruct (Hall small_resampler (Resampler.reach_new small_resampler))
      as (_ & _ & _ & Hdec & _).
    destruct (Hdec five_samples) as (r' & out & Hrun & Hwin).
    + cbn. lia.
    + assert (Hr' : r' = used_resampler).
      { unfold used_resampler. rewrite Hrun. reflexivity. }
      subst r'. exact Hwin.
Defined.

(** ** What the two methods compute *)

Lemma keep_every_mod ratio l :
  forall i i', 0 < ratio -> i mod ratio = i' mod ratio ->
               keep_every ratio i l = keep_every ratio i' l.
Proof.
  induction l as [|y rest IH]; intros i i' Hr Hi; [ reflexivity | ].
  cbn [keep_every].
  assert (Hs : (i + 1) mod ratio = (i' + 1) mod ratio).
  { rewrite (Z.add_mod i), (Z.add_mod i') by lia. rewrite Hi. reflexivity. }
  rewrite Hs, (IH (i + 1) (i' + 1) Hr Hs). reflexivity.
Qed.

Lemma keep_every_app ratio l1 :
  forall i l2,
    keep_every ratio i (l1 ++ l2)
    = keep_every ratio i l1
      ++ keep_every ratio (i + Z.of_nat (length l1)) l2.
Proof.
  induction l1 as [|y rest IH]; intros i l2.
  - cbn [app keep_every length]. rewrite Z.add_0_r. reflexivity.
  - cbn [app keep_every length]. rewrite IH.
    replace (i + 1 + Z.of_nat (length rest))
      with (i + Z.of_nat (S (length rest))) by lia.
    destruct ((i + 1) mod ratio =? 0); reflexivity.
Qed.

Lemma filtered_app coeffs s1 :
  forall w s2,
    filtered coeffs w (s1 ++ s2)
    = filtered coeffs w s1 ++ filtered coeffs (fold_left slide s1 w) s2.
Proof.
  induction s1 as [|x rest IH]; intros w s2; [ reflexivity | ].
  cbn [app filtered fold_left]. rewrite IH. reflexivity.
Qed.

(** The elements a decimator keeps are those at the indices [R - 1],
    [2 R - 1], ... of its stream. *)
Lemma keep_every_nth ratio :
  0 < ratio ->
  forall l i j,
    0 <= i < ratio ->
    nth_error (keep_every ratio i l) j
    = nth_error l (Z.to_nat ((Z.of_nat j + 1) * ratio - 1 - i)).
Proof.
  intros Hr. induction l as [|y rest IH]; intros i j Hi.
  - cbn [keep_every]. destruct j; destruct (Z.to_nat _); reflexivity.
  - cbn [keep_every].
    destruct (Z.eqb_spec ((i + 1) mod ratio) 0) as [Hz | Hnz].
    + assert (Hi1 : i + 1 = ratio).
      { destruct (Z.eq_dec (i + 1) ratio) as [E|N]; [ exact E | ].
        rewrite Z.mod_small in Hz by lia. lia. }
      rewrite (keep_every_mod ratio rest (i + 1) 0 Hr)
        by (rewrite Hi1, Z.mod_same, Z.mod_0_l by lia; reflexivity).
      destruct j as [|j].
      * replace (Z.to_nat ((Z.of_nat 0 + 1) * ratio - 1 - i)) with 0%nat by lia.
        reflexivity.
      * cbn [nth_error]. rewrite IH by lia.
        replace (Z.to_nat ((Z.of_nat (S j) + 1) * ratio - 1 - i))
          with (S (Z.to_nat ((Z.of_nat j + 1) * ratio - 1 - 0))) by nia.
        reflexivity.
    + assert (Hi1 : i + 1 < ratio).
      { destruct (Z.eq_dec (i + 1) ratio) as [E|N]; [ | lia ].
        rewrite E, Z.mod_same in Hnz by lia. lia. }
      rewrite IH by lia.
      replace (Z.to_nat ((Z.of_nat j + 1) * ratio - 1 - i))
        with (S (Z.to_nat ((Z.of_nat j + 1) * ratio - 1 - (i + 1)))) by nia.
      reflexivity.
Qed.

Lemma filtered_nth coeffs samples :
  forall w k,
    (1 <= length w)%nat -> (k < length samples)%nat ->
    nth_error (filtered coeffs w samples) k
    = Some (fir coeffs (skipn (S k) (w ++ firstn (S k) samples))).
Proof.
  induction samples as [|x rest IH]; intros w k Hw Hk;
    [ cbn [length] in Hk; lia | ].
  cbn [filtered]. destruct k as [|k].
  - cbn [nth_error firstn]. unfold slide.
    destruct w as [|a w]; [ cbn [length] in Hw; lia | ]. reflexivity.
  - cbn [nth_error]. rewrite IH
      by (rewrite ?slide_length; cbn [length] in *; lia).
    unfold slide. destruct w as [|a w]; [ cbn [length] in Hw; lia | ].
    cbn [tl firstn app skipn]. rewrite <- app_assoc. reflexivity.
Qed.

(** X19.  What [decimate] computes.  In every state of a constructed
    resampler, [decimate] runs the FIR filter of the coefficients over the
    window extended by the input, one value after each input sample, and
    writes every [ratio]-th of these values, counted from the start of the
    call: output [j] is the filter on the last [total_taps_] samples up to
    and including input sample [(j + 1) * ratio - 1].  So an output depends
    on no later input sample, and on the earlier calls only through the
    window. *)
Theorem X19_decimate_is_filter_then_keep
  (sin cos : Resampler.double -> Resampler.double) (ratio taps : Z) :
  1 <= ratio -> 1 <= taps -> ratio * taps <= INT_MAX ->
  exists r0,
    Resampler.new sin cos ratio taps = Some r0
    /\ forall r input,
         Resampler.reachable r0 r ->
         Z.of_nat (length input) < 2 ^ 64 ->
         exists r' out,
           Resampler.decimate input r = Some (r', out)
           /\ out = keep_every ratio 0
                      (filtered (Resampler.coeffs_ r0) (window r) input)
           /\ forall j,
                Z.of_nat j < Z.of_nat (length input) / ratio ->
                nth_error out j
                = Some (fir (Resampler.coeffs_ r0)
                          (skipn ((j + 1) * Z.to_nat ratio)
                             (window r
                              ++ firstn ((j + 1) * Z.to_nat ratio) input))).
Proof.
  intros Hratio Htaps Hfit.
  destruct (constructed_states sin cos ratio taps Hratio Htaps Hfit)
    as (r0 & Hnew & Hwf0 & Hr0 & Ht0 & Htot0 & Hwin0 & Hall).
  exists r0. split; [ exact Hnew | ].
  intros r input Hreach Hin. destruct (Hall r Hreach) as [Hwf Hsame].
  destruct Hsame as (Hr & Ht & Htot & Hc).
  destruct (decimate_loop_spec input 0 r [] Hwf) as (r' & Hrun & _);
    [ lia | lia | ].
  cbn [app] in Hrun. rewrite Hr, Hr0, Hc in Hrun.
  eexists r', _. split; [ exact Hrun | split; [ reflexivity | ] ].
  intros j Hj.
  rewrite keep_every_nth by lia.
  assert (Hlen : (1 <= length (window r))%nat).
  { rewrite window_length. destruct Hwf as [_ Htotal _ Hh _]. lia. }
  assert (Hm : (Z.of_nat j + 1) * ratio <= Z.of_nat (length input)).
  { assert (Z.of_nat j + 1 <= Z.of_nat (length input) / ratio) by lia.
    transitivity (Z.of_nat (length input) / ratio * ratio); [ nia | ].
    rewrite Z.mul_comm. apply Z.mul_div_le. lia. }
  replace (Z.to_nat ((Z.of_nat j + 1) * ratio - 1 - 0))
    with (((j + 1) * Z.to_nat ratio) - 1)%nat by nia.
  rewrite filtered_nth by (try assumption; nia).
  replace (S ((j + 1) * Z.to_nat ratio - 1))
    with ((j + 1) * Z.to_nat ratio)%nat by nia.
  reflexivity.
Qed.

Lemma X19_decimate_is_filter_then_keep_witness :
  used_output
  = keep_every 2 0
      (filtered (Resampler.coeffs_ small_resampler) (window small_resampler)
         five_samples).
Proof.
  destruct (X19_decimate_is_filter_then_keep libm_id libm_id 2 1)
    as (r0 & Hnew & Hall).
  - lia.
  - lia.
  - unfold INT_MAX. lia.
  - assert (Hr0 : r0 = small_resampler).
    { unfold small_resampler, example_resampler. rewrite Hnew. reflexivity. }
    subst r0.
    destruct (Hall small_resampler five_samples
                (Resampler.reach_new small_resampler))
      as (r' & out & Hrun & Hout & _).
    + cbn. lia.
    + assert (Ho : out = used_output).
      { unfold used_output. rewrite Hrun. reflexivity. }
      rewrite <- Ho. exact Hout.
Defined.

(** X20.  What [interpolate] computes.  In every state of a constructed
    resampler, [interpolate] runs the FIR filter of the coefficients over
    the window extended by the zero-stuffed input (each input sample times
    [ratio], followed by [ratio - 1] zeros) and writes every value: output
    [k] is the filter on the last [total_taps_] samples of that stream up
    to and including its sample [k]. *)
Theorem X20_interpolate_is_stuff_then_filter
  (sin cos : Resampler.double -> Resampler.double) (ratio taps : Z) :
  1 <= ratio -> 1 <= taps -> ratio * taps <= INT_MAX ->
  exists r0,
    Resampler.new sin cos ratio taps = Some r0
    /\ forall r input,
         Resampler.reachable r0 r ->
         exists r' out,
           Resampler.interpolate input r = Some (r', out)
           /\ out = filtered (Resampler.coeffs_ r0) (window r)
                      (flat_map (zero_stuffed ratio) input)
           /\ window r'
              = skipn (length (flat_map (zero_stuffed ratio) input))
                  (window r ++ flat_map (zero_stuffed ratio) input)
           /\ forall k,
                (k < length (flat_map (zero_stuffed ratio) input))%nat ->
                nth_error out k
                = Some (fir (Resampler.coeffs_ r0)
                          (skipn (S k)
                             (window r
                              ++ firstn (S k)
                                   (flat_map (zero_stuffed ratio) input)))).
Proof.
  intros Hratio Htaps Hfit.
  destruct (constructed_states sin cos ratio taps Hratio Htaps Hfit)
    as (r0 & Hnew & Hwf0 & Hr0 & Ht0 & Htot0 & Hwin0 & Hall).
  exists r0. split; [ exact Hnew | ].
  intros r input Hreach. destruct (Hall r Hreach) as [Hwf Hsame].
  destruct Hsame as (Hr & Ht & Htot & Hc).
  assert (Hlen : (1 <= length (window r))%nat).
  { rewrite window_length. destruct Hwf as [_ Htotal _ Hh _]. lia. }
  unfold Resampler.interpolate.
  rewrite interpolate_loop_stuffed by (rewrite Hr, Hr0; exact Hratio).
  rewrite Hr, Hr0.
  destruct (push_and_filter_spec (flat_map (zero_stuffed ratio) input) r []
              Hwf) as (r' & Hrun & _ & _ & Hwin).
  cbn [app] in Hrun. rewrite Hc in Hrun.
  eexists r', _. split; [ exact Hrun | split; [ reflexivity | split ] ].
  - rewrite Hwin. apply fold_slide, Hlen.
  - intros k Hk. apply filtered_nth; assumption.
Qed.

Lemma X20_interpolate_is_stuff_then_filter_witness :
  option_map snd (Resampler.interpolate five_samples small_resampler)
  = Some (filtered (Resampler.coeffs_ small_resampler)
            (window small_resampler)
            (flat_map (zero_stuffed 2) five_samples)).
Proof.
  destruct (X20_interpolate_is_stuff_then_filter libm_id libm_id 2 1)
    as (r0 & Hnew & Hall).
  - lia.
  - lia.
  - unfold INT_MAX. lia.
  - assert (Hr0 : r0 = small_resampler).
    { unfold small_resampler, example_resampler. rewrite Hnew. reflexivity. }
    subst r0.
    destruct (Hall small_resampler five_samples
                (Resampler.reach_new small_resampler))
      as (r' & out & Hrun & Hout & _).
    rewrite Hrun, Hout. reflexivity.
Defined.

(** ** A stream cut into calls *)

Lemma push_all_app s1 :
  forall s2 r, push_all (s1 ++ s2) r = ub_bind (push_all s1 r) (push_all s2).
Proof.
  induction s1 as [|x rest IH]; intros s2 r; [ reflexivity | ].
  cbn [app push_all]. destruct (Resampler.push x r) as [r1|]; [ | reflexivity ].
  cbn [ub_bind]. apply IH.
Qed.

Lemma push_and_filter_pushes samples :
  forall r out r' out',
    push_and_filter samples r out = Some (r', out') ->
    push_all samples r = Some r'.
Proof.
  induction samples as [|x rest IH]; intros r out r' out' H.
  - cbn [push_and_filter] in H. injection H as <- _. reflexivity.
  - cbn [push_and_filter push_all] in *.
    destruct (Resampler.push x r) as [r1|]; [ | discriminate ].
    cbn [ub_bind] in *.
    destruct (Resampler.apply_filter r1) as [y|]; [ | discriminate ].
    cbn [ub_bind] in H. apply (IH _ _ _ _ H).
Qed.

(** X21.  A stream cut into calls.  In every state of a constructed
    resampler, two calls of [interpolate] on the two parts of a stream
    write what one call on the whole stream writes and leave the same
    state.  For [decimate] the state left is the same too, but the count
    of [(i + 1) % ratio_] starts again in each call: the outputs of the two
    calls are those of the one call when the length of the first part is a
    multiple of the ratio, and in general the two calls write
    [n1 / ratio + n2 / ratio] samples where the one call writes
    [(n1 + n2) / ratio]. *)
Theorem X21_streaming
  (sin cos : Resampler.double -> Resampler.double) (ratio taps : Z) :
  1 <= ratio -> 1 <= taps -> ratio * taps <= INT_MAX ->
  exists r0,
    Resampler.new sin cos ratio taps = Some r0
    /\ forall r d1 d2,
         Resampler.reachable r0 r ->
         Z.of_nat (length (d1 ++ d2)) < 2 ^ 64 ->
         (exists r1 o1 r2 o2 o,
             Resampler.decimate d1 r = Some (r1, o1)
             /\ Resampler.decimate d2 r1 = Some (r2, o2)
             /\ Resampler.decimate (d1 ++ d2) r = Some (r2, o)
             /\ (Z.of_nat (length d1) mod ratio = 0 -> o = o1 ++ o2)
             /\ Z.of_nat (length (o1 ++ o2))
                = Z.of_nat (length d1) / ratio + Z.of_nat (length d2) / ratio
             /\ Z.of_nat (length o)
                = (Z.of_nat (length d1) + Z.of_nat (length d2)) / ratio)
         /\ (exists r1 o1 r2 o2,
                Resampler.interpolate d1 r = Some (r1, o1)
                /\ Resampler.interpolate d2 r1 = Some (r2, o2)
                /\ Resampler.interpolate (d1 ++ d2) r = Some (r2, o1 ++ o2)).
Proof.
  intros Hratio Htaps Hfit.
  destruct (constructed_states sin cos ratio taps Hratio Htaps Hfit)
    as (r0 & Hnew & Hwf0 & Hr0 & Ht0 & Htot0 & Hwin0 & Hall).
  exists r0. split; [ exact Hnew | ].
  intros r d1 d2 Hreach Hlen. destruct (Hall r Hreach) as [Hwf Hsame].
  destruct Hsame as (Hr & Ht & Htot & Hc).
  rewrite length_app in Hlen.
  assert (HR : Resampler.ratio_ r = ratio) by (rewrite Hr; exact Hr0).
  split.
  - destruct (decimate_loop_spec d1 0 r [] Hwf)
      as (r1 & Hrun1 & Hwf1 & Hsame1 & Hwin1); [ lia | lia | ].
    destruct Hsame1 as (Hr1 & _ & _ & Hc1).
    destruct (decimate_loop_spec d2 0 r1 [] Hwf1)
      as (r2 & Hrun2 & _ & _ & _); [ lia | lia | ].
    destruct (decimate_loop_spec (d1 ++ d2) 0 r [] Hwf)
      as (ra & Hrun & _ & _ & _); [ lia | rewrite length_app; lia | ].
    cbn [app] in Hrun1, Hrun2, Hrun.
    assert (Hra : ra = r2).
    { pose proof (decimate_loop_pushes _ _ _ _ _ _ Hrun1) as P1.
      pose proof (decimate_loop_pushes _ _ _ _ _ _ Hrun2) as P2.
      pose proof (decimate_loop_pushes _ _ _ _ _ _ Hrun) as P.
      rewrite push_all_app, P1 in P. cbn [ub_bind] in P.
      rewrite P2 in P. injection P as <-. reflexivity. }
    subst ra.
    rewrite Hr1, Hc1, Hwin1, HR in *.
    eexists r1, _, r2, _, _.
    split; [ exact Hrun1 | split; [ exact Hrun2 | split; [ exact Hrun | ] ] ].
    split; [ | split ].
    + intros Hmod. rewrite filtered_app, keep_every_app, filtered_length.
      f_equal. apply keep_every_mod; [ lia | ].
      rewrite Z.add_0_l, Hmod, Z.mod_0_l by lia. reflexivity.
    + destruct (output_lengths_wf r d1 Hwf ltac:(lia))
        as [(r1' & o1' & Hd1 & Hn1) _].
      destruct (output_lengths_wf r1 d2 Hwf1 ltac:(lia))
        as [(r2' & o2' & Hd2 & Hn2) _].
      unfold Resampler.decimate in Hd1, Hd2.
      rewrite Hrun1 in Hd1. rewrite Hrun2 in Hd2.
      injection Hd1 as <- <-. injection Hd2 as <- <-.
      unfold Resampler.output_count in Hn1, Hn2. cbn [snd] in Hn1, Hn2.
      rewrite length_app, Nat2Z.inj_add, Hn1, Hn2, Hr1, HR. reflexivity.
    + destruct (output_lengths_wf r (d1 ++ d2) Hwf
                  ltac:(rewrite length_app; lia))
        as [(ra & o' & Hd & Hn) _].
      unfold Resampler.decimate in Hd. rewrite Hrun in Hd.
      injection Hd as <- <-.
      unfold Resampler.output_count in Hn. cbn [snd] in Hn.
      rewrite Hn, length_app, Nat2Z.inj_add, HR. reflexivity.
  - destruct (push_and_filter_spec (flat_map (zero_stuffed ratio) d1) r []
                Hwf) as (r1 & Hrun1 & Hwf1 & Hsame1 & Hwin1).
    destruct Hsame1 as (Hr1 & _ & _ & Hc1).
    destruct (push_and_filter_spec (flat_map (zero_stuffed ratio) d2) r1 []
                Hwf1) as (r2 & Hrun2 & _ & _ & _).
    destruct (push_and_filter_spec
                (flat_map (zero_stuffed ratio) (d1 ++ d2)) r [] Hwf)
      as (ra & Hrun & _ & _ & _).
    cbn [app] in Hrun1, Hrun2, Hrun.
    assert (Hra : ra = r2).
    { pose proof (push_and_filter_pushes _ _ _ _ _ Hrun1) as P1.
      pose proof (push_and_filter_pushes _ _ _ _ _ Hrun2) as P2.
      pose proof (push_and_filter_pushes _ _ _ _ _ Hrun) as P.
      rewrite flat_map_app, push_all_app, P1 in P. cbn [ub_bind] in P.
      rewrite P2 in P. injection P as <-. reflexivity. }
    subst ra.
    assert (HR1 : Resampler.ratio_ r1 = ratio) by (rewrite Hr1; exact HR).
    eexists r1, _, r2, _.
    unfold Resampler.interpolate.
    rewrite (interpolate_loop_stuffed d1 r),
      (interpolate_loop_stuffed (d1 ++ d2) r),
      (interpolate_loop_stuffed d2 r1) by lia.
    rewrite HR, HR1.
    split; [ exact Hrun1 | split; [ exact Hrun2 | ] ].
    rewrite Hrun. rewrite flat_map_app, filtered_app, Hc1, Hwin1.
    reflexivity.
Qed.

Lemma X21_streaming_witness :
  exists r1 o1 r2 o2,
    Resampler.interpolate [Resampler.float_of_int 1] small_resampler
    = Some (r1, o1)
    /\ Resampler.interpolate [Resampler.float_of_int 2] r1 = Some (r2, o2)
    /\ Resampler.interpolate
         ([Resampler.float_of_int 1] ++ [Resampler.float_of_int 2])
         small_resampler
       = Some (r2, o1 ++ o2).
Proof.
  destruct (X21_streaming libm_id libm_id 2 1) as (r0 & Hnew & Hall).
  - lia.
  - lia.
  - unfold INT_MAX. lia.
  - assert (Hr0 : r0 = small_resampler).
    { unfold small_resampler, example_resampler. rewrite Hnew. reflexivity. }
    subst r0.
    refine (proj2 (Hall small_resampler [Resampler.float_of_int 1]
                     [Resampler.float_of_int 2]
                     (Resampler.reach_new small_resampler) _)).
    cbn. lia.
Defined.

(** Two calls of one sample each on a resampler of ratio 2 write nothing;
    one call on the two samples writes one value. *)
Example decimate_restarts_its_count :
  option_map snd
    (Resampler.decimate [Resampler.float_of_int 1] small_resampler)
  = Some []
  /\ option_map snd
       (ub_bind (Resampler.decimate [Resampler.float_of_int 1] small_resampler)
          (fun p => Resampler.decimate [Resampler.float_of_int 2] (fst p)))
     = Some []
  /\ option_map (fun p => length (snd p))
       (Resampler.decimate
          [Resampler.float_of_int 1; Resampler.float_of_int 2]
          small_resampler)
     = Some 1%nat.
Proof. repeat split. Qed.

(** ** The constructor's arguments *)

(** X22.  A resampler without taps.  The constructor takes
    [taps_per_phase = 0] for any ratio from 1 on: it builds an object with
    no coefficient and an empty history.  On that object [decimate] and
    [interpolate] of an empty input write nothing and change nothing, and
    [apply_filter] is [0.0f]; but on any input of at least one sample both
    write outside the empty history ([history_[0] = ...]), which is
    undefined behaviour. *)
Theorem X22_no_taps
  (sin cos : Resampler.double -> Resampler.double) (ratio : Z) :
  1 <= ratio <= INT_MAX ->
  let r := Resampler.mk ratio 0 0 [] [] 0 in
  Resampler.new sin cos ratio 0 = Some r
  /\ Resampler.decimate [] r = Some (r, [])
  /\ Resampler.interpolate [] r = Some (r, [])
  /\ Resampler.apply_filter r = Some Resampler.fzero
  /\ (forall x rest, Resampler.decimate (x :: rest) r = None)
  /\ (forall x rest, Resampler.interpolate (x :: rest) r = None).
Proof.
  intros Hratio r. split; [ | split; [ | split; [ | split; [ | split ] ] ] ].
  - unfold Resampler.new. rewrite Z.mul_0_r. reflexivity.
  - reflexivity.
  - reflexivity.
  - reflexivity.
  - intros x rest. reflexivity.
  - intros x rest. unfold Resampler.interpolate, r.
    cbn [Resampler.interpolate_loop Resampler.ratio_].
    destruct (Z.to_nat ratio) as [|k] eqn:E; [ lia | ]. reflexivity.
Qed.

Lemma X22_no_taps_witness :
  Resampler.new libm_id libm_id 6 0 = Some (Resampler.mk 6 0 0 [] [] 0)
  /\ Resampler.decimate [Resampler.fzero] (Resampler.mk 6 0 0 [] [] 0) = None.
Proof.
  assert (H : 1 <= 6 <= INT_MAX) by (unfold INT_MAX; lia).
  destruct (X22_no_taps libm_id libm_id 6 H) as (Hnew & _ & _ & _ & Hdec & _).
  split; [ exact Hnew | apply Hdec ].
Defined.

(** X23.  The filter never changes.  In every state that a constructed
    resampler reaches through [decimate], [interpolate] and [reset],
    [get_ratio] returns the ratio given to the constructor, the number of
    taps is the product given to it, the coefficients are those that
    [design_filter] computed in the constructor, and both vectors keep
    their [ratio * taps_per_phase] entries. *)
Theorem X23_filter_never_changes
  (sin cos : Resampler.double -> Resampler.double) (ratio taps : Z) :
  1 <= ratio -> 1 <= taps -> ratio * taps <= INT_MAX ->
  exists r0,
    Resampler.new sin cos ratio taps = Some r0
    /\ Resampler.design_filter sin cos ratio (ratio * taps)
         (repeat Resampler.fzero (Z.to_nat (ratio * taps)))
       = Some (Resampler.coeffs_ r0)
    /\ forall r,
         Resampler.reachable r0 r ->
         Resampler.get_ratio r = ratio
         /\ Resampler.taps_per_phase_ r = taps
         /\ Resampler.total_taps_ r = ratio * taps
         /\ Resampler.coeffs_ r = Resampler.coeffs_ r0
         /\ Z.of_nat (length (Resampler.coeffs_ r)) = ratio * taps
         /\ Z.of_nat (length (Resampler.history_ r)) = ratio * taps.
Proof.
  intros Hratio Htaps Hfit.
  destruct (constructed_states sin cos ratio taps Hratio Htaps Hfit)
    as (r0 & Hnew & Hwf0 & Hr0 & Ht0 & Htot0 & Hwin0 & Hall).
  exists r0. split; [ exact Hnew | split ].
  - unfold Resampler.new in Hnew.
    destruct ((ratio * taps <? - INT_MAX - 1) || (INT_MAX <? ratio * taps));
      [ discriminate | ].
    destruct (ratio * taps <? 0); [ discriminate | ].
    destruct (Resampler.design_filter sin cos ratio (ratio * taps) _)
      as [coeffs|]; [ | discriminate ].
    cbn [ub_bind] in Hnew. injection Hnew as <-. reflexivity.
  - intros r Hreach. destruct (Hall r Hreach) as [Hwf Hsame].
    destruct Hsame as (Hr & Ht & Htot & Hc).
    destruct Hwf as [_ Htotal Hcoeffs Hhist _].
    unfold Resampler.get_ratio.
    repeat split; try congruence; lia.
Qed.

Lemma X23_filter_never_changes_witness :
  Resampler.get_ratio used_resampler = 2
  /\ Resampler.coeffs_ used_resampler = Resampler.coeffs_ small_resampler.
Proof.
  destruct (X23_filter_never_changes libm_id libm_id 2 1)
    as (r0 & Hnew & _ & Hall).
  - lia.
  - lia.
  - unfold INT_MAX. lia.
  - assert (Hr0 : r0 = small_resampler).
    { unfold small_resampler, example_resampler. rewrite Hnew. reflexivity. }
    subst r0.
    destruct (Hall used_resampler used_resampler_reachable)
      as (Hg & _ & _ & Hc & _).
    split; assumption.
Defined.

(** ** Silence *)

(** X24.  Silence in, silence out.  Take a constructed resampler none of
    whose coefficients is an infinity or a NaN.  In every state in which
    the history holds only zeros (of either sign), such as the state after
    the construction and after [reset], [decimate] and [interpolate] of an
    input of zeros (of either sign) write nothing but [+0.0f], and leave a
    history of zeros again.  The condition on the coefficients is needed:
    a product of a zero and a NaN or an infinity is a NaN. *)
Theorem X24_silence
  (sin cos : Resampler.double -> Resampler.double) (ratio taps : Z) :
  1 <= ratio -> 1 <= taps -> ratio * taps <= INT_MAX ->
  exists r0,
    Resampler.new sin cos ratio taps = Some r0
    /\ silent r0
    /\ (finite_coeffs r0 ->
        forall r input,
          Resampler.reachable r0 r ->
          silent r ->
          Forall (fun x => Resampler.is_zero x = true) input ->
          Z.of_nat (length input) < 2 ^ 64 ->
          (exists r' out,
              Resampler.decimate input r = Some (r', out)
              /\ Forall (fun y => y = Resampler.fzero) out
              /\ silent r')
          /\ (exists r' out,
                 Resampler.interpolate input r = Some (r', out)
                 /\ Forall (fun y => y = Resampler.fzero) out
                 /\ silent r'))
    /\ (forall y, Resampler.is_finite y = false ->
                  Resampler.fmul Resampler.fzero y = S754_nan).
Proof.
  intros Hratio Htaps Hfit.
  destruct (new_succeeds sin cos ratio taps Hratio Htaps Hfit) as [r0 Hnew].
  destruct (new_wf sin cos ratio taps r0 Hratio Htaps Hnew)
    as (Hwf0 & Hr0 & Ht0 & Htot0 & Hh0 & Hp0).
  exists r0. split; [ exact Hnew | split; [ | split ] ].
  - unfold silent. rewrite Hh0. apply Forall_forall.
    intros x Hx. apply repeat_spec in Hx. subst x. reflexivity.
  - intros Hfin r input Hreach Hsil Hin Hlen.
    destruct (reachable_wf r0 r Hwf0 Hreach) as [Hwf Hsame].
    assert (Hfin' : finite_coeffs r).
    { unfold finite_coeffs. destruct Hsame as (_ & _ & _ & ->). exact Hfin. }
    split.
    + destruct (decimate_loop_wf input 0 r [] Hwf) as
        (r' & out & Hrun & _ & _ & _ & Hzero); [ lia | lia | ].
      destruct (Hzero Hsil Hfin' Hin (Forall_nil _)) as [Hs' Ho].
      exists r', out. split; [ exact Hrun | split; assumption ].
    + destruct (interpolate_loop_wf input r [] Hwf) as
        (r' & out & Hrun & _ & _ & _ & Hzero).
      destruct (Hzero Hsil Hfin' Hin (Forall_nil _)) as [Hs' Ho].
      exists r', out. split; [ exact Hrun | split; assumption ].
  - intros y Hy. destruct y; try discriminate; reflexivity.
Qed.

Lemma small_resampler_finite : finite_coeffs small_resampler.
Proof. repeat constructor. Qed.

Lemma X24_silence_witness :
  exists r' out,
    Resampler.decimate (repeat (S754_zero true) 4) small_resampler
    = Some (r', out)
    /\ Forall (fun y => y = Resampler.fzero) out
    /\ silent r'.
Proof.
  destruct (X24_silence libm_id libm_id 2 1) as (r0 & Hnew & Hsil & Hall & _).
  - lia.
  - lia.
  - unfold INT_MAX. lia.
  - assert (Hr0 : r0 = small_resampler).
    { unfold small_resampler, example_resampler. rewrite Hnew. reflexivity. }
    subst r0.
    refine (proj1 (Hall small_resampler_finite small_resampler
                     (repeat (S754_zero true) 4)
                     (Resampler.reach_new small_resampler) Hsil _ _)).
    + repeat constructor.
    + cbn. lia.
Defined.

(** ** There and back *)

(** X25.  Down and up again.  Decimating [n] samples with one resampler
    and interpolating the result with another of the same ratio, each in
    any state it can reach, always succeeds and gives back
    [n - n mod ratio] samples: as many as went in when [n] is a multiple
    of the ratio, and otherwise the last [n mod ratio] samples have no
    counterpart. *)
Theorem X25_down_and_up
  (sin cos : Resampler.double -> Resampler.double) (ratio taps taps' : Z) :
  1 <= ratio -> 1 <= taps -> ratio * taps <= INT_MAX ->
  1 <= taps' -> ratio * taps' <= INT_MAX ->
  exists a0 b0,
    Resampler.new sin cos ratio taps = Some a0
    /\ Resampler.new sin cos ratio taps' = Some b0
    /\ forall a b input,
         Resampler.reachable a0 a -> Resampler.reachable b0 b ->
         Z.of_nat (length input) < 2 ^ 64 ->
         exists a' mid b' out,
           Resampler.decimate input a = Some (a', mid)
           /\ Resampler.interpolate mid b = Some (b', out)
           /\ Z.of_nat (length out)
              = Z.of_nat (length input) - Z.of_nat (length input) mod ratio
           /\ (Z.of_nat (length input) mod ratio = 0 ->
               length out = length input).
Proof.
  intros Hratio Htaps Hfit Htaps' Hfit'.
  destruct (constructed_states sin cos ratio taps Hratio Htaps Hfit)
    as (a0 & Hnewa & _ & Hra0 & _ & _ & _ & Halla).
  destruct (constructed_states sin cos ratio taps' Hratio Htaps' Hfit')
    as (b0 & Hnewb & _ & Hrb0 & _ & _ & _ & Hallb).
  exists a0, b0. split; [ exact Hnewa | split; [ exact Hnewb | ] ].
  intros a b input Hra Hrb Hlen.
  destruct (Halla a Hra) as [Hwfa (Ha & _)].
  destruct (Hallb b Hrb) as [Hwfb (Hb & _)].
  destruct (output_lengths_wf a input Hwfa Hlen)
    as [(a' & mid & Hdec & Hn) _].
  unfold Resampler.output_count in Hn. cbn [snd] in Hn.
  rewrite Ha, Hra0 in Hn.
  assert (Hmid : Z.of_nat (length mid) < 2 ^ 64).
  { rewrite Hn. apply Z.le_lt_trans with (Z.of_nat (length input)); [ | lia ].
    apply Z.div_le_upper_bound; nia. }
  destruct (output_lengths_wf b mid Hwfb Hmid)
    as [_ (b' & out & Hint & Hm)].
  unfold Resampler.output_count in Hm. cbn [snd] in Hm.
  rewrite Hb, Hrb0, Hn in Hm.
  exists a', mid, b', out.
  split; [ exact Hdec | split; [ exact Hint | ] ].
  assert (Hout : Z.of_nat (length out)
                 = Z.of_nat (length input) - Z.of_nat (length input) mod ratio).
  { rewrite Hm. rewrite (Z.div_mod (Z.of_nat (length input)) ratio) at 2 by lia.
    lia. }
  split; [ exact Hout | ].
  intros Hmod. rewrite Hmod in Hout. lia.
Qed.

Lemma X25_down_and_up_witness :
  exists a' mid b' out,
    Resampler.decimate five_samples small_resampler = Some (a', mid)
    /\ Resampler.interpolate mid small_resampler = Some (b', out)
    /\ Z.of_nat (length out)
       = Z.of_nat (length five_samples) - Z.of_nat (length five_samples) mod 2
    /\ (Z.of_nat (length five_samples) mod 2 = 0 ->
        length out = length five_samples).
Proof.
  destruct (X25_down_and_up libm_id libm_id 2 1 1)
    as (a0 & b0 & Hnewa & Hnewb & Hall).
  - lia.
  - lia.
  - unfold INT_MAX. lia.
  - lia.
  - unfold INT_MAX. lia.
  - assert (Ha0 : a0 = small_resampler).
    { unfold small_resampler, example_resampler. rewrite Hnewa. reflexivity. }
    assert (Hb0 : b0 = small_resampler).
    { unfold small_resampler, example_resampler. rewrite Hnewb. reflexivity. }
    subst a0 b0.
    refine (Hall small_resampler small_resampler five_samples
              (Resampler.reach_new small_resampler)
              (Resampler.reach_new small_resampler) _).
    cbn. lia.
Defined.
